(** * Dynamic mutual-TLS configuration of the webhooks package

    A shallow embedding of [pkg/util/webhooks/tls.go]: the policy
    resolver, the cipher name translator, the version mapper, the peer
    verifier and the four configuration builders, followed by the
    properties the design document states about them.

    Conventions.
    - A [uint16] is a [Z]; all identifiers used here are literals of the
      runtime and lie in [0, 2^16).
    - A Go pointer that may be [nil] is an [option].
    - A Go result pair [(value, err)] is kept as a pair of options, so that
      the shape "nil value and nil error" stays expressible.
    - [log.Log] calls are collected in a list of entries, oldest first.
    - The collaborators whose state changes over time (certificate manager,
      CA manager, cluster configuration) are read through a state of type
      [World]: a callback receives the state that is current when the
      runtime calls it. *)

From Stdlib Require Import ZArith.
From Stdlib.Strings Require Import Byte.
From stdpp Require Import base strings list gmap pretty.

Local Open Scope Z_scope.

(** ** The built-in [error] interface, seen through its [Error()] text *)

Record error := errorString { Error : string }.

Definition Errorf (msg : string) : error := errorString msg.

(** ** kubevirt.io/api/core/v1 *)

Module v1.

Definition TLSProtocolVersion := string.

(** Modelled from the spec: the four protocol-version labels of
    kubevirt.io/api/core/v1, whose declaration is not among the sources at hand;
    the spelling is the one of the literal default in
    [getTLSConfiguration]. *)
Definition VersionTLS10 : TLSProtocolVersion := "VersionTLS10".
Definition VersionTLS11 : TLSProtocolVersion := "VersionTLS11".
Definition VersionTLS12 : TLSProtocolVersion := "VersionTLS12".
Definition VersionTLS13 : TLSProtocolVersion := "VersionTLS13".

Record TLSConfiguration := mkTLSConfiguration {
  MinTLSVersion : TLSProtocolVersion;
  Ciphers : list string
}.

Record KubeVirtConfiguration := mkKubeVirtConfiguration {
  TLSConfiguration_ : option TLSConfiguration
}.

Record KubeVirtSpec := mkKubeVirtSpec {
  Configuration : KubeVirtConfiguration
}.

Record KubeVirt := mkKubeVirt {
  Spec : KubeVirtSpec
}.

End v1.

(** ** crypto/tls: constants and plain data *)

Module tls.

Definition VersionTLS10 : Z := 0x0301.
Definition VersionTLS11 : Z := 0x0302.
Definition VersionTLS12 : Z := 0x0303.
Definition VersionTLS13 : Z := 0x0304.

Inductive ClientAuthType :=
| NoClientCert
| RequestClientCert
| RequireAnyClientCert
| VerifyClientCertIfGiven
| RequireAndVerifyClientCert.

Record CipherSuite := mkCipherSuite {
  ID : Z;
  Name : string;
  SupportedVersions : list Z;
  Insecure : bool
}.

(** The arguments the runtime hands to the callbacks; their content is
    never inspected by this package. *)
Record ClientHelloInfo := mkClientHelloInfo { ServerName : string }.
Record CertificateRequestInfo := mkCertificateRequestInfo { Version : Z }.

End tls.

(** ** crypto/x509: plain data *)

Module x509.

Inductive ExtKeyUsage :=
| ExtKeyUsageAny
| ExtKeyUsageServerAuth
| ExtKeyUsageClientAuth
| ExtKeyUsageCodeSigning
| ExtKeyUsageEmailProtection
| ExtKeyUsageTimeStamping
| ExtKeyUsageOCSPSigning.

Global Instance ExtKeyUsage_eq_dec : EqDecision ExtKeyUsage.
Proof. solve_decision. Defined.

Record VerifyOptions (CertPool : Type) := mkVerifyOptions {
  Roots : option CertPool;
  Intermediates : option CertPool;
  KeyUsages : list ExtKeyUsage
}.
Arguments mkVerifyOptions {CertPool} _ _ _.
Arguments Roots {CertPool} _.
Arguments Intermediates {CertPool} _.
Arguments KeyUsages {CertPool} _.

End x509.

(** ** kubevirt.io/client-go/log *)

Module log.

Inductive Level := ErrorLevel | WarningLevel.

Record Entry := mkEntry {
  level : Level;
  reason : option error;
  message : string
}.

End log.

(** A computation that may write log entries. *)
Definition Logged (A : Type) : Type := A * list log.Entry.

Global Instance Logged_ret : MRet Logged := λ A a, (a, []).

Global Instance Logged_bind : MBind Logged := λ A B k m,
  let '(a, l1) := m in
  let '(b, l2) := k a in
  (b, l1 ++ l2).

Definition emit (e : log.Entry) : Logged unit := (tt, [e]).

(** [for _, x := range xs { acc = body acc x }] with logging. *)
Fixpoint rangeM {A S} (body : S → A → Logged S) (acc : S) (xs : list A) : Logged S :=
  match xs with
  | [] => mret acc
  | x :: xs' => acc' ← body acc x; rangeM body acc' xs'
  end.

(** ** What the Go runtime provides

    The certificate types, certificate parsing, chain verification and
    the two cipher suite catalogs belong to the standard library; they
    are an interface here. *)

Class Runtime := {
  (** [x509.Certificate], a parsed certificate *)
  x509_Certificate : Type;
  CommonName : x509_Certificate → string;   (* c.Subject.CommonName *)
  (** [x509.CertPool] *)
  x509_CertPool : Type;
  NewCertPool : x509_CertPool;
  AddCert : x509_CertPool → x509_Certificate → x509_CertPool;
  ParseCertificate : list byte → x509_Certificate + error;
  Verify : x509_Certificate → x509.VerifyOptions x509_CertPool →
           list (list x509_Certificate) * option error;
  (** [tls.Certificate], a leaf with its private key *)
  tls_Certificate : Type;
  (** the map [BuildNameToCertificate] computes from [Certificates] *)
  nameToCertificate : list tls_Certificate → gmap string tls_Certificate;
  (** [tls.CipherSuites()] and [tls.InsecureCipherSuites()] *)
  tls_CipherSuites : list tls.CipherSuite;
  tls_InsecureCipherSuites : list tls.CipherSuite
}.

Section webhooks.

Context `{RT : Runtime}.

(** The state the external managers are read from. *)
Context {World : Type}.

(** *** Collaborators *)

(** [certificate.Manager]: only [Current] is used. *)
Record Manager := mkManager {
  Current : World → option tls_Certificate
}.

(** [ClientCAManager] *)
Record ClientCAManager := mkClientCAManager {
  GetCurrent : World → option x509_CertPool * option error
}.

(** [virtconfig.ClusterConfig]: only [GetConfigFromKubeVirtCR] is used. *)
Record ClusterConfig := mkClusterConfig {
  GetConfigFromKubeVirtCR : World → option v1.KubeVirt
}.

(** *** [tls.Config], the fields this package sets

    A field left out of a Go composite literal has its zero value:
    [false], [NoClientCert], [0], [nil]. *)

#[local] Unset Elimination Schemes.
Inductive Config := mkConfig {
  InsecureSkipVerify : bool;
  ClientAuth : tls.ClientAuthType;
  CipherSuites : list Z;
  MinVersion : Z;
  Certificates : list tls_Certificate;
  ClientCAs : option x509_CertPool;
  NameToCertificate : option (gmap string tls_Certificate);
  GetCertificate :
    option (tls.ClientHelloInfo → World →
            Logged (option tls_Certificate * option error));
  GetClientCertificate :
    option (tls.CertificateRequestInfo → World →
            Logged (option tls_Certificate * option error));
  GetConfigForClient :
    option (tls.ClientHelloInfo → World →
            Logged (option Config * option error));
  VerifyPeerCertificate :
    option (list (list byte) → list (list x509_Certificate) → World →
            Logged (option error))
}.
#[local] Set Elimination Schemes.

Definition BuildNameToCertificate (c : Config) : Config :=
  mkConfig (InsecureSkipVerify c) (ClientAuth c) (CipherSuites c)
           (MinVersion c) (Certificates c) (ClientCAs c)
           (Some (nameToCertificate (Certificates c)))
           (GetCertificate c) (GetClientCertificate c)
           (GetConfigForClient c) (VerifyPeerCertificate c).

(** *** Package-level values *)

Definition noSrvCertMessage : string :=
  "No server certificate, server is not yet ready to receive traffic".

Definition cipherSuites : list tls.CipherSuite := tls_CipherSuites.
Definition insecureCipherSuites : list tls.CipherSuite := tls_InsecureCipherSuites.

(** *** getTLSConfiguration *)

Definition getTLSConfiguration (clusterConfig : ClusterConfig) (w : World)
  : v1.TLSConfiguration :=
  let tlsConfiguration := v1.mkTLSConfiguration "VersionTLS12" [] in
  let kv := GetConfigFromKubeVirtCR clusterConfig w in
  match kv with
  | Some kv' =>
      match v1.TLSConfiguration_ (v1.Configuration (v1.Spec kv')) with
      | Some t => t
      | None => tlsConfiguration
      end
  | None => tlsConfiguration
  end.

(** *** CipherSuiteIds *)

(** The two loops that fill [idByName]. *)
Definition fillIdByName (m : gmap string Z) (suites : list tls.CipherSuite)
  : gmap string Z :=
  foldl (λ m cipherSuite, <[tls.Name cipherSuite := tls.ID cipherSuite]> m) m suites.

Definition idByName : gmap string Z :=
  fillIdByName (fillIdByName ∅ cipherSuites) insecureCipherSuites.

Definition CipherSuiteIds (names : list string) : list Z :=
  foldl (λ ids name,
           match idByName !! name with
           | Some id => ids ++ [id]
           | None => ids
           end) [] names.

(** *** TlsVersion *)

Definition TlsVersion (version : v1.TLSProtocolVersion) : Z :=
  if decide (version = v1.VersionTLS10) then tls.VersionTLS10
  else if decide (version = v1.VersionTLS11) then tls.VersionTLS11
  else if decide (version = v1.VersionTLS12) then tls.VersionTLS12
  else if decide (version = v1.VersionTLS13) then tls.VersionTLS13
  else tls.VersionTLS12.

(** *** createIntermediatePool *)

Definition createIntermediatePool (externallyManaged : bool)
    (rawIntermediates : list (list byte)) : Logged (option x509_CertPool) :=
  if externallyManaged then
    intermediatePool ←
      rangeM (λ pool rawIntermediate,
                match ParseCertificate rawIntermediate with
                | inr err =>
                    emit (log.mkEntry log.WarningLevel None
                            ("failed to parse peer intermediate certificate: "
                               +:+ Error err));;
                    mret pool
                | inl c => mret (AddCert pool c)
                end)
             NewCertPool rawIntermediates;
    mret (Some intermediatePool)
  else mret None.

(** *** verifyPeerCert *)

Definition verifyPeerCert (rawCerts : list (list byte)) (externallyManaged : bool)
    (certPool : option x509_CertPool) (usage : x509.ExtKeyUsage)
    (commonName : string) : Logged (option error) :=
  match rawCerts with
  | [] => mret (Some (Errorf "no client certificate provided."))
  | rawPeer :: rawIntermediates =>
      match ParseCertificate rawPeer with
      | inr err =>
          mret (Some (Errorf ("failed to parse peer certificate: " +:+ Error err)))
      | inl c =>
          intermediatePool ← createIntermediatePool externallyManaged rawIntermediates;
          match Verify c (x509.mkVerifyOptions certPool intermediatePool [usage]) with
          | (_, Some err) =>
              mret (Some (Errorf ("could not verify peer certificate: " +:+ Error err)))
          | (_, None) =>
              let fullCommonName :=
                "kubevirt.io:system:" +:+ commonName +:+ ":virt-handler" in
              if negb externallyManaged
                 && bool_decide (CommonName c ≠ fullCommonName)
              then mret (Some (Errorf ("common name is invalid, expected "
                                         +:+ fullCommonName +:+ ", but got "
                                         +:+ CommonName c)))
              else mret None
          end
      end
  end.

(** *** The four builders *)

Definition SetupPromTLS (certManager : Manager) (clusterConfig : ClusterConfig)
  : Config :=
  let tlsConfig :=
    {| InsecureSkipVerify := false;
       ClientAuth := tls.NoClientCert;
       CipherSuites := [];
       MinVersion := 0;
       Certificates := [];
       ClientCAs := None;
       NameToCertificate := None;
       GetCertificate := Some (λ info w,
         let cert := Current certManager w in
         match cert with
         | None => mret (None, Some (Errorf noSrvCertMessage))
         | Some _ => mret (cert, None)
         end);
       GetClientCertificate := None;
       GetConfigForClient := Some (λ hi w,
         let crt := Current certManager w in
         match crt with
         | None =>
             emit (log.mkEntry log.ErrorLevel None "failed to get a certificate");;
             mret (None, Some (Errorf "failed to get a certificate"))
         | Some crt' =>
             let tlsConfig := getTLSConfiguration clusterConfig w in
             let ciphers := CipherSuiteIds (v1.Ciphers tlsConfig) in
             let minTLSVersion := TlsVersion (v1.MinTLSVersion tlsConfig) in
             let config :=
               {| InsecureSkipVerify := false;
                  ClientAuth := tls.VerifyClientCertIfGiven;
                  CipherSuites := ciphers;
                  MinVersion := minTLSVersion;
                  Certificates := [crt'];
                  ClientCAs := None;
                  NameToCertificate := None;
                  GetCertificate := None;
                  GetClientCertificate := None;
                  GetConfigForClient := None;
                  VerifyPeerCertificate := None |} in
             mret (Some (BuildNameToCertificate config), None)
         end);
       VerifyPeerCertificate := None |} in
  BuildNameToCertificate tlsConfig.

Definition SetupTLSWithCertManager (caManager : ClientCAManager)
    (certManager : Manager) (clientAuth : tls.ClientAuthType)
    (clusterConfig : ClusterConfig) : Config :=
  let tlsConfig :=
    {| InsecureSkipVerify := false;
       ClientAuth := tls.NoClientCert;
       CipherSuites := [];
       MinVersion := 0;
       Certificates := [];
       ClientCAs := None;
       NameToCertificate := None;
       GetCertificate := Some (λ info w,
         let cert := Current certManager w in
         match cert with
         | None => mret (None, Some (Errorf noSrvCertMessage))
         | Some _ => mret (cert, None)
         end);
       GetClientCertificate := None;
       GetConfigForClient := Some (λ hi w,
         let cert := Current certManager w in
         match cert with
         | None => mret (None, Some (Errorf noSrvCertMessage))
         | Some cert' =>
             match GetCurrent caManager w with
             | (_, Some err) =>
                 emit (log.mkEntry log.ErrorLevel (Some err)
                         "Failed to get requestheader client CA");;
                 mret (None, Some err)
             | (clientCAPool, None) =>
                 let tlsConfig := getTLSConfiguration clusterConfig w in
                 let ciphers := CipherSuiteIds (v1.Ciphers tlsConfig) in
                 let minTLSVersion := TlsVersion (v1.MinTLSVersion tlsConfig) in
                 let config :=
                   {| InsecureSkipVerify := false;
                      ClientAuth := clientAuth;
                      CipherSuites := ciphers;
                      MinVersion := minTLSVersion;
                      Certificates := [cert'];
                      ClientCAs := clientCAPool;
                      NameToCertificate := None;
                      GetCertificate := None;
                      GetClientCertificate := None;
                      GetConfigForClient := None;
                      VerifyPeerCertificate := None |} in
                 mret (Some (BuildNameToCertificate config), None)
             end
         end);
       VerifyPeerCertificate := None |} in
  BuildNameToCertificate tlsConfig.

Definition SetupTLSForVirtHandlerServer (caManager : ClientCAManager)
    (certManager : Manager) (externallyManaged : bool)
    (clusterConfig : ClusterConfig) : Config :=
  {| InsecureSkipVerify := true;
     ClientAuth := tls.NoClientCert;
     CipherSuites := [];
     MinVersion := 0;
     Certificates := [];
     ClientCAs := None;
     NameToCertificate := None;
     GetCertificate := Some (λ info w,
       let cert := Current certManager w in
       match cert with
       | None => mret (None, Some (Errorf noSrvCertMessage))
       | Some _ => mret (cert, None)
       end);
     GetClientCertificate := None;
     GetConfigForClient := Some (λ info w,
       match GetCurrent caManager w with
       | (_, Some err) =>
           emit (log.mkEntry log.ErrorLevel (Some err) "Failed to get kubevirt CA");;
           mret (None, Some err)
       | (None, None) =>
           mret (None, Some (Errorf
             "No ca certificate, server is not yet ready to receive traffic"))
       | (Some certPool', None) =>
           let certPool := Some certPool' in
           let cert := Current certManager w in
           match cert with
           | None => mret (None, Some (Errorf noSrvCertMessage))
           | Some _ =>
               let tlsConfig := getTLSConfiguration clusterConfig w in
               let ciphers := CipherSuiteIds (v1.Ciphers tlsConfig) in
               let minTLSVersion := TlsVersion (v1.MinTLSVersion tlsConfig) in
               let config :=
                 {| InsecureSkipVerify := true;
                    ClientAuth := tls.RequireAndVerifyClientCert;
                    CipherSuites := ciphers;
                    MinVersion := minTLSVersion;
                    Certificates := [];
                    ClientCAs := certPool;
                    NameToCertificate := None;
                    GetCertificate := Some (λ info _, mret (cert, None));
                    GetClientCertificate := None;
                    GetConfigForClient := None;
                    VerifyPeerCertificate := Some (λ rawCerts verifiedChains _,
                      verifyPeerCert rawCerts externallyManaged certPool
                        x509.ExtKeyUsageClientAuth "client") |} in
               mret (Some config, None)
           end
       end);
     VerifyPeerCertificate := None |}.

Definition SetupTLSForVirtHandlerClients (caManager : ClientCAManager)
    (certManager : Manager) (externallyManaged : bool) : Config :=
  {| InsecureSkipVerify := true;
     ClientAuth := tls.RequireAndVerifyClientCert;
     CipherSuites := [];
     MinVersion := 0;
     Certificates := [];
     ClientCAs := None;
     NameToCertificate := None;
     GetCertificate := Some (λ info w,
       let cert := Current certManager w in
       match cert with
       | None => mret (None, Some (Errorf noSrvCertMessage))
       | Some _ => mret (cert, None)
       end);
     GetClientCertificate := Some (λ info w,
       let cert := Current certManager w in
       match cert with
       | None => mret (None, Some (Errorf
           "No client certificate, client is not yet ready to talk to the server"))
       | Some _ => mret (cert, None)
       end);
     GetConfigForClient := None;
     VerifyPeerCertificate := Some (λ rawCerts verifiedChains w,
       match GetCurrent caManager w with
       | (_, Some err) =>
           emit (log.mkEntry log.ErrorLevel (Some err) "Failed to get kubevirt CA");;
           mret (Some err)
       | (certPool, None) =>
           verifyPeerCert rawCerts externallyManaged certPool
             x509.ExtKeyUsageServerAuth "node"
       end) |}.

End webhooks.

(** ** A small runtime to evaluate the model on

    Certificates are four fields in a fixed byte layout, a pool is a list
    and a chain is found by following issuer names; the catalogs are the
    ones of Go 1.21. *)

Module Fixture.

Record Cert := mkCert {
  subject : string;                  (* Subject.CommonName *)
  keyName : byte;                    (* names the key of this certificate *)
  issuer : byte;                     (* names the key that signed it *)
  usages : list x509.ExtKeyUsage
}.

Definition usageOfByte (b : byte) : list x509.ExtKeyUsage :=
  match b with
  | x01 => [x509.ExtKeyUsageServerAuth]
  | x02 => [x509.ExtKeyUsageClientAuth]
  | x03 => [x509.ExtKeyUsageServerAuth; x509.ExtKeyUsageClientAuth]
  | _ => []
  end.

(** Layout: key name, issuer, usage, then the common name. *)
Definition parse (raw : list byte) : Cert + error :=
  match raw with
  | k :: i :: u :: cn => inl (mkCert (String.string_of_list_byte cn) k i (usageOfByte u))
  | _ => inr (errorString "x509: malformed certificate")
  end.

Definition encode (k i u : byte) (cn : string) : list byte :=
  k :: i :: u :: String.list_byte_of_string cn.

Definition signedBy (c : Cert) (ca : Cert) : bool :=
  Byte.eqb (issuer c) (keyName ca).

Fixpoint chainsTo (fuel : nat) (roots inters : list Cert) (c : Cert) : bool :=
  existsb (signedBy c) roots
  || match fuel with
     | O => false
     | S fuel' =>
         existsb (λ i, signedBy c i && chainsTo fuel' roots inters i) inters
     end.

Definition verify (c : Cert) (opts : x509.VerifyOptions (list Cert))
  : list (list Cert) * option error :=
  let roots := default [] (x509.Roots opts) in
  let inters := default [] (x509.Intermediates opts) in
  if negb (chainsTo (length inters) roots inters c)
  then ([], Some (errorString "x509: certificate signed by unknown authority"))
  else if existsb (λ u, bool_decide (u ∈ usages c)) (x509.KeyUsages opts)
  then ([[c]], None)
  else ([], Some (errorString "x509: certificate specifies an incompatible key usage")).

Definition go121_CipherSuites : list tls.CipherSuite :=
  let upTo12 := [tls.VersionTLS10; tls.VersionTLS11; tls.VersionTLS12] in
  let only12 := [tls.VersionTLS12] in
  let only13 := [tls.VersionTLS13] in
  [ tls.mkCipherSuite 0x002f "TLS_RSA_WITH_AES_128_CBC_SHA" upTo12 false;
    tls.mkCipherSuite 0x0035 "TLS_RSA_WITH_AES_256_CBC_SHA" upTo12 false;
    tls.mkCipherSuite 0x009c "TLS_RSA_WITH_AES_128_GCM_SHA256" only12 false;
    tls.mkCipherSuite 0x009d "TLS_RSA_WITH_AES_256_GCM_SHA384" only12 false;
    tls.mkCipherSuite 0x1301 "TLS_AES_128_GCM_SHA256" only13 false;
    tls.mkCipherSuite 0x1302 "TLS_AES_256_GCM_SHA384" only13 false;
    tls.mkCipherSuite 0x1303 "TLS_CHACHA20_POLY1305_SHA256" only13 false;
    tls.mkCipherSuite 0xc009 "TLS_ECDHE_ECDSA_WITH_AES_128_CBC_SHA" upTo12 false;
    tls.mkCipherSuite 0xc00a "TLS_ECDHE_ECDSA_WITH_AES_256_CBC_SHA" upTo12 false;
    tls.mkCipherSuite 0xc013 "TLS_ECDHE_RSA_WITH_AES_128_CBC_SHA" upTo12 false;
    tls.mkCipherSuite 0xc014 "TLS_ECDHE_RSA_WITH_AES_256_CBC_SHA" upTo12 false;
    tls.mkCipherSuite 0xc02b "TLS_ECDHE_ECDSA_WITH_AES_128_GCM_SHA256" only12 false;
    tls.mkCipherSuite 0xc02c "TLS_ECDHE_ECDSA_WITH_AES_256_GCM_SHA384" only12 false;
    tls.mkCipherSuite 0xc02f "TLS_ECDHE_RSA_WITH_AES_128_GCM_SHA256" only12 false;
    tls.mkCipherSuite 0xc030 "TLS_ECDHE_RSA_WITH_AES_256_GCM_SHA384" only12 false;
    tls.mkCipherSuite 0xcca8 "TLS_ECDHE_RSA_WITH_CHACHA20_POLY1305_SHA256" only12 false;
    tls.mkCipherSuite 0xcca9 "TLS_ECDHE_ECDSA_WITH_CHACHA20_POLY1305_SHA256" only12 false ].

Definition go121_InsecureCipherSuites : list tls.CipherSuite :=
  let upTo12 := [tls.VersionTLS10; tls.VersionTLS11; tls.VersionTLS12] in
  let only12 := [tls.VersionTLS12] in
  [ tls.mkCipherSuite 0x0005 "TLS_RSA_WITH_RC4_128_SHA" upTo12 true;
    tls.mkCipherSuite 0x000a "TLS_RSA_WITH_3DES_EDE_CBC_SHA" upTo12 true;
    tls.mkCipherSuite 0x003c "TLS_RSA_WITH_AES_128_CBC_SHA256" only12 true;
    tls.mkCipherSuite 0xc007 "TLS_ECDHE_ECDSA_WITH_RC4_128_SHA" upTo12 true;
    tls.mkCipherSuite 0xc011 "TLS_ECDHE_RSA_WITH_RC4_128_SHA" upTo12 true;
    tls.mkCipherSuite 0xc012 "TLS_ECDHE_RSA_WITH_3DES_EDE_CBC_SHA" upTo12 true;
    tls.mkCipherSuite 0xc023 "TLS_ECDHE_ECDSA_WITH_AES_128_CBC_SHA256" only12 true;
    tls.mkCipherSuite 0xc027 "TLS_ECDHE_RSA_WITH_AES_128_CBC_SHA256" only12 true ].

Definition runtime : Runtime := {|
  x509_Certificate := Cert;
  CommonName := subject;
  x509_CertPool := list Cert;
  NewCertPool := [];
  AddCert := λ pool c, pool ++ [c];
  ParseCertificate := parse;
  Verify := verify;
  tls_Certificate := string;
  nameToCertificate := λ certs, list_to_map ((λ c, (c, c)) <$> certs);
  tls_CipherSuites := go121_CipherSuites;
  tls_InsecureCipherSuites := go121_InsecureCipherSuites
|}.

(** The snapshot the three collaborators currently hold. *)
Record State := mkState {
  leaf : option string;
  trust : option (list Cert) * option error;
  kubevirt : option v1.KubeVirt
}.

Definition certManager : @Manager runtime State := @mkManager runtime State leaf.
Definition caManager : @ClientCAManager runtime State := @mkClientCAManager runtime State trust.
Definition clusterConfig : @ClusterConfig State := @mkClusterConfig State kubevirt.

(** A root, an intermediate signed by it, and leaves. *)
Definition rootCA : Cert := mkCert "ca" "R" "R" [].
Definition rawIntermediate : list byte := encode "I" "R" x00 "sub-ca".
Definition rawHandlerClient : list byte :=
  encode "a" "R" x02 "kubevirt.io:system:client:virt-handler".
Definition rawHandlerNode : list byte :=
  encode "b" "R" x01 "kubevirt.io:system:node:virt-handler".
Definition rawStranger : list byte := encode "c" "R" x03 "somebody-else".
Definition rawForeignLeaf : list byte := encode "d" "I" x03 "foreign.example.org".
Definition rawGarbage : list byte := ["?"%byte].

Definition hello : tls.ClientHelloInfo := tls.mkClientHelloInfo "virt-handler".

Definition ready : State :=
  mkState (Some "handler-leaf") (Some [rootCA], None) None.
Definition noLeaf : State := mkState None (Some [rootCA], None) None.
Definition noTrust : State := mkState (Some "handler-leaf") (None, None) None.
Definition trustError : State :=
  mkState (Some "handler-leaf") (None, Some (errorString "informer not synced")) None.


(** A resource without a TLS configuration, and one that sets a policy. *)
Definition policy : v1.TLSConfiguration :=
  v1.mkTLSConfiguration "VersionTLS13"
    ["TLS_AES_128_GCM_SHA256"; "TLS_NOT_A_SUITE"; "TLS_RSA_WITH_RC4_128_SHA"].
Definition withoutPolicy : State :=
  mkState (Some "handler-leaf") (Some [rootCA], None)
    (Some (v1.mkKubeVirt (v1.mkKubeVirtSpec (v1.mkKubeVirtConfiguration None)))).
Definition withPolicy : State :=
  mkState (Some "handler-leaf") (Some [rootCA], None)
    (Some (v1.mkKubeVirt
             (v1.mkKubeVirtSpec (v1.mkKubeVirtConfiguration (Some policy))))).

End Fixture.

(** ** What the design document calls the static catalog *)

Section catalog.

Context `{RT : Runtime}.

(** The union of the secure and the legacy suite lists. *)
Definition catalog : list tls.CipherSuite := cipherSuites ++ insecureCipherSuites.

(** The identifier the catalog lists for a name: the one of the first
    suite carrying that name. *)
Definition catalogId (name : string) : option Z :=
  tls.ID <$> head (filter (λ cs, tls.Name cs = name) catalog).

(** The translation as the design document words it: keep the order,
    replace a listed name by its identifier, leave out the others. *)
Definition translate (names : list string) : list Z := omap catalogId names.

(** A name is listed with one identifier only. *)
Definition catalogFunctional : Prop :=
  ∀ a b, a ∈ catalog → b ∈ catalog → tls.Name a = tls.Name b → tls.ID a = tls.ID b.

End catalog.

(** The claim of the design document about the two peer-role builders,
    read on the configuration a builder returns: built-in verification
    is off and the peer verifier, with the given usage and role, is the
    installed callback (after the trust pool was fetched, where the
    callback fetches it itself). *)
Definition installsVerifier `{RT : Runtime} {World : Type}
    (caManager : @ClientCAManager RT World) (externallyManaged : bool)
    (usage : x509.ExtKeyUsage) (role : string) (c : @Config RT World) : Prop :=
  InsecureSkipVerify c = true ∧
  ∃ callback, VerifyPeerCertificate c = Some callback ∧
    ∀ rawCerts verifiedChains w certPool,
      GetCurrent caManager w = (certPool, None) →
      callback rawCerts verifiedChains w
      = verifyPeerCert rawCerts externallyManaged certPool usage role.

(** [needle] occurs in [s]. *)
Definition carries (needle s : string) : Prop :=
  ∃ before after, s = before +:+ needle +:+ after.

(** ** Wording of the peer verifier's intermediate pool *)

Section wording.

Context `{RT : Runtime} {World : Type}.

(** The presented intermediates that parse, in the order presented. *)
Definition parsedIntermediates (rawIntermediates : list (list byte))
  : list x509_Certificate :=
  omap (λ raw, match ParseCertificate raw with
               | inl c => Some c
               | inr _ => None
               end) rawIntermediates.

(** One warning for each presented intermediate that does not parse. *)
Definition parseWarnings (rawIntermediates : list (list byte)) : list log.Entry :=
  omap (λ raw, match ParseCertificate raw with
               | inl _ => None
               | inr err =>
                   Some (log.mkEntry log.WarningLevel None
                           ("failed to parse peer intermediate certificate: "
                              +:+ Error err))
               end) rawIntermediates.

(** The certificate-selection callback of a configuration hands out the
    current leaf, and fails with [noSrvCertMessage] while there is none. *)
Definition selectsCurrentOrNotReady (certManager : @Manager RT World)
    (c : @Config RT World) : Prop :=
  ∃ getCertificate, GetCertificate c = Some getCertificate ∧
    ∀ info w,
      (Current certManager w = None →
         getCertificate info w = ((None, Some (Errorf noSrvCertMessage)), [])) ∧
      (∀ cert, Current certManager w = Some cert →
         getCertificate info w = ((Some cert, None), [])) ∧
      fst (getCertificate info w) ≠ (None, None).

End wording.

(** ** Wording of what the per-client configurations carry *)

Section policy.

Context `{RT : Runtime} {World : Type}.

(** A configuration carries the policy that is current in [w]: the
    minimum version and the cipher identifiers are the translations of
    what [getTLSConfiguration] resolves. *)
Definition appliesPolicy (clusterConfig : @ClusterConfig World) (w : World)
    (config : @Config RT World) : Prop :=
  MinVersion config
  = TlsVersion (v1.MinTLSVersion (getTLSConfiguration clusterConfig w)) ∧
  CipherSuites config
  = CipherSuiteIds (v1.Ciphers (getTLSConfiguration clusterConfig w)).

(** The name an internally issued leaf must carry for a role. *)
Definition expectedCommonName (role : string) : string :=
  "kubevirt.io:system:" +:+ role +:+ ":virt-handler".

End policy.

(** ** The log-verbosity command of virtctl

    [pkg/virtctl/adm/logverbosity/logverbosity.go], the revision that
    keeps a [virtComponentInfo] for each component.

    Conventions, besides the ones above.
    - A [uint] is a [Z] in [0, 2^64); [math.MaxUint] is the one of a
      64-bit platform, as the comment on [noArg] has it.
    - [virtComponent] is an [int] used as an array index: a [nat] here.
    - An array of pointers is a list of options; a function that
      dereferences returns [None] where Go panics (nil pointer, index out
      of range).
    - A map is held by reference: the maps live in a store, a list indexed
      by location, so that a map appended to the patch data and changed
      afterwards is seen changed when the patch data is marshalled. *)

Module logverbosity.

Definition MaxUint : Z := 18446744073709551615.

Definition noFlag : Z := MaxUint - 1.
Definition noArg : Z := MaxUint.
Definition minVerbosity : Z := 0.
Definition maxVerbosity : Z := 9.

Definition virtComponent := nat.

Definition virtAPI : virtComponent := 0%nat.
Definition virtController : virtComponent := 1%nat.
Definition virtHandler : virtComponent := 2%nat.
Definition virtLauncher : virtComponent := 3%nat.
Definition virtOperator : virtComponent := 4%nat.
Definition all : virtComponent := 5%nat.

Definition virtComponentNum : nat := (all + 1)%nat.

Record virtComponentInfo := mkInfo {
  name : string;
  jsonName : string;
  verbosity : Z;
  showFlag : bool;
  setFlag : bool
}.

(** The package-level variables the flags are parsed into. *)
Record flagVars := mkFlagVars {
  apiVerbosity : Z;
  controllerVerbosity : Z;
  handlerVerbosity : Z;
  launcherVerbosity : Z;
  operatorVerbosity : Z;
  allVerbosity : Z;
  resetFlag : bool
}.

Definition operation := Z.

Definition show : operation := 0.
Definition set : operation := 1.
Definition nop : operation := 2.

Definition newline : string := String (Ascii.ascii_of_nat 10) "".

(** [componentInfo[component]] followed by a field access. *)
Definition deref (componentInfo : list (option virtComponentInfo))
    (component : virtComponent) : option virtComponentInfo :=
  mjoin (componentInfo !! component).

(** [b && e] and [b || e], where [e] is evaluated only when needed. *)
Definition andThen (b : bool) (e : option bool) : option bool :=
  if b then e else Some false.
Definition orElse (b : bool) (e : option bool) : option bool :=
  if b then Some true else e.

(** The components a loop from [first] up to, and without, [last] visits. *)
Definition upTo (first last : virtComponent) : list virtComponent :=
  seq first (last - first).

(** [for] over [xs], where the body may panic. *)
Fixpoint forEach {A S} (body : S → A → option S) (acc : S) (xs : list A) : option S :=
  match xs with
  | [] => Some acc
  | x :: xs' => acc' ← body acc x; forEach body acc' xs'
  end.

(** *** hasTarget *)

Fixpoint hasTarget_from (componentInfo : list (option virtComponentInfo))
    (components : list virtComponent) (hasShowTarget hasSetTarget : bool)
  : option (bool * bool) :=
  match components with
  | [] => Some (hasShowTarget, hasSetTarget)
  | component :: rest =>
      isShow ← andThen (negb hasShowTarget) (showFlag <$> deref componentInfo component);
      if isShow : bool then hasTarget_from componentInfo rest true hasSetTarget
      else
        isSet ← andThen (negb hasSetTarget) (setFlag <$> deref componentInfo component);
        if isSet : bool then hasTarget_from componentInfo rest hasShowTarget true
        else if hasShowTarget && hasSetTarget
             then Some (hasShowTarget, hasSetTarget)
             else hasTarget_from componentInfo rest hasShowTarget hasSetTarget
  end.

Definition hasTarget (componentInfo : list (option virtComponentInfo))
  : option (bool * bool) :=
  hasTarget_from componentInfo (upTo virtAPI (S all)) false false.

(** *** findOperation *)

Definition findOperation (resetFlag : bool)
    (componentInfo : list (option virtComponentInfo))
  : option (operation * option error) :=
  '(hasShowTarget, hasSetTarget) ← hasTarget componentInfo;
  if hasShowTarget && hasSetTarget
  then Some (-1, Some (errorString "show and set cannot coexist"))
  else if hasShowTarget && resetFlag
  then Some (-1, Some (errorString "show and reset cannot coexist"))
  else if hasShowTarget then Some (show, None)
  else if hasSetTarget || resetFlag then Some (set, None)
  else Some (nop, None).

(** *** getComponentByJSON *)

Definition getComponentByJSON (jsonName : string) : virtComponent :=
  let jsonToComponent : gmap string virtComponent :=
    list_to_map [ ("virtAPI", virtAPI);
                  ("virtController", virtController);
                  ("virtHandler", virtHandler);
                  ("virtLauncher", virtLauncher);
                  ("virtOperator", virtOperator) ] in
  default 0%nat (jsonToComponent !! jsonName).

(** *** createOutputMessage *)

Definition createOutputMessage (verbosityVal : list Z)
    (componentInfo : list (option virtComponentInfo)) : option string :=
  forEach (λ message component,
             info ← deref componentInfo component;
             shown ← orElse (showFlag info) (showFlag <$> deref componentInfo all);
             if shown : bool
             then
               value ← verbosityVal !! component;
               Some (message +:+ (name info +:+ "=" +:+ pretty value +:+ newline))
             else Some message)
          "" (upTo virtAPI all).

(** *** Maps held by reference *)

Definition Ref := nat.
Definition Store := list (gmap string Z).

(** [len(m)], [v, exist := m[key]] and [m[key] = val] on a map that may
    be nil: a nil map reads as empty, and assigning into it panics. *)
Definition mapLen (σ : Store) (m : option Ref) : option nat :=
  match m with
  | None => Some 0%nat
  | Some r => content ← σ !! r; Some (size content)
  end.

Definition mapGet (σ : Store) (m : option Ref) (key : string) : option (option Z) :=
  match m with
  | None => Some None
  | Some r => content ← σ !! r; Some (content !! key)
  end.

Definition mapSet (σ : Store) (m : option Ref) (key : string) (val : Z)
  : option Store :=
  match m with
  | None => None
  | Some r => content ← σ !! r; Some (<[r := <[key := val]> content]> σ)
  end.

(** [map[string]uint{}] and [make(map[string]uint)] *)
Definition newMap (σ : Store) : Ref * Store := (length σ, σ ++ [∅]).

(** *** setVerbosity *)

Definition setVerbosity (resetFlag : bool) (lvMap : option Ref)
    (componentInfo : list (option virtComponentInfo)) (σ : Store) : option Store :=
  forEach (λ σ component,
             info ← deref componentInfo component;
             val ←
               (if setFlag info then Some (verbosity info)
                else
                  allInfo ← deref componentInfo all;
                  if negb (setFlag info) && setFlag allInfo
                  then Some (verbosity allInfo)
                  else if negb (setFlag info) && negb (setFlag allInfo)
                          && negb resetFlag
                  then
                    tempVal ← mapGet σ lvMap (jsonName info);
                    Some (default MaxUint tempVal)
                  else Some MaxUint);
             if bool_decide (val ≠ MaxUint)
             then mapSet σ lvMap (jsonName info) val
             else Some σ)
          σ (upTo virtAPI all).

(** *** addPatch *)

(** [patch.PatchOperation]; [Value] holds the map by reference. *)
Record PatchOperation := mkPatchOperation {
  Op : string;
  Path : string;
  Value : option Ref
}.

Definition addPatch (patchData : list PatchOperation) (op path : string)
    (lvMap : option Ref) : list PatchOperation :=
  patchData ++ [mkPatchOperation op path lvMap].

(** A patch operation as [json.Marshal] reads it. *)
Record MarshalledOperation := mkMarshalledOperation {
  mOp : string;
  mPath : string;
  mValue : option (gmap string Z)
}.

Definition readPatch (σ : Store) (operation : PatchOperation)
  : option MarshalledOperation :=
  match Value operation with
  | None => Some (mkMarshalledOperation (Op operation) (Path operation) None)
  | Some r =>
      content ← σ !! r;
      Some (mkMarshalledOperation (Op operation) (Path operation) (Some content))
  end.

(** *** setComponentInfo *)

Definition componentEntries (vars : flagVars) : list virtComponentInfo :=
  [ mkInfo "virt-api" "virtAPI" (apiVerbosity vars) false false;
    mkInfo "virt-controller" "virtController" (controllerVerbosity vars) false false;
    mkInfo "virt-handler" "virtHandler" (handlerVerbosity vars) false false;
    mkInfo "virt-launcher" "virtLauncher" (launcherVerbosity vars) false false;
    mkInfo "virt-operator" "virtOperator" (operatorVerbosity vars) false false;
    mkInfo "all" "" (allVerbosity vars) false false ].

Fixpoint setComponentInfo_from (Changed : string → bool)
    (componentEntries : list virtComponentInfo) (components : list virtComponent)
    (componentInfo : list (option virtComponentInfo))
  : option (list (option virtComponentInfo) * option error) :=
  match components with
  | [] => Some (componentInfo, None)
  | component :: rest =>
      entry ← componentEntries !! component;
      let hasFlag := Changed (name entry) in
      let hasArg := hasFlag && bool_decide (verbosity entry ≠ noArg) in
      if hasFlag && bool_decide (verbosity entry ≠ noArg)
         && bool_decide (maxVerbosity < verbosity entry)
         && bool_decide (verbosity entry < noArg)
      then Some (componentInfo,
                 Some (Errorf (name entry +:+ ": log verbosity must be "
                                 +:+ pretty minVerbosity +:+ "-"
                                 +:+ pretty maxVerbosity)))
      else
        let entry' :=
          if hasFlag && negb hasArg
          then mkInfo (name entry) (jsonName entry) (verbosity entry) true
                 (setFlag entry)
          else if hasFlag && hasArg
          then mkInfo (name entry) (jsonName entry) (verbosity entry)
                 (showFlag entry) true
          else entry in
        if bool_decide (component < length componentInfo)%nat
        then setComponentInfo_from Changed componentEntries rest
               (<[component := Some entry']> componentInfo)
        else None
  end.

Definition setComponentInfo (Changed : string → bool) (vars : flagVars)
    (componentInfo : list (option virtComponentInfo))
  : option (list (option virtComponentInfo) * option error) :=
  setComponentInfo_from Changed (componentEntries vars) (upTo virtAPI (S all))
    componentInfo.

(** *** What comes from outside the package *)

Section kubevirt.

(** The KubeVirt resource as far as the command reads it:
    [Spec.Configuration.DeveloperConfiguration], and the [LogVerbosity]
    field of what that points to. Both are pointers, and so is the
    resource the functions are handed. *)
Context {KubeVirt DeveloperConfiguration LogVerbosity : Type}.
Context (DeveloperConfiguration_ : KubeVirt → option DeveloperConfiguration).
Context (LogVerbosity_ : DeveloperConfiguration → option LogVerbosity).

(** The two directions of [encoding/json]: marshalling the field, and
    unmarshalling the bytes into the map handed in. *)
Context (marshalLogVerbosity : option LogVerbosity → list byte * option error).
Context (unmarshalMap : list byte → option (gmap string Z) →
                        option (gmap string Z) * option error).

(** [json.Marshal] of the patch data, on what it reads through the
    references. *)
Context (marshalPatch : list MarshalledOperation → list byte * option error).

(** [patch.PatchAddOp] *)
Context (PatchAddOp : string).

(** The defaults of [virtconfig]. *)
Context (DefaultVirtAPILogVerbosity DefaultVirtControllerLogVerbosity
         DefaultVirtHandlerLogVerbosity DefaultVirtLauncherLogVerbosity
         DefaultVirtOperatorLogVerbosity : Z).

(** The order in which [range] visits a map; Go leaves it open. *)
Context (rangeOrder : gmap string Z → list (string * Z)).

(** *** hasVerbosityInKV *)

(** Reading the field through a nil resource, or through a nil
    [DeveloperConfiguration], panics. *)
Definition hasVerbosityInKV (kv : option KubeVirt)
  : option (option (gmap string Z) * option error) :=
  let verbosityMap : option (gmap string Z) := Some ∅ in
  kv ← kv;
  developerConfiguration ← DeveloperConfiguration_ kv;
  match marshalLogVerbosity (LogVerbosity_ developerConfiguration) with
  | (_, Some err) => Some (None, Some err)
  | (lvJSON, None) =>
      match unmarshalMap lvJSON verbosityMap with
      | (_, Some err) => Some (None, Some err)
      | (verbosityMap', None) => Some (verbosityMap', None)
      end
  end.

(** *** createShowMessage *)

Definition createShowMessage (kv : option KubeVirt)
    (componentInfo : list (option virtComponentInfo))
  : option (option string * option error) :=
  let verbosityVal :=
    [ DefaultVirtAPILogVerbosity; DefaultVirtControllerLogVerbosity;
      DefaultVirtHandlerLogVerbosity; DefaultVirtLauncherLogVerbosity;
      DefaultVirtOperatorLogVerbosity ] in
  found ← hasVerbosityInKV kv;
  match found with
  | (_, Some err) => Some (None, Some err)
  | (lvMap, None) =>
      verbosityVal' ←
        (if bool_decide (0 < from_option size 0%nat lvMap)%nat
         then forEach (λ verbosityVal '(key, value),
                         if bool_decide (getComponentByJSON key < length verbosityVal)%nat
                         then Some (<[getComponentByJSON key := value]> verbosityVal)
                         else None)
                      verbosityVal (from_option rangeOrder [] lvMap)
         else Some verbosityVal);
      message ← createOutputMessage verbosityVal' componentInfo;
      Some (Some message, None)
  end.

(** *** createPatch *)

Definition createPatch (resetFlag : bool) (kv : option KubeVirt)
    (componentInfo : list (option virtComponentInfo))
  : option (list byte * option error) :=
  let patchData : list PatchOperation := [] in
  found ← hasVerbosityInKV kv;
  match found with
  | (_, Some err) => Some ([], Some err)
  | (returned, None) =>
      (* the map hasVerbosityInKV returned, when it is not nil, lives at 0 *)
      let σ : Store := from_option (λ content, [content]) [] returned in
      let lvMap : option Ref := from_option (λ _, Some 0%nat) None returned in
      let op := PatchAddOp in
      let path := "/spec/configuration/developerConfiguration/logVerbosity" in
      size0 ← mapLen σ lvMap;
      let '(lvMap, patchData, σ) :=
        if resetFlag && bool_decide (size0 ≠ 0%nat)
        then let '(fresh, σ') := newMap σ in
             (Some fresh, addPatch patchData op path (Some fresh), σ')
        else (lvMap, patchData, σ) in
      let '(lvMap, σ) :=
        match lvMap with
        | None => let '(fresh, σ') := newMap σ in (Some fresh, σ')
        | Some _ => (lvMap, σ)
        end in
      σ ← setVerbosity resetFlag lvMap componentInfo σ;
      size1 ← mapLen σ lvMap;
      let patchData :=
        if bool_decide (size1 ≠ 0%nat)
        then addPatch patchData op path lvMap
        else patchData in
      marshalled ← mapM (readPatch σ) patchData;
      Some (marshalPatch marshalled)
  end.

End kubevirt.

End logverbosity.

(** ** The oracle of the log-verbosity tests

    [createOutputMessage] of the test file: the message expected for a
    vector of verbosities, [-1] standing for a component that is not
    shown. [int] and [uint] are 64 bits wide. *)

Module logverbosity_test.

Definition componentToName : list string :=
  [ "virt-api"; "virt-controller"; "virt-handler"; "virt-launcher";
    "virt-operator" ].

(** A Go [int]: a number of 64 bits with a sign. *)
Definition int : Type := dsig (λ z : Z, - 2 ^ 63 ≤ z < 2 ^ 63).

(** The [int] a number is in two's complement: the number itself when
    it is in range, as for the literals of the tests, and what the
    conversion [int(x)] makes of a [uint] beyond it. *)
Definition toInt (z : Z) : int.
Proof.
  refine (dexist ((z + 2 ^ 63) mod 2 ^ 64 - 2 ^ 63) _).
  pose proof (Z.mod_pos_bound (z + 2 ^ 63) (2 ^ 64) eq_refl). lia.
Defined.

(** [uint(x)] of an [int] *)
Definition uint (x : int) : Z := proj1_sig x mod 2 ^ 64.

Definition createOutputMessage (output : list int) : option string :=
  logverbosity.forEach
    (λ message component,
       value ← output !! component;
       if bool_decide (proj1_sig value = -1)
       then Some message
       else
         value' ← output !! component;
         componentName ← componentToName !! component;
         Some (message +:+ (componentName +:+ "=" +:+ pretty (uint value')
                              +:+ logverbosity.newline)))
    "" (logverbosity.upTo logverbosity.virtAPI logverbosity.all).

End logverbosity_test.

(** ** Wording of the log-verbosity properties *)

Module logverbosity_wording.

Import logverbosity.

(** A [uint]. *)
Definition isUint (v : Z) : Prop := 0 ≤ v ≤ MaxUint.

(** A flag that was given with a value that is neither "no argument" nor
    a verbosity from 0 to 9. *)
Definition outOfRange (Changed : string → bool) (entry : virtComponentInfo) : bool :=
  Changed (name entry) && bool_decide (verbosity entry ≠ noArg)
  && bool_decide (maxVerbosity < verbosity entry).

(** An entry with its two flags decided: a show target when the flag was
    given without a value, a set target when it was given with one. *)
Definition flagged (Changed : string → bool) (entry : virtComponentInfo)
  : virtComponentInfo :=
  mkInfo (name entry) (jsonName entry) (verbosity entry)
    (Changed (name entry) && bool_decide (verbosity entry = noArg))
    (Changed (name entry) && bool_decide (verbosity entry ≠ noArg)).

(** No entry is both a show and a set target. *)
Definition exclusive (infos : list virtComponentInfo) : Prop :=
  Forall (λ info, showFlag info && setFlag info = false) infos.

(** The verbosity a component is given by a set operation, if any: its
    own when it is a set target, the one of "all" when that is one. *)
Definition requested (allInfo info : virtComponentInfo) : option Z :=
  if setFlag info then Some (verbosity info)
  else if setFlag allInfo then Some (verbosity allInfo)
  else None.

(** The map after a set operation: the requested verbosities written
    over [m], component by component. *)
Definition verbosityAfter (allInfo : virtComponentInfo)
    (infos : list virtComponentInfo) (m : gmap string Z) : gmap string Z :=
  foldl (λ m info, from_option (λ v, <[jsonName info := v]> m) m
                     (requested allInfo info))
        m infos.

(** The vector the test oracle is given for a show operation: the value
    of a shown component as an [int], [-1] for one that is not shown. *)
Definition expectedOutput (infos : list virtComponentInfo) (allInfo : virtComponentInfo)
    (verbosityVal : list Z) : list logverbosity_test.int :=
  zip_with (λ info value, if showFlag info || showFlag allInfo
                          then logverbosity_test.toInt value
                          else logverbosity_test.toInt (-1))
           infos verbosityVal.

(** The JSON names of the five components. *)
Definition jsonNames : list string :=
  ["virtAPI"; "virtController"; "virtHandler"; "virtLauncher"; "virtOperator"].

End logverbosity_wording.

(** ** The log-verbosity command, the revision that works on an options map

    The revision of the file that collects the given flags in a map from
    component name to verbosity ([options]) and ranges over it. *)

Module logverbosity_options.

Import logverbosity.

(** *** The three tables *)

Definition getComponentNameByVirtComponent (component : virtComponent) : string :=
  let virtComponentToComponentName : gmap nat string :=
    list_to_map [ (virtAPI, "virt-api");
                  (virtController, "virt-controller");
                  (virtHandler, "virt-handler");
                  (virtLauncher, "virt-launcher");
                  (virtOperator, "virt-operator");
                  (all, "all") ] in
  default "" (virtComponentToComponentName !! component).

Definition getJSONNameByVirtComponent (component : virtComponent) : string :=
  let virtComponentToJSONName : gmap nat string :=
    list_to_map [ (virtAPI, "virtAPI");
                  (virtController, "virtController");
                  (virtHandler, "virtHandler");
                  (virtLauncher, "virtLauncher");
                  (virtOperator, "virtOperator");
                  (all, "all") ] in
  default "" (virtComponentToJSONName !! component).

Definition getJSONNameByComponentName (componentName : string) : string :=
  let componentNameToJSONName : gmap string string :=
    list_to_map [ ("virt-api", "virtAPI");
                  ("virt-controller", "virtController");
                  ("virt-handler", "virtHandler");
                  ("virt-launcher", "virtLauncher");
                  ("virt-operator", "virtOperator");
                  ("all", "all") ] in
  default "" (componentNameToJSONName !! componentName).

(** *** findOperation *)

(** The loop of findOperation; it stops at the first error. The state is
    the options map and the two flags. *)
Fixpoint findOperation_from (Changed : string → bool) (verbosities : list Z)
    (components : list virtComponent)
    (state : gmap string Z * bool * bool)
  : option (gmap string Z * bool * bool * option error) :=
  match components with
  | [] => Some (state, None)
  | component :: rest =>
      let '(options, isShow, isSet) := state in
      let componentName := getComponentNameByVirtComponent component in
      if negb (Changed componentName)
      then findOperation_from Changed verbosities rest state
      else
        verbosity ← verbosities !! component;
        let isShow := isShow || bool_decide (verbosity = noArg) in
        let isSet := isSet || bool_decide (verbosity ≠ noArg) in
        if bool_decide (verbosity ≠ noArg) && bool_decide (maxVerbosity < verbosity)
        then Some (options, isShow, isSet,
                   Some (Errorf (componentName +:+ ": log verbosity must be "
                                   +:+ pretty minVerbosity +:+ "-"
                                   +:+ pretty maxVerbosity)))
        else findOperation_from Changed verbosities rest
               (<[componentName := verbosity]> options, isShow, isSet)
  end.

(** The options map is changed in place: what the caller finds in it
    afterwards is returned beside the result. *)
Definition findOperation (Changed : string → bool) (verbosities : list Z)
    (isReset : bool) (options : gmap string Z)
  : option (gmap string Z * (operation * option error)) :=
  '(options, isShow, isSet, err) ←
    findOperation_from Changed verbosities (upTo virtAPI (S all))
      (options, false, false);
  match err with
  | Some err => Some (options, (nop, Some err))
  | None =>
      let isSet := if isReset then true else isSet in
      if isShow && isSet
      then Some (options, (nop, Some (Errorf "only show or set is allowed")))
      else if isShow then Some (options, (show, None))
      else if isSet then Some (options, (set, None))
      else Some (options, (nop, None))
  end.

(** *** createOutputMessage *)

Definition createOutputMessage (verbosityVal options : gmap string Z) : list string :=
  foldl (λ messages component,
           let componentName := getComponentNameByVirtComponent component in
           let JSONName := getJSONNameByVirtComponent component in
           if bool_decide (is_Some (options !! "all"))
           then messages ++ [componentName +:+ "=" +:+
                             pretty (default 0 (verbosityVal !! JSONName))]
           else if bool_decide (is_Some (options !! componentName))
           then messages ++ [componentName +:+ "=" +:+
                             pretty (default 0 (verbosityVal !! JSONName))]
           else messages)
        [] (upTo virtAPI all).

(** *** addPatch, setVerbosity, resetVerbosity *)

Definition addPatch (patchData : list PatchOperation) (op path : string)
    (lvMap : option Ref) : list PatchOperation :=
  patchData ++ [mkPatchOperation op path lvMap].

Section ranging.

(** The order in which [range] visits a map. *)
Context (rangeOrder : gmap string Z → list (string * Z)).

Definition setVerbosity (lvMap : option Ref) (options : gmap string Z)
    (patchData : list PatchOperation) (op path : string) (σ : Store)
  : option (list PatchOperation * Store) :=
  σ ← match options !! "all" with
      | Some verbosity =>
          forEach (λ σ component,
                     mapSet σ lvMap (getJSONNameByVirtComponent component) verbosity)
                  σ (upTo virtAPI all)
      | None => Some σ
      end;
  σ ← forEach (λ σ '(componentName, verbosity),
                 if bool_decide (componentName = "all")
                 then Some σ
                 else mapSet σ lvMap (getJSONNameByComponentName componentName)
                        verbosity)
              σ (rangeOrder options);
  size ← mapLen σ lvMap;
  Some (if bool_decide (size ≠ 0%nat)
        then addPatch patchData op path lvMap
        else patchData, σ).

Definition resetVerbosity (lvMap : option Ref) (patchData : list PatchOperation)
    (op path : string) (σ : Store) : option (list PatchOperation * Store) :=
  size ← mapLen σ lvMap;
  if bool_decide (size ≠ 0%nat)
  then let '(emptyMap, σ') := newMap σ in
       Some (addPatch patchData op path (Some emptyMap), σ')
  else Some (patchData, σ).

(** *** createPatch *)

Context {KubeVirt DeveloperConfiguration LogVerbosity : Type}.
Context (DeveloperConfiguration_ : KubeVirt → option DeveloperConfiguration).
Context (LogVerbosity_ : DeveloperConfiguration → option LogVerbosity).
Context (marshalLogVerbosity : option LogVerbosity → list byte * option error).
Context (unmarshalMap : list byte → option (gmap string Z) →
                        option (gmap string Z) * option error).
Context (marshalPatch : list MarshalledOperation → list byte * option error).
Context (PatchAddOp : string).

Definition createPatch (isReset : bool) (kv : option KubeVirt)
    (options : gmap string Z)
  : option (list byte * option error) :=
  let patchData : list PatchOperation := [] in
  let op := PatchAddOp in
  let path := "/spec/configuration/developerConfiguration/logVerbosity" in
  found ← hasVerbosityInKV DeveloperConfiguration_ LogVerbosity_
             marshalLogVerbosity unmarshalMap kv;
  match found with
  | (_, Some err) => Some ([], Some err)
  | (returned, None) =>
      let σ : Store := from_option (λ content, [content]) [] returned in
      let lvMap : option Ref := from_option (λ _, Some 0%nat) None returned in
      let '(lvMap, σ) :=
        match lvMap with
        | None => let '(fresh, σ') := newMap σ in (Some fresh, σ')
        | Some _ => (lvMap, σ)
        end in
      '(lvMap, patchData, σ) ←
        (if isReset
         then
           '(patchData, σ) ← resetVerbosity lvMap patchData op path σ;
           let '(fresh, σ') := newMap σ in
           Some (Some fresh, patchData, σ')
         else Some (lvMap, patchData, σ));
      '(patchData, σ) ← setVerbosity lvMap options patchData op path σ;
      marshalled ← mapM (readPatch σ) patchData;
      Some (marshalPatch marshalled)
  end.

(** *** createShowMessage *)

(** The defaults of [virtconfig]. *)
Context (DefaultVirtAPILogVerbosity DefaultVirtControllerLogVerbosity
         DefaultVirtHandlerLogVerbosity DefaultVirtLauncherLogVerbosity
         DefaultVirtOperatorLogVerbosity : Z).

Definition createShowMessage (kv : option KubeVirt) (options : gmap string Z)
  : option (list string * option error) :=
  let verbosityVal : gmap string Z :=
    list_to_map [ ("virtAPI", DefaultVirtAPILogVerbosity);
                  ("virtController", DefaultVirtControllerLogVerbosity);
                  ("virtHandler", DefaultVirtHandlerLogVerbosity);
                  ("virtLauncher", DefaultVirtLauncherLogVerbosity);
                  ("virtOperator", DefaultVirtOperatorLogVerbosity) ] in
  found ← hasVerbosityInKV DeveloperConfiguration_ LogVerbosity_
             marshalLogVerbosity unmarshalMap kv;
  match found with
  | (_, Some err) => Some ([], Some err)
  | (lvMap, None) =>
      let verbosityVal :=
        if bool_decide (0 < from_option size 0%nat lvMap)%nat
        then foldl (λ verbosityVal '(key, value), <[key := value]> verbosityVal)
                   verbosityVal (from_option rangeOrder [] lvMap)
        else verbosityVal in
      let messages := createOutputMessage verbosityVal options in
      Some (messages, None)
  end.

End ranging.

End logverbosity_options.

(** ** Wording of the properties of the options-map revision *)

Module logverbosity_options_wording.

Import logverbosity logverbosity_options.

(** The names of the six flags. *)
Definition componentNames : list string :=
  ["virt-api"; "virt-controller"; "virt-handler"; "virt-launcher";
   "virt-operator"; "all"].

(** The verbosity the options ask for a component: the one given for the
    component itself, otherwise the one given for "all". *)
Definition requestedFor (options : gmap string Z) (component : virtComponent)
  : option Z :=
  match options !! getComponentNameByVirtComponent component with
  | Some v => Some v
  | None => options !! "all"
  end.

(** The map after a set operation: for each of the five components, the
    requested verbosity written over [m]. *)
Definition optionsAfter (options : gmap string Z) (m : gmap string Z)
  : gmap string Z :=
  foldl (λ m component,
           from_option (λ v, <[getJSONNameByVirtComponent component := v]> m) m
             (requestedFor options component))
        m (upTo virtAPI all).

(** Whether a flag was given without a value, and whether one was given
    with a value. *)
Definition showAsked (Changed : string → bool) (verbosities : list Z) : bool :=
  existsb (λ flag, Changed flag.1 && bool_decide (flag.2 = noArg))
          (zip componentNames verbosities).
Definition setAsked (Changed : string → bool) (verbosities : list Z) : bool :=
  existsb (λ flag, Changed flag.1 && bool_decide (flag.2 ≠ noArg))
          (zip componentNames verbosities).

(** Whether the options ask for a component to be shown. *)
Definition shownFor (options : gmap string Z) (component : virtComponent) : bool :=
  bool_decide (is_Some (options !! "all"))
  || bool_decide (is_Some (options !! getComponentNameByVirtComponent component)).

End logverbosity_options_wording.

(** ** Command lines and a resource to evaluate the log-verbosity model on *)

Module LogFixture.

Import logverbosity logverbosity_wording.

(** [--virt-controller=0 --virt-handler=9] *)
Definition setTwo : flagVars := mkFlagVars noFlag 0 9 noFlag noFlag noFlag false.
Definition setTwoChanged (flag : string) : bool :=
  bool_decide (flag ∈ ["virt-controller"; "virt-handler"]).

(** [--virt-handler --virt-controller] *)
Definition showTwo : flagVars :=
  mkFlagVars noFlag noArg noArg noFlag noFlag noFlag false.

(** [--virt-api=3 --virt-handler=10 --all=12] *)
Definition tooHigh : flagVars := mkFlagVars 3 noFlag 10 noFlag noFlag 12 false.
Definition tooHighChanged (flag : string) : bool :=
  bool_decide (flag ∈ ["virt-api"; "virt-handler"; "all"]).

(** [--reset --virt-handler=1 --virt-launcher=2] *)
Definition resetThenSet : flagVars :=
  mkFlagVars noFlag noFlag 1 2 noFlag noFlag true.
Definition resetThenSetChanged (flag : string) : bool :=
  bool_decide (flag ∈ ["virt-handler"; "virt-launcher"]).

Definition unset : list (option virtComponentInfo) := replicate virtComponentNum None.

(** The verbosity the tests put into the resource. *)
Definition existing : gmap string Z :=
  list_to_map [("virtAPI", 5); ("virtController", 6); ("virtLauncher", 3);
               ("virtOperator", 4)].

(** A resource is its developerConfiguration, which may be absent, and
    that is its logVerbosity field: absent, or pairs of a component and a
    verbosity. The field is marshalled as one byte for "null", or two
    bytes for each pair. *)
Definition LogVerbosity := list (nat * nat).
Definition DeveloperConfiguration := option LogVerbosity.
Definition Resource := option DeveloperConfiguration.

Definition developerConfiguration (kv : Resource) : option DeveloperConfiguration :=
  kv.
Definition logVerbosity (developerConfiguration : DeveloperConfiguration)
  : option LogVerbosity := developerConfiguration.

Definition marshal (lv : option LogVerbosity) : list byte * option error :=
  match lv with
  | None => (["n"%byte], None)
  | Some pairs =>
      (flat_map (λ pair, [default x00 (Byte.of_nat (fst pair));
                          default x00 (Byte.of_nat (snd pair))]) pairs, None)
  end.

Fixpoint unmarshalPairs (raw : list byte) (m : gmap string Z)
  : option (gmap string Z) :=
  match raw with
  | [] => Some m
  | c :: v :: raw' =>
      key ← jsonNames !! Byte.to_nat c;
      unmarshalPairs raw' (<[key := Z.of_nat (Byte.to_nat v)]> m)
  | _ => None
  end.

Definition unmarshal (raw : list byte) (into : option (gmap string Z))
  : option (gmap string Z) * option error :=
  match raw with
  | ["n"%byte] => (None, None)
  | _ =>
      match unmarshalPairs raw (default ∅ into) with
      | Some m => (Some m, None)
      | None => (into, Some (errorString "unexpected end of JSON input"))
      end
  end.

Definition withVerbosity : Resource :=
  Some (Some [(0, 5); (1, 6); (3, 3); (4, 4)]%nat).
Definition withoutVerbosity : Resource := Some None.
Definition withoutDeveloperConfiguration : Resource := None.
Definition broken : list byte * option error :=
  ([], Some (errorString "json: unsupported value")).

(** The patch data are marshalled to as many bytes as there are
    operations, each the size of the object it adds. *)
Definition marshalPatch (operations : list MarshalledOperation)
  : list byte * option error :=
  ((λ operation, default x00 (Byte.of_nat (from_option size 0%nat (mValue operation))))
     <$> operations, None).

(** A range order other than the one of [map_to_list]. *)
Definition backwards (m : gmap string Z) : list (string * Z) :=
  reverse (map_to_list m).

(** [--all=3 --virt-handler=7], as flags and as the options collected
    from them. *)
Definition allThenHandlerChanged (flag : string) : bool :=
  bool_decide (flag ∈ ["all"; "virt-handler"]).
Definition allThenHandlerVerbosities : list Z :=
  [noFlag; noFlag; 7; noFlag; noFlag; 3].
Definition allThenHandler : gmap string Z :=
  list_to_map [("all", 3); ("virt-handler", 7)].

(** The verbosities of [tooHigh]. *)
Definition tooHighVerbosities : list Z := [3; noFlag; 10; noFlag; noFlag; 12].

(** The options collected from [--virt-handler --virt-launcher]. *)
Definition showTwoOptions : gmap string Z :=
  list_to_map [("virt-handler", noArg); ("virt-launcher", noArg)].

End LogFixture.

(** * Properties *)

(** ** Version mapper *)

(** C7: TlsVersion sends each of the four labels to the numeric identifier
    of that protocol version, and every other label, the empty one
    included, to the identifier of version 1.2. *)
Theorem TlsVersion_labels :
  TlsVersion v1.VersionTLS10 = 0x0301 ∧
  TlsVersion v1.VersionTLS11 = 0x0302 ∧
  TlsVersion v1.VersionTLS12 = 0x0303 ∧
  TlsVersion v1.VersionTLS13 = 0x0304 ∧
  TlsVersion "" = 0x0303 ∧
  ∀ version : v1.TLSProtocolVersion,
    version ∉ [v1.VersionTLS10; v1.VersionTLS11; v1.VersionTLS12; v1.VersionTLS13] →
    TlsVersion version = 0x0303.
Proof.
  repeat split; try reflexivity.
  intros version Hother. unfold TlsVersion.
  repeat case_decide; subst; try reflexivity; exfalso; apply Hother; set_solver.
Qed.

Lemma TlsVersion_labels_witness :
  TlsVersion "TLS 1.3" = 0x0303.
Proof.
  apply TlsVersion_labels.
  intros Hin. repeat (apply elem_of_cons in Hin as [Heq | Hin]; [discriminate Heq |]).
  by apply elem_of_nil in Hin.
Defined.

Section properties.

Context `{RT : Runtime} {World : Type}.

Implicit Types (caManager : @ClientCAManager RT World).
Implicit Types (certManager : @Manager RT World).
Implicit Types (clusterConfig : @ClusterConfig World).
Implicit Types (w : World).

(** ** Policy resolver *)

(** C9: getTLSConfiguration always returns a policy. It is the default,
    minimum version 1.2 and no cipher names, when there is no KubeVirt
    resource or the resource has no TLS configuration, and the TLS
    configuration of the resource otherwise. *)
Theorem getTLSConfiguration_default clusterConfig w :
  let default := v1.mkTLSConfiguration v1.VersionTLS12 [] in
  (GetConfigFromKubeVirtCR clusterConfig w = None →
     getTLSConfiguration clusterConfig w = default) ∧
  (∀ kv, GetConfigFromKubeVirtCR clusterConfig w = Some kv →
     v1.TLSConfiguration_ (v1.Configuration (v1.Spec kv)) = None →
     getTLSConfiguration clusterConfig w = default) ∧
  (∀ kv t, GetConfigFromKubeVirtCR clusterConfig w = Some kv →
     v1.TLSConfiguration_ (v1.Configuration (v1.Spec kv)) = Some t →
     getTLSConfiguration clusterConfig w = t) ∧
  TlsVersion (v1.MinTLSVersion default) = tls.VersionTLS12.
Proof.
  unfold getTLSConfiguration. repeat split.
  - by intros ->.
  - by intros kv -> ->.
  - by intros kv t -> ->.
Qed.

(** ** Peer verifier *)

(** C6: with no certificate presented, verifyPeerCert fails at once with
    the "no certificate provided" error, whatever the trust pool, the
    usage, the role and the externally-managed flag, and logs nothing. *)
Theorem verifyPeerCert_no_certificate externallyManaged
    (certPool : option x509_CertPool) usage commonName :
  verifyPeerCert [] externallyManaged certPool usage commonName
  = (Some (Errorf "no client certificate provided."), []).
Proof. reflexivity. Qed.

(** ** Cipher name translator *)

Lemma fillIdByName_cons m cs suites :
  fillIdByName m (cs :: suites)
  = fillIdByName (<[tls.Name cs := tls.ID cs]> m) suites.
Proof. reflexivity. Qed.

Lemma fillIdByName_snoc m suites cs :
  fillIdByName m (suites ++ [cs])
  = <[tls.Name cs := tls.ID cs]> (fillIdByName m suites).
Proof. unfold fillIdByName. by rewrite foldl_app. Qed.

Lemma idByName_catalog : idByName = fillIdByName ∅ catalog.
Proof. unfold idByName, catalog, fillIdByName. by rewrite foldl_app. Qed.

(** What the loop leaves under a name: the identifier of the last suite
    carrying it, or the entry that was there before. *)
Lemma fillIdByName_lookup suites : ∀ m name,
  fillIdByName m suites !! name
  = match last (filter (λ cs, tls.Name cs = name) suites) with
    | Some cs => Some (tls.ID cs)
    | None => m !! name
    end.
Proof.
  induction suites as [| x suites IH] using rev_ind; intros m name; [done |].
  rewrite fillIdByName_snoc, filter_app.
  destruct (decide (tls.Name x = name)) as [Heq | Hne].
  - rewrite filter_cons_True, filter_nil, last_snoc by done.
    by rewrite <- Heq, lookup_insert_eq.
  - rewrite filter_cons_False, filter_nil, app_nil_r by done.
    by rewrite lookup_insert_ne.
Qed.

Lemma idByName_lookup name :
  idByName !! name
  = tls.ID <$> last (filter (λ cs, tls.Name cs = name) catalog).
Proof.
  rewrite idByName_catalog, fillIdByName_lookup.
  by destruct (last _).
Qed.

(** Every entry of the table comes from a suite of the catalog. *)
Lemma idByName_sound name id :
  idByName !! name = Some id →
  ∃ cs, cs ∈ catalog ∧ tls.Name cs = name ∧ tls.ID cs = id.
Proof.
  rewrite idByName_lookup.
  destruct (last _) as [cs |] eqn:Hlast; [| done].
  intros [= <-]. exists cs.
  apply last_Some_elem_of, list_elem_of_filter in Hlast as [Hname Hin].
  done.
Qed.

(** The table has no entry exactly for the names the catalog does not list. *)
Lemma idByName_None name :
  idByName !! name = None ↔ name ∉ tls.Name <$> catalog.
Proof.
  rewrite idByName_lookup, fmap_None, last_None. split.
  - intros Hnil Hin. apply list_elem_of_fmap in Hin as (cs & -> & Hin).
    by eapply filter_nil_not_elem_of.
  - intros Hnot.
    destruct (filter _ catalog) as [| cs rest] eqn:Hfilter; [done |].
    exfalso. apply Hnot.
    assert (Hcs : cs ∈ filter (λ cs', tls.Name cs' = name) catalog)
      by (rewrite Hfilter; left).
    apply list_elem_of_filter in Hcs as [<- Hcs].
    apply list_elem_of_fmap. by exists cs.
Qed.

(** When the catalog lists a name with one identifier, the table has it. *)
Lemma idByName_listed cs :
  catalogFunctional → cs ∈ catalog → idByName !! tls.Name cs = Some (tls.ID cs).
Proof.
  intros Hfun Hin.
  destruct (idByName !! tls.Name cs) as [id |] eqn:Hlookup.
  - apply idByName_sound in Hlookup as (cs' & Hin' & Hname & <-).
    f_equal. by apply Hfun.
  - apply idByName_None in Hlookup. exfalso. apply Hlookup.
    apply list_elem_of_fmap. by exists cs.
Qed.

Lemma idByName_catalogId name :
  catalogFunctional → idByName !! name = catalogId name.
Proof.
  intros Hfun. unfold catalogId.
  destruct (head _) as [cs |] eqn:Hhead; simpl.
  - apply head_Some_elem_of, list_elem_of_filter in Hhead as [<- Hin].
    by apply idByName_listed.
  - apply head_None in Hhead. rewrite idByName_lookup, Hhead. done.
Qed.

(** The loop over [names] appends to what it has, in input order. *)
Lemma CipherSuiteIds_loop names : ∀ ids,
  foldl (λ ids name,
           match idByName !! name with
           | Some id => ids ++ [id]
           | None => ids
           end) ids names
  = ids ++ omap (λ name, idByName !! name) names.
Proof.
  induction names as [| name names IH]; intros ids; simpl.
  - by rewrite app_nil_r.
  - rewrite IH. destruct (idByName !! name); [| done].
    by rewrite <- app_assoc.
Qed.

Lemma CipherSuiteIds_omap names :
  CipherSuiteIds names = omap (λ name, idByName !! name) names.
Proof. unfold CipherSuiteIds. by rewrite CipherSuiteIds_loop. Qed.

(** C8: CipherSuiteIds is an order-preserving filter-map of its input
    through the table built from the catalog: the result lists, in input
    order, the table entries of the names that have one; an entry is
    always the identifier of a catalog suite of that name, and it is the
    identifier of every catalog suite of that name when the catalog gives
    a name one identifier; exactly the names absent from the catalog have
    no entry and are left out; the result is a list, never an error. *)
Theorem CipherSuiteIds_filter_map :
  (∀ names, CipherSuiteIds names = omap (λ name, idByName !! name) names) ∧
  (∀ name id, idByName !! name = Some id →
     ∃ cs, cs ∈ catalog ∧ tls.Name cs = name ∧ tls.ID cs = id) ∧
  (∀ name, idByName !! name = None ↔ name ∉ tls.Name <$> catalog) ∧
  (∀ name names, name ∉ tls.Name <$> catalog →
     CipherSuiteIds (name :: names) = CipherSuiteIds names) ∧
  (∀ names1 names2,
     CipherSuiteIds (names1 ++ names2)
     = CipherSuiteIds names1 ++ CipherSuiteIds names2) ∧
  (catalogFunctional →
     (∀ cs names, cs ∈ catalog →
        CipherSuiteIds (tls.Name cs :: names) = tls.ID cs :: CipherSuiteIds names) ∧
     (∀ names, CipherSuiteIds names = translate names)).
Proof.
  split; [apply CipherSuiteIds_omap |].
  split; [apply idByName_sound |].
  split; [apply idByName_None |].
  split; [| split; [| intros Hfun; split]].
  - intros name names Hnot. rewrite !CipherSuiteIds_omap. csimpl.
    by rewrite (proj2 (idByName_None name) Hnot).
  - intros names1 names2. rewrite !CipherSuiteIds_omap. apply omap_app.
  - intros cs names Hin. rewrite !CipherSuiteIds_omap. csimpl.
    by rewrite idByName_listed.
  - intros names. rewrite CipherSuiteIds_omap. unfold translate.
    induction names as [| name names IH]; [done |]. csimpl.
    by rewrite IH, idByName_catalogId.
Qed.

(** ** Peer verifier: chain and name *)

Lemma createIntermediatePool_loop rawIntermediates : ∀ pool,
  rangeM (λ pool rawIntermediate,
            match ParseCertificate rawIntermediate with
            | inr err =>
                emit (log.mkEntry log.WarningLevel None
                        ("failed to parse peer intermediate certificate: "
                           +:+ Error err));;
                mret pool
            | inl c => mret (AddCert pool c)
            end) pool rawIntermediates
  = (foldl AddCert pool (parsedIntermediates rawIntermediates),
     parseWarnings rawIntermediates).
Proof.
  unfold parsedIntermediates, parseWarnings.
  induction rawIntermediates as [| raw raws IH]; intros pool; [done |].
  csimpl. unfold mbind, Logged_bind.
  destruct (ParseCertificate raw) as [c | err]; simpl; by rewrite IH.
Qed.

Lemma createIntermediatePool_external rawIntermediates :
  createIntermediatePool true rawIntermediates
  = (Some (foldl AddCert NewCertPool (parsedIntermediates rawIntermediates)),
     parseWarnings rawIntermediates).
Proof.
  unfold createIntermediatePool, mbind, Logged_bind.
  rewrite createIntermediatePool_loop. simpl. by rewrite app_nil_r.
Qed.

Lemma createIntermediatePool_internal rawIntermediates :
  createIntermediatePool false rawIntermediates = (None, []).
Proof. reflexivity. Qed.

(** What verifyPeerCert returns once the leaf parsed, in terms of the
    chain verification it runs. *)
Lemma verifyPeerCert_parsed rawPeer rawIntermediates externallyManaged
    (certPool : option x509_CertPool) usage commonName c :
  ParseCertificate rawPeer = inl c →
  verifyPeerCert (rawPeer :: rawIntermediates) externallyManaged certPool usage
    commonName
  = let '(intermediatePool, warnings) :=
      createIntermediatePool externallyManaged rawIntermediates in
    let fullCommonName := "kubevirt.io:system:" +:+ commonName +:+ ":virt-handler" in
    match Verify c (x509.mkVerifyOptions certPool intermediatePool [usage]) with
    | (_, Some err) =>
        (Some (Errorf ("could not verify peer certificate: " +:+ Error err)), warnings)
    | (_, None) =>
        if negb externallyManaged && bool_decide (CommonName c ≠ fullCommonName)
        then (Some (Errorf ("common name is invalid, expected " +:+ fullCommonName
                              +:+ ", but got " +:+ CommonName c)), warnings)
        else (None, warnings)
    end.
Proof.
  intros Hparse. unfold verifyPeerCert. rewrite Hparse.
  unfold mbind, Logged_bind.
  destruct (createIntermediatePool externallyManaged rawIntermediates)
    as [intermediatePool warnings].
  destruct (Verify c _) as [chains [err |]]; simpl.
  - by rewrite app_nil_r.
  - destruct (negb externallyManaged && _); simpl; by rewrite app_nil_r.
Qed.

(** C2: for a chain whose leaf parses and verifies against the trust pool,
    the internally-managed verifier accepts exactly when the leaf's common
    name is "kubevirt.io:system:<role>:virt-handler" for the role passed,
    and otherwise fails with the name-mismatch error although the chain
    verified. *)
Theorem verifyPeerCert_internal_common_name rawPeer rawIntermediates
    (certPool : option x509_CertPool) usage role c chains :
  ParseCertificate rawPeer = inl c →
  Verify c (x509.mkVerifyOptions certPool None [usage]) = (chains, None) →
  let expected := "kubevirt.io:system:" +:+ role +:+ ":virt-handler" in
  (CommonName c = expected →
     verifyPeerCert (rawPeer :: rawIntermediates) false certPool usage role
     = (None, [])) ∧
  (CommonName c ≠ expected →
     verifyPeerCert (rawPeer :: rawIntermediates) false certPool usage role
     = (Some (Errorf ("common name is invalid, expected " +:+ expected
                        +:+ ", but got " +:+ CommonName c)), [])).
Proof.
  intros Hparse Hverify expected.
  rewrite (verifyPeerCert_parsed _ _ _ _ _ _ _ Hparse).
  rewrite createIntermediatePool_internal, Hverify. simpl. fold expected.
  split; intros Hname.
  - by rewrite bool_decide_eq_false_2 by (by intros []).
  - by rewrite bool_decide_eq_true_2.
Qed.

(** C3: in externally-managed mode the intermediate pool holds the
    presented entries after the first that parse, in order, with one
    warning for each that does not; the leaf is verified against the trust
    pool through that pool; no common name is compared, so a leaf of any
    common name is accepted when that verification succeeds and rejected
    when it fails. In internally-managed mode no pool is built. *)
Theorem verifyPeerCert_externally_managed rawPeer rawIntermediates
    (certPool : option x509_CertPool) usage role :
  let pool := foldl AddCert NewCertPool (parsedIntermediates rawIntermediates) in
  createIntermediatePool true rawIntermediates
  = (Some pool, parseWarnings rawIntermediates) ∧
  createIntermediatePool false rawIntermediates = (None, []) ∧
  ∀ c, ParseCertificate rawPeer = inl c →
    (∀ chains,
       Verify c (x509.mkVerifyOptions certPool (Some pool) [usage]) = (chains, None) →
       verifyPeerCert (rawPeer :: rawIntermediates) true certPool usage role
       = (None, parseWarnings rawIntermediates)) ∧
    (∀ chains err,
       Verify c (x509.mkVerifyOptions certPool (Some pool) [usage])
       = (chains, Some err) →
       verifyPeerCert (rawPeer :: rawIntermediates) true certPool usage role
       = (Some (Errorf ("could not verify peer certificate: " +:+ Error err)),
          parseWarnings rawIntermediates)).
Proof.
  intros pool. split; [apply createIntermediatePool_external |].
  split; [reflexivity |].
  intros c Hparse.
  rewrite (verifyPeerCert_parsed _ _ _ _ _ _ _ Hparse).
  rewrite createIntermediatePool_external. fold pool.
  split; [intros chains Hverify | intros chains err Hverify]; by rewrite Hverify.
Qed.

(** C10: in internally-managed mode chain verification gets no
    intermediate pool, so the entries presented after the leaf do not
    influence the outcome; a leaf that does not verify against the trust
    pool alone is rejected, whatever intermediates come with it. *)
Theorem verifyPeerCert_internal_ignores_intermediates rawPeer rawIntermediates
    (certPool : option x509_CertPool) usage role :
  createIntermediatePool false rawIntermediates = (None, []) ∧
  verifyPeerCert (rawPeer :: rawIntermediates) false certPool usage role
  = verifyPeerCert [rawPeer] false certPool usage role ∧
  ∀ c chains err,
    ParseCertificate rawPeer = inl c →
    Verify c (x509.mkVerifyOptions certPool None [usage]) = (chains, Some err) →
    verifyPeerCert (rawPeer :: rawIntermediates) false certPool usage role
    = (Some (Errorf ("could not verify peer certificate: " +:+ Error err)), []).
Proof.
  split; [reflexivity |]. split.
  - unfold verifyPeerCert. by destruct (ParseCertificate rawPeer).
  - intros c chains err Hparse Hverify.
    rewrite (verifyPeerCert_parsed _ _ _ _ _ _ _ Hparse).
    by rewrite createIntermediatePool_internal, Hverify.
Qed.

(** ** Configuration builders *)

Lemma noSrvCertMessage_not_ready : carries "server is not yet ready" noSrvCertMessage.
Proof. by exists "No server certificate, ", " to receive traffic". Qed.

(** C4: the per-client callback of the peer-role server configuration
    hands back the trust accessor's error, and no configuration, when the
    accessor fails; when the accessor yields no pool and no error it
    refuses as well, with a not-ready error of its own that differs from
    the one for a missing server certificate. *)
Theorem virtHandlerServer_refuses_without_trust caManager certManager
    externallyManaged clusterConfig :
  ∃ getConfigForClient,
    GetConfigForClient (SetupTLSForVirtHandlerServer caManager certManager
                          externallyManaged clusterConfig)
    = Some getConfigForClient ∧
    ∀ info w,
      (∀ certPool err, GetCurrent caManager w = (certPool, Some err) →
         getConfigForClient info w
         = ((None, Some err),
            [log.mkEntry log.ErrorLevel (Some err) "Failed to get kubevirt CA"])) ∧
      (GetCurrent caManager w = (None, None) →
         ∃ notReady,
           getConfigForClient info w = ((None, Some notReady), []) ∧
           notReady ≠ Errorf noSrvCertMessage ∧
           carries "server is not yet ready" (Error notReady)).
Proof.
  eexists. split; [reflexivity |].
  intros info w. split.
  - by intros [certPool |] err ->.
  - intros ->. eexists. split; [reflexivity |]. split; [discriminate |].
    by exists "No ca certificate, ", " to receive traffic".
Qed.

(** C5: in the configuration each of the four builders returns, the
    certificate-selection callback fails with the "server is not yet
    ready" error while the identity accessor has no certificate, hands out
    the current certificate otherwise, and never returns no certificate
    together with no error. *)
Theorem builders_not_ready_certificate caManager certManager clientAuth
    externallyManaged clusterConfig :
  carries "server is not yet ready" noSrvCertMessage ∧
  selectsCurrentOrNotReady certManager (SetupPromTLS certManager clusterConfig) ∧
  selectsCurrentOrNotReady certManager
    (SetupTLSWithCertManager caManager certManager clientAuth clusterConfig) ∧
  selectsCurrentOrNotReady certManager
    (SetupTLSForVirtHandlerServer caManager certManager externallyManaged
       clusterConfig) ∧
  selectsCurrentOrNotReady certManager
    (SetupTLSForVirtHandlerClients caManager certManager externallyManaged).
Proof.
  split; [apply noSrvCertMessage_not_ready |].
  repeat split;
    (eexists; split; [reflexivity |];
     intros info w; repeat split;
     [ by intros ->
     | by intros cert ->
     | by destruct (Current certManager w) ]).
Qed.

(** C1, as the code has it: the peer-role client builder returns a
    configuration with built-in verification off and the peer verifier,
    usage server-authentication and role "node", installed on it. The
    peer-role server builder returns a configuration with built-in
    verification off and no peer-verification callback of its own, whose
    per-client callback is always installed. On every call on which the
    trust accessor gives a pool without error and the identity accessor
    gives a certificate, that callback yields a configuration with
    built-in verification off, a client certificate required, that trust
    pool and the peer verifier, usage client-authentication and role
    "client", installed; on every other call it refuses with an error and
    no configuration. *)
Theorem peer_role_verifier_installed caManager certManager externallyManaged
    clusterConfig :
  installsVerifier caManager externallyManaged x509.ExtKeyUsageServerAuth "node"
    (SetupTLSForVirtHandlerClients caManager certManager externallyManaged) ∧
  InsecureSkipVerify (SetupTLSForVirtHandlerServer caManager certManager
                        externallyManaged clusterConfig) = true ∧
  VerifyPeerCertificate (SetupTLSForVirtHandlerServer caManager certManager
                           externallyManaged clusterConfig) = None ∧
  ∃ getConfigForClient,
    GetConfigForClient (SetupTLSForVirtHandlerServer caManager certManager
                          externallyManaged clusterConfig)
    = Some getConfigForClient ∧
    ∀ info w,
      (∀ certPool cert,
         GetCurrent caManager w = (Some certPool, None) →
         Current certManager w = Some cert →
         ∃ config callback,
           fst (getConfigForClient info w) = (Some config, None) ∧
           ClientCAs config = Some certPool ∧
           InsecureSkipVerify config = true ∧
           ClientAuth config = tls.RequireAndVerifyClientCert ∧
           GetConfigForClient config = None ∧
           VerifyPeerCertificate config = Some callback ∧
           ∀ rawCerts verifiedChains w',
             callback rawCerts verifiedChains w'
             = verifyPeerCert rawCerts externallyManaged (Some certPool)
                 x509.ExtKeyUsageClientAuth "client") ∧
      ((∀ certPool, GetCurrent caManager w ≠ (Some certPool, None))
       ∨ Current certManager w = None →
       ∃ err, fst (getConfigForClient info w) = (None, Some err)).
Proof.
  split; [| split; [reflexivity |]; split; [reflexivity |]].
  - split; [reflexivity |]. eexists. split; [reflexivity |].
    intros rawCerts verifiedChains w certPool Htrust. simpl. by rewrite Htrust.
  - eexists. split; [reflexivity |].
    intros info w. split.
    + intros certPool cert Htrust Hleaf. simpl. rewrite Htrust, Hleaf.
      by eexists _, _.
    + intros Hmissing. simpl.
      destruct (GetCurrent caManager w) as [[certPool |] [err |]] eqn:Htrust;
        try by eexists.
      destruct Hmissing as [Hpool | Hleaf]; [by destruct (Hpool certPool) |].
      rewrite Hleaf. by eexists.
Qed.

End properties.

(** * The properties on the small runtime *)

Lemma getTLSConfiguration_default_witness :
  getTLSConfiguration Fixture.clusterConfig Fixture.ready
  = v1.mkTLSConfiguration "VersionTLS12" [] ∧
  getTLSConfiguration Fixture.clusterConfig Fixture.withoutPolicy
  = v1.mkTLSConfiguration "VersionTLS12" [] ∧
  getTLSConfiguration Fixture.clusterConfig Fixture.withPolicy = Fixture.policy.
Proof.
  split; [| split].
  - destruct (getTLSConfiguration_default Fixture.clusterConfig Fixture.ready)
      as (Habsent & _).
    by apply Habsent.
  - destruct (getTLSConfiguration_default Fixture.clusterConfig Fixture.withoutPolicy)
      as (_ & Hbare & _).
    by eapply Hbare.
  - destruct (getTLSConfiguration_default Fixture.clusterConfig Fixture.withPolicy)
      as (_ & _ & Hset & _).
    by eapply Hset.
Defined.

Lemma Fixture_catalogFunctional : @catalogFunctional Fixture.runtime.
Proof.
  assert (Hall : Forall (λ a, Forall (λ b, tls.Name a = tls.Name b → tls.ID a = tls.ID b)
                                (@catalog Fixture.runtime))
                   (@catalog Fixture.runtime)).
  { apply (bool_decide_unpack _). by vm_compute. }
  intros a b Ha Hb.
  rewrite Forall_forall in Hall. specialize (Hall a Ha).
  rewrite Forall_forall in Hall. exact (Hall b Hb).
Defined.

Lemma CipherSuiteIds_filter_map_witness :
  @catalogFunctional Fixture.runtime ∧
  @CipherSuiteIds Fixture.runtime (v1.Ciphers Fixture.policy) = [0x1301; 0x0005] ∧
  @CipherSuiteIds Fixture.runtime
    ["TLS_RSA_WITH_RC4_128_SHA"; "tls_aes_128_gcm_sha256"; "TLS_AES_128_GCM_SHA256"]
  = [0x0005; 0x1301].
Proof.
  split; [exact Fixture_catalogFunctional |].
  split.
  - destruct (@CipherSuiteIds_filter_map Fixture.runtime)
      as (_ & _ & _ & _ & _ & Hlisted).
    destruct (Hlisted Fixture_catalogFunctional) as [_ Htranslate].
    rewrite Htranslate. reflexivity.
  - destruct (@CipherSuiteIds_filter_map Fixture.runtime)
      as (_ & _ & _ & Hdropped & _ & Hlisted).
    destruct (Hlisted Fixture_catalogFunctional) as [Hkept _].
    rewrite (Hkept (tls.mkCipherSuite 0x0005 "TLS_RSA_WITH_RC4_128_SHA"
                      [tls.VersionTLS10; tls.VersionTLS11; tls.VersionTLS12] true))
      by (vm_compute; repeat first [left | right]).
    rewrite Hdropped; [reflexivity |].
    intros Hin. vm_compute in Hin.
    repeat (apply elem_of_cons in Hin as [Heq | Hin]; [discriminate Heq |]).
    by apply elem_of_nil in Hin.
Defined.

Lemma verifyPeerCert_internal_common_name_witness :
  @verifyPeerCert Fixture.runtime [Fixture.rawStranger; Fixture.rawIntermediate] false
    (Some [Fixture.rootCA]) x509.ExtKeyUsageClientAuth "client"
  = (Some (Errorf ("common name is invalid, expected "
                     +:+ "kubevirt.io:system:client:virt-handler"
                     +:+ ", but got " +:+ "somebody-else")), []) ∧
  @verifyPeerCert Fixture.runtime [Fixture.rawHandlerNode] false
    (Some [Fixture.rootCA]) x509.ExtKeyUsageServerAuth "node"
  = (None, []).
Proof.
  split.
  - edestruct (@verifyPeerCert_internal_common_name Fixture.runtime
                 Fixture.rawStranger [Fixture.rawIntermediate] (Some [Fixture.rootCA])
                 x509.ExtKeyUsageClientAuth "client") as [_ Hdiffers];
      [reflexivity | reflexivity |].
    apply Hdiffers. discriminate.
  - edestruct (@verifyPeerCert_internal_common_name Fixture.runtime
                 Fixture.rawHandlerNode [] (Some [Fixture.rootCA])
                 x509.ExtKeyUsageServerAuth "node") as [Hsame _];
      [reflexivity | reflexivity |].
    apply Hsame. reflexivity.
Defined.

Lemma verifyPeerCert_externally_managed_witness :
  @createIntermediatePool Fixture.runtime true
    [Fixture.rawGarbage; Fixture.rawIntermediate]
  = (Some [Fixture.mkCert "sub-ca" "I" "R" []],
     [log.mkEntry log.WarningLevel None
        "failed to parse peer intermediate certificate: x509: malformed certificate"]) ∧
  @verifyPeerCert Fixture.runtime
    [Fixture.rawForeignLeaf; Fixture.rawGarbage; Fixture.rawIntermediate] true
    (Some [Fixture.rootCA]) x509.ExtKeyUsageClientAuth "client"
  = (None,
     [log.mkEntry log.WarningLevel None
        "failed to parse peer intermediate certificate: x509: malformed certificate"]) ∧
  @verifyPeerCert Fixture.runtime [Fixture.rawForeignLeaf; Fixture.rawGarbage] true
    (Some [Fixture.rootCA]) x509.ExtKeyUsageClientAuth "client"
  = (Some (Errorf ("could not verify peer certificate: "
                     +:+ "x509: certificate signed by unknown authority")),
     [log.mkEntry log.WarningLevel None
        "failed to parse peer intermediate certificate: x509: malformed certificate"]).
Proof.
  split; [| split].
  - exact (proj1 (@verifyPeerCert_externally_managed Fixture.runtime
                    Fixture.rawForeignLeaf [Fixture.rawGarbage; Fixture.rawIntermediate]
                    (Some [Fixture.rootCA]) x509.ExtKeyUsageClientAuth "client")).
  - destruct (@verifyPeerCert_externally_managed Fixture.runtime
                Fixture.rawForeignLeaf [Fixture.rawGarbage; Fixture.rawIntermediate]
                (Some [Fixture.rootCA]) x509.ExtKeyUsageClientAuth "client")
      as (_ & _ & Hleaf).
    edestruct Hleaf as [Haccepted _]; [reflexivity |].
    eapply Haccepted. reflexivity.
  - destruct (@verifyPeerCert_externally_managed Fixture.runtime
                Fixture.rawForeignLeaf [Fixture.rawGarbage]
                (Some [Fixture.rootCA]) x509.ExtKeyUsageClientAuth "client")
      as (_ & _ & Hleaf).
    edestruct Hleaf as [_ Hrejected]; [reflexivity |].
    apply (Hrejected [] (errorString "x509: certificate signed by unknown authority")).
    reflexivity.
Defined.

Lemma verifyPeerCert_internal_ignores_intermediates_witness :
  @verifyPeerCert Fixture.runtime [Fixture.rawForeignLeaf; Fixture.rawIntermediate]
    false (Some [Fixture.rootCA]) x509.ExtKeyUsageClientAuth "client"
  = (Some (Errorf ("could not verify peer certificate: "
                     +:+ "x509: certificate signed by unknown authority")), []) ∧
  @verifyPeerCert Fixture.runtime [Fixture.rawForeignLeaf; Fixture.rawIntermediate]
    true (Some [Fixture.rootCA]) x509.ExtKeyUsageClientAuth "client"
  = (None, []).
Proof.
  split; [| reflexivity].
  destruct (@verifyPeerCert_internal_ignores_intermediates Fixture.runtime
              Fixture.rawForeignLeaf [Fixture.rawIntermediate]
              (Some [Fixture.rootCA]) x509.ExtKeyUsageClientAuth "client")
    as (_ & _ & Hrejected).
  eapply (Hrejected _ [] (errorString "x509: certificate signed by unknown authority"));
    reflexivity.
Defined.

Lemma virtHandlerServer_refuses_without_trust_witness :
  ∃ getConfigForClient,
    GetConfigForClient (SetupTLSForVirtHandlerServer Fixture.caManager
                          Fixture.certManager false Fixture.clusterConfig)
    = Some getConfigForClient ∧
    getConfigForClient Fixture.hello Fixture.trustError
    = ((None, Some (errorString "informer not synced")),
       [log.mkEntry log.ErrorLevel (Some (errorString "informer not synced"))
          "Failed to get kubevirt CA"]) ∧
    ∃ notReady,
      getConfigForClient Fixture.hello Fixture.noTrust = ((None, Some notReady), []) ∧
      notReady ≠ Errorf noSrvCertMessage ∧
      carries "server is not yet ready" (Error notReady).
Proof.
  destruct (virtHandlerServer_refuses_without_trust Fixture.caManager
              Fixture.certManager false Fixture.clusterConfig)
    as (getConfigForClient & Hinstalled & Hrefuses).
  exists getConfigForClient. split; [exact Hinstalled |]. split.
  - eapply (proj1 (Hrefuses Fixture.hello Fixture.trustError)). reflexivity.
  - apply (proj2 (Hrefuses Fixture.hello Fixture.noTrust)). reflexivity.
Defined.

Lemma builders_not_ready_certificate_witness :
  ∃ getCertificate,
    GetCertificate (SetupTLSForVirtHandlerClients Fixture.caManager
                      Fixture.certManager false)
    = Some getCertificate ∧
    getCertificate Fixture.hello Fixture.noLeaf
    = ((None, Some (Errorf noSrvCertMessage)), []) ∧
    getCertificate Fixture.hello Fixture.ready = ((Some "handler-leaf", None), []).
Proof.
  destruct (builders_not_ready_certificate Fixture.caManager Fixture.certManager
              tls.NoClientCert false Fixture.clusterConfig)
    as (_ & _ & _ & _ & getCertificate & Hinstalled & Hselects).
  exists getCertificate. split; [exact Hinstalled |]. split.
  - apply (Hselects Fixture.hello Fixture.noLeaf). reflexivity.
  - apply (Hselects Fixture.hello Fixture.ready). reflexivity.
Defined.

(** C1, as stated, fails on the peer-role server builder: the
    configuration it returns has built-in verification off and no
    peer-verification callback of its own. *)
Lemma virtHandlerServer_returns_no_verifier :
  let config := SetupTLSForVirtHandlerServer Fixture.caManager Fixture.certManager
                  false Fixture.clusterConfig in
  InsecureSkipVerify config = true ∧
  VerifyPeerCertificate config = None ∧
  ¬ installsVerifier Fixture.caManager false x509.ExtKeyUsageClientAuth "client"
      config.
Proof.
  split; [reflexivity |]. split; [reflexivity |].
  intros [_ (callback & Hcallback & _)]. discriminate Hcallback.
Qed.

Lemma peer_role_verifier_installed_witness :
  (∃ callback,
     VerifyPeerCertificate (SetupTLSForVirtHandlerClients Fixture.caManager
                              Fixture.certManager false)
     = Some callback ∧
     callback [Fixture.rawHandlerNode] [] Fixture.ready = (None, [])) ∧
  (∃ getConfigForClient,
     GetConfigForClient (SetupTLSForVirtHandlerServer Fixture.caManager
                           Fixture.certManager false Fixture.clusterConfig)
     = Some getConfigForClient ∧
     (∃ config callback,
        fst (getConfigForClient Fixture.hello Fixture.ready) = (Some config, None) ∧
        InsecureSkipVerify config = true ∧
        VerifyPeerCertificate config = Some callback ∧
        callback [Fixture.rawHandlerClient] [] Fixture.noTrust = (None, []) ∧
        fst (callback [Fixture.rawHandlerNode] [] Fixture.noTrust) ≠ None) ∧
     (∃ err, fst (getConfigForClient Fixture.hello Fixture.noLeaf)
             = (None, Some err))).
Proof.
  destruct (peer_role_verifier_installed Fixture.caManager Fixture.certManager
              false Fixture.clusterConfig)
    as ((_ & callback & Hclient & Hverifier) & _ & _ & getConfigForClient
        & Hserver & Hconfigs).
  split.
  - exists callback. split; [exact Hclient |].
    rewrite (Hverifier _ _ Fixture.ready (Some [Fixture.rootCA])); reflexivity.
  - exists getConfigForClient. split; [exact Hserver |]. split.
    + destruct (proj1 (Hconfigs Fixture.hello Fixture.ready)
                  [Fixture.rootCA] "handler-leaf" eq_refl eq_refl)
        as (config & verifier & Hconfig & _ & Hskip & _ & _ & Hverifier'
            & Hcalls).
      exists config, verifier. split; [exact Hconfig |]. split; [exact Hskip |].
      split; [exact Hverifier' |]. rewrite !Hcalls. split; [reflexivity |].
      discriminate.
    + apply (proj2 (Hconfigs Fixture.hello Fixture.noLeaf)). by right.
Defined.

(** * Further properties of the webhooks package *)

Lemma string_length_app (s t : string) :
  String.length (s +:+ t) = (String.length s + String.length t)%nat.
Proof. induction s as [| a s IH]; simpl; [done | by rewrite IH]. Qed.

Lemma string_app_inj_r (s1 s2 t : string) : s1 +:+ t = s2 +:+ t → s1 = s2.
Proof.
  revert s2. induction s1 as [| a s1 IH]; intros [| b s2] Heq; simpl in Heq.
  - done.
  - apply (f_equal String.length) in Heq. simpl in Heq.
    rewrite !string_length_app in Heq. simpl in Heq. lia.
  - apply (f_equal String.length) in Heq. simpl in Heq.
    rewrite !string_length_app in Heq. simpl in Heq. lia.
  - injection Heq as -> Heq. f_equal. by apply IH.
Qed.

Lemma expectedCommonName_inj role1 role2 :
  expectedCommonName role1 = expectedCommonName role2 → role1 = role2.
Proof.
  unfold expectedCommonName. intros Heq.
  apply (inj (String.app "kubevirt.io:system:")) in Heq.
  by apply string_app_inj_r in Heq.
Qed.

Section further_properties.

Context `{RT : Runtime} {World : Type}.

Implicit Types (caManager : @ClientCAManager RT World).
Implicit Types (certManager : @Manager RT World).
Implicit Types (clusterConfig : @ClusterConfig World).
Implicit Types (w : World).

(** ** Peer verifier *)

(** X1: a leaf that does not parse is rejected with the parse error, in
    both modes and whatever follows it in the chain; chain verification is
    not reached and nothing is logged, not even for intermediates that do
    not parse either. *)
Theorem verifyPeerCert_unparsable_leaf rawPeer rawIntermediates externallyManaged
    (certPool : option x509_CertPool) usage role err :
  ParseCertificate rawPeer = inr err →
  verifyPeerCert (rawPeer :: rawIntermediates) externallyManaged certPool usage role
  = (Some (Errorf ("failed to parse peer certificate: " +:+ Error err)), []).
Proof. intros Hparse. unfold verifyPeerCert. by rewrite Hparse. Qed.

(** What an accepted chain went through. *)
Lemma verifyPeerCert_accepts_inv rawCerts externallyManaged
    (certPool : option x509_CertPool) usage role :
  fst (verifyPeerCert rawCerts externallyManaged certPool usage role) = None →
  ∃ rawPeer rawIntermediates c,
    rawCerts = rawPeer :: rawIntermediates ∧
    ParseCertificate rawPeer = inl c ∧
    snd (Verify c (x509.mkVerifyOptions certPool
                     (fst (createIntermediatePool externallyManaged rawIntermediates))
                     [usage])) = None ∧
    (externallyManaged = true ∨ CommonName c = expectedCommonName role).
Proof.
  destruct rawCerts as [| rawPeer rawIntermediates]; [done |].
  destruct (ParseCertificate rawPeer) as [c | err] eqn:Hparse.
  - rewrite (verifyPeerCert_parsed _ _ _ _ _ _ _ Hparse).
    intros Haccept. exists rawPeer, rawIntermediates, c.
    split; [done |]. split; [done |].
    destruct (createIntermediatePool externallyManaged rawIntermediates)
      as [intermediatePool warnings]. simpl in *.
    destruct (Verify c _) as [chains [err |]]; [done |].
    split; [done |].
    destruct externallyManaged; [by left | right]. simpl in Haccept.
    unfold expectedCommonName.
    destruct (decide (CommonName c
                      = "kubevirt.io:system:" +:+ role +:+ ":virt-handler"))
      as [Hname | Hname]; [done |].
    by rewrite bool_decide_eq_true_2 in Haccept.
  - unfold verifyPeerCert. by rewrite Hparse.
Qed.

(** X2: verifyPeerCert accepts exactly when every check passes: a leaf was
    presented, it parses, it verifies against the trust pool for the one
    required usage through the intermediate pool of the mode, and, unless
    certificates are externally managed, its common name is the one
    expected for the role. *)
Theorem verifyPeerCert_accepts_iff rawCerts externallyManaged
    (certPool : option x509_CertPool) usage role :
  fst (verifyPeerCert rawCerts externallyManaged certPool usage role) = None ↔
  ∃ rawPeer rawIntermediates c,
    rawCerts = rawPeer :: rawIntermediates ∧
    ParseCertificate rawPeer = inl c ∧
    snd (Verify c (x509.mkVerifyOptions certPool
                     (fst (createIntermediatePool externallyManaged rawIntermediates))
                     [usage])) = None ∧
    (externallyManaged = true ∨ CommonName c = expectedCommonName role).
Proof.
  split; [apply verifyPeerCert_accepts_inv |].
  intros (rawPeer & rawIntermediates & c & -> & Hparse & Hverify & Hname).
  rewrite (verifyPeerCert_parsed _ _ _ _ _ _ _ Hparse).
  destruct (createIntermediatePool externallyManaged rawIntermediates)
    as [intermediatePool warnings]. simpl in *.
  destruct (Verify c _) as [chains [err |]]; [done |].
  destruct Hname as [-> | Hname]; [done |].
  unfold expectedCommonName in Hname.
  rewrite bool_decide_eq_false_2 by (by intros []).
  by rewrite andb_false_r.
Qed.

(** X3: in internally-managed mode one chain is accepted for one role at
    most: if it is accepted for two roles, whatever the trust pools and
    usages of the two checks, the roles are the same. A certificate issued
    to the "node" role never passes the "client" check. *)
Theorem verifyPeerCert_internal_one_role rawCerts
    (certPool1 certPool2 : option x509_CertPool) usage1 usage2 role1 role2 :
  fst (verifyPeerCert rawCerts false certPool1 usage1 role1) = None →
  fst (verifyPeerCert rawCerts false certPool2 usage2 role2) = None →
  role1 = role2.
Proof.
  intros Hfirst Hsecond.
  apply verifyPeerCert_accepts_inv in Hfirst
    as (rawPeer & ints & c & -> & Hparse & _ & [? | Hname1]); [done |].
  apply verifyPeerCert_accepts_inv in Hsecond
    as (rawPeer' & ints' & c' & [= <- <-] & Hparse' & _ & [? | Hname2]); [done |].
  rewrite Hparse in Hparse'. injection Hparse' as <-.
  apply expectedCommonName_inj. by rewrite <- Hname1.
Qed.

Lemma parse_accounting rawIntermediates :
  (length (parsedIntermediates rawIntermediates)
   + length (parseWarnings rawIntermediates) = length rawIntermediates)%nat.
Proof.
  unfold parsedIntermediates, parseWarnings.
  induction rawIntermediates as [| raw raws IH]; csimpl; [done |].
  destruct (ParseCertificate raw); csimpl; simpl; lia.
Qed.

(** X4: in externally-managed mode createIntermediatePool accounts for
    every presented intermediate once: the pool it returns is the empty
    pool with the intermediates that parse added in the order presented,
    each of the others is answered by one warning in its log, so the
    number added and the number of warnings add up to the number
    presented, and the log is empty exactly when all parse. *)
Theorem createIntermediatePool_accounts rawIntermediates :
  fst (createIntermediatePool true rawIntermediates)
  = Some (foldl AddCert NewCertPool (parsedIntermediates rawIntermediates)) ∧
  (length (parsedIntermediates rawIntermediates)
   + length (snd (createIntermediatePool true rawIntermediates))
   = length rawIntermediates)%nat ∧
  (snd (createIntermediatePool true rawIntermediates) = [] ↔
   ∀ raw, raw ∈ rawIntermediates → ∃ c, ParseCertificate raw = inl c).
Proof.
  rewrite createIntermediatePool_external. cbn [fst snd].
  split; [reflexivity |]. split; [apply parse_accounting |].
  unfold parseWarnings.
  induction rawIntermediates as [| raw raws IH]; csimpl.
  - split; [| done]. intros _ raw Hin. by apply elem_of_nil in Hin.
  - destruct (ParseCertificate raw) as [c | err] eqn:Hparse; csimpl.
    + rewrite IH. split.
      * intros Hall raw' Hin. apply elem_of_cons in Hin as [-> | Hin]; eauto.
      * intros Hall raw' Hin. apply Hall. by right.
    + split; [done |].
      intros Hall. destruct (Hall raw) as [c Hc]; [left |]. congruence.
Qed.

(** Once the leaf parsed, the log is the one of the intermediate pool. *)
Lemma verifyPeerCert_parsed_log rawPeer rawIntermediates externallyManaged
    (certPool : option x509_CertPool) usage role c :
  ParseCertificate rawPeer = inl c →
  snd (verifyPeerCert (rawPeer :: rawIntermediates) externallyManaged certPool
         usage role)
  = snd (createIntermediatePool externallyManaged rawIntermediates).
Proof.
  intros Hparse. rewrite (verifyPeerCert_parsed _ _ _ _ _ _ _ Hparse).
  destruct (createIntermediatePool externallyManaged rawIntermediates)
    as [intermediatePool warnings]. simpl.
  destruct (Verify c _) as [chains [err |]]; [done |].
  by destruct (negb externallyManaged && _).
Qed.

(** X5: verifyPeerCert logs nothing in internally-managed mode, and in
    externally-managed mode only warnings, at most one for each presented
    intermediate. *)
Theorem verifyPeerCert_log rawCerts externallyManaged
    (certPool : option x509_CertPool) usage role :
  (externallyManaged = false →
     snd (verifyPeerCert rawCerts externallyManaged certPool usage role) = []) ∧
  (∀ entry,
     entry ∈ snd (verifyPeerCert rawCerts externallyManaged certPool usage role) →
     log.level entry = log.WarningLevel) ∧
  (length (snd (verifyPeerCert rawCerts externallyManaged certPool usage role))
   ≤ length rawCerts - 1)%nat.
Proof.
  destruct rawCerts as [| rawPeer rawIntermediates].
  { split; [done |]. split; [| simpl; lia].
    intros entry Hin. by apply elem_of_nil in Hin. }
  destruct (ParseCertificate rawPeer) as [c | err] eqn:Hparse.
  2:{ unfold verifyPeerCert. rewrite Hparse. simpl.
      split; [done |]. split; [| lia].
      intros entry Hin. by apply elem_of_nil in Hin. }
  rewrite (verifyPeerCert_parsed_log _ _ _ _ _ _ _ Hparse).
  destruct externallyManaged.
  - rewrite createIntermediatePool_external. simpl.
    split; [done |]. split.
    + unfold parseWarnings. intros entry Hin.
      apply list_elem_of_omap in Hin as (raw & _ & Hentry).
      destruct (ParseCertificate raw); [done |]. by injection Hentry as <-.
    + pose proof (parse_accounting rawIntermediates) as Hlen.
      lia.
  - simpl. split; [done |]. split; [| lia].
    intros entry Hin. by apply elem_of_nil in Hin.
Qed.

(** ** Version mapper and cipher name translator *)

(** X6: TlsVersion never leaves the range of TLS 1.0 to TLS 1.3, and a
    version other than 1.2 is returned for its own label only: a floor
    below 1.2 is in force only when the policy asks for it by name. *)
Theorem TlsVersion_floor (version : v1.TLSProtocolVersion) :
  tls.VersionTLS10 ≤ TlsVersion version ≤ tls.VersionTLS13 ∧
  (TlsVersion version = tls.VersionTLS10 ↔ version = v1.VersionTLS10) ∧
  (TlsVersion version = tls.VersionTLS11 ↔ version = v1.VersionTLS11) ∧
  (TlsVersion version = tls.VersionTLS13 ↔ version = v1.VersionTLS13).
Proof.
  unfold TlsVersion.
  repeat case_decide; subst;
    (split; [by vm_compute |]); repeat split; intros; try done.
Qed.

(** X7: CipherSuiteIds never invents an identifier and never grows its
    input: every identifier returned belongs to a catalog suite whose name
    was asked for; the result is empty exactly when no name asked for is
    in the catalog, and as long as the input exactly when all are. *)
Theorem CipherSuiteIds_within_catalog names :
  (∀ id, id ∈ CipherSuiteIds names →
     ∃ cs, cs ∈ catalog ∧ tls.Name cs ∈ names ∧ tls.ID cs = id) ∧
  (length (CipherSuiteIds names) ≤ length names)%nat ∧
  (CipherSuiteIds names = [] ↔
     ∀ name, name ∈ names → name ∉ tls.Name <$> catalog) ∧
  (length (CipherSuiteIds names) = length names ↔
     ∀ name, name ∈ names → name ∈ tls.Name <$> catalog).
Proof.
  rewrite CipherSuiteIds_omap. split.
  { intros id Hin. apply list_elem_of_omap in Hin as (name & Hname & Hlookup).
    apply idByName_sound in Hlookup as (cs & Hcs & <- & <-). by exists cs. }
  induction names as [| name names (IHlen & IHnil & IHfull)]; csimpl.
  { split; [done |]. split; split; try done.
    - intros _ name Hin. by apply elem_of_nil in Hin.
    - intros _ name Hin. by apply elem_of_nil in Hin. }
  destruct (idByName !! name) as [id |] eqn:Hlookup; simpl.
  - assert (Hlisted : name ∈ tls.Name <$> catalog).
    { destruct (decide (name ∈ tls.Name <$> catalog)) as [| Hnot]; [done |].
      apply idByName_None in Hnot. congruence. }
    split; [lia |]. split; split.
    + done.
    + intros Hall. exfalso. apply (Hall name); [left | done].
    + intros [= Hlen]. pose proof (proj1 IHfull Hlen) as Hrest.
      intros name' Hin. apply elem_of_cons in Hin as [-> | Hin]; auto.
    + intros Hall. f_equal. apply IHfull. intros name' Hin. apply Hall. by right.
  - apply idByName_None in Hlookup.
    split; [lia |]. split; split.
    + intros Hnil name' Hin. apply elem_of_cons in Hin as [-> | Hin]; [done |].
      by apply IHnil.
    + intros Hall. apply IHnil. intros name' Hin. apply Hall. by right.
    + lia.
    + intros Hall. exfalso. apply Hlookup, Hall. left.
Qed.

(** ** Peer-role builders *)

(** X8: the verification callback of the peer-role client configuration
    rejects every chain with the trust accessor's own error, logged once,
    when the accessor fails. When the accessor yields no pool and no error
    it does not refuse, unlike the server side: it runs the peer verifier
    with no root pool. *)
Theorem virtHandlerClients_trust_unavailable caManager certManager externallyManaged :
  ∃ callback,
    VerifyPeerCertificate (SetupTLSForVirtHandlerClients caManager certManager
                             externallyManaged) = Some callback ∧
    ∀ rawCerts verifiedChains w,
      (∀ certPool err, GetCurrent caManager w = (certPool, Some err) →
         callback rawCerts verifiedChains w
         = (Some err,
            [log.mkEntry log.ErrorLevel (Some err) "Failed to get kubevirt CA"])) ∧
      (GetCurrent caManager w = (None, None) →
         callback rawCerts verifiedChains w
         = verifyPeerCert rawCerts externallyManaged None
             x509.ExtKeyUsageServerAuth "node").
Proof.
  eexists. split; [reflexivity |].
  intros rawCerts verifiedChains w. split.
  - by intros certPool err ->.
  - by intros ->.
Qed.

(** X9: the client-certificate callback of the peer-role client
    configuration hands out the current leaf, fails with the "client is
    not yet ready" error while there is none, and never returns no
    certificate together with no error. *)
Theorem virtHandlerClients_client_certificate caManager certManager externallyManaged :
  ∃ getClientCertificate,
    GetClientCertificate (SetupTLSForVirtHandlerClients caManager certManager
                            externallyManaged) = Some getClientCertificate ∧
    ∀ info w,
      (Current certManager w = None →
         getClientCertificate info w
         = ((None, Some (Errorf
              "No client certificate, client is not yet ready to talk to the server")),
            [])) ∧
      (∀ cert, Current certManager w = Some cert →
         getClientCertificate info w = ((Some cert, None), [])) ∧
      fst (getClientCertificate info w) ≠ (None, None).
Proof.
  eexists. split; [reflexivity |].
  intros info w. repeat split.
  - by intros ->.
  - by intros cert ->.
  - by destruct (Current certManager w).
Qed.

(** X10: the per-client callback of the peer-role server yields a
    configuration exactly when the trust accessor gives a pool without
    error and the identity accessor gives a leaf. With trust in place and
    no leaf it refuses with the "server is not yet ready" error; the trust
    accessor is consulted first. *)
Theorem virtHandlerServer_config_iff_ready caManager certManager externallyManaged
    clusterConfig :
  ∃ getConfigForClient,
    GetConfigForClient (SetupTLSForVirtHandlerServer caManager certManager
                          externallyManaged clusterConfig)
    = Some getConfigForClient ∧
    ∀ info w,
      ((∃ config, fst (getConfigForClient info w) = (Some config, None)) ↔
       (∃ certPool cert, GetCurrent caManager w = (Some certPool, None) ∧
                         Current certManager w = Some cert)) ∧
      (∀ certPool, GetCurrent caManager w = (Some certPool, None) →
         Current certManager w = None →
         getConfigForClient info w = ((None, Some (Errorf noSrvCertMessage)), [])).
Proof.
  eexists. split; [reflexivity |].
  intros info w. simpl. split; [split |].
  - intros [config Hconfig].
    destruct (GetCurrent caManager w) as [[certPool |] [err |]]; try done.
    destruct (Current certManager w) as [cert |]; [| done].
    by exists certPool, cert.
  - intros (certPool & cert & -> & ->). by eexists.
  - by intros certPool -> ->.
Qed.

(** X11: the certificate callback of a per-client configuration of the
    peer-role server hands out the leaf that was current when the
    configuration was made; it does not consult the identity accessor
    again and cannot fail. *)
Theorem virtHandlerServer_nested_certificate caManager certManager externallyManaged
    clusterConfig :
  ∃ getConfigForClient,
    GetConfigForClient (SetupTLSForVirtHandlerServer caManager certManager
                          externallyManaged clusterConfig)
    = Some getConfigForClient ∧
    ∀ info w config,
      fst (getConfigForClient info w) = (Some config, None) →
      ∃ cert getCertificate,
        Current certManager w = Some cert ∧
        GetCertificate config = Some getCertificate ∧
        ∀ info' w', getCertificate info' w' = ((Some cert, None), []).
Proof.
  eexists. split; [reflexivity |].
  intros info w config. simpl.
  destruct (GetCurrent caManager w) as [[certPool |] [err |]]; try done.
  destruct (Current certManager w) as [cert |]; [| done].
  intros [= <-]. by exists cert, (λ _ _, ((Some cert, None), [])).
Qed.

(** ** Server-role builders and the policy *)

Lemma TlsVersion_range (version : v1.TLSProtocolVersion) :
  tls.VersionTLS10 ≤ TlsVersion version ≤ tls.VersionTLS13.
Proof. unfold TlsVersion. repeat case_decide; by vm_compute. Qed.

Lemma appliesPolicy_bounds clusterConfig w (config : @Config RT World) :
  appliesPolicy clusterConfig w config →
  tls.VersionTLS10 ≤ MinVersion config ≤ tls.VersionTLS13 ∧
  (∀ id, id ∈ CipherSuites config → ∃ cs, cs ∈ catalog ∧ tls.ID cs = id) ∧
  (GetConfigFromKubeVirtCR clusterConfig w = None →
     MinVersion config = tls.VersionTLS12 ∧ CipherSuites config = []).
Proof.
  intros [-> ->]. split; [apply TlsVersion_range |]. split.
  - intros id Hin. rewrite CipherSuiteIds_omap in Hin.
    apply list_elem_of_omap in Hin as (name & _ & Hlookup).
    apply idByName_sound in Hlookup as (cs & Hcs & _ & <-). by exists cs.
  - unfold getTLSConfiguration. by intros ->.
Qed.

(** X12: every per-client configuration that one of the three server
    builders yields carries the policy current at that handshake: its
    minimum version and cipher identifiers are the translations of the
    resolved policy. So the minimum version is always between TLS 1.0 and
    1.3, the cipher identifiers are catalog identifiers, and without a
    KubeVirt resource the configuration has minimum version 1.2 and an
    empty cipher list. *)
Theorem perClient_config_applies_policy caManager certManager clientAuth
    externallyManaged clusterConfig :
  ∀ builder getConfigForClient info w config,
    builder ∈ [ SetupPromTLS certManager clusterConfig;
                SetupTLSWithCertManager caManager certManager clientAuth
                  clusterConfig;
                SetupTLSForVirtHandlerServer caManager certManager
                  externallyManaged clusterConfig ] →
    GetConfigForClient builder = Some getConfigForClient →
    fst (getConfigForClient info w) = (Some config, None) →
    appliesPolicy clusterConfig w config ∧
    tls.VersionTLS10 ≤ MinVersion config ≤ tls.VersionTLS13 ∧
    (∀ id, id ∈ CipherSuites config → ∃ cs, cs ∈ catalog ∧ tls.ID cs = id) ∧
    (GetConfigFromKubeVirtCR clusterConfig w = None →
       MinVersion config = tls.VersionTLS12 ∧ CipherSuites config = []).
Proof.
  intros builder getConfigForClient info w config Hbuilder Hinstalled Hconfig.
  assert (Hpolicy : appliesPolicy clusterConfig w config).
  { repeat (apply elem_of_cons in Hbuilder as [-> | Hbuilder]);
      [| | | by apply elem_of_nil in Hbuilder];
      injection Hinstalled as <-; simpl in Hconfig.
    - destruct (Current certManager w); [| done]. by injection Hconfig as <-.
    - destruct (Current certManager w); [| done].
      destruct (GetCurrent caManager w) as [certPool [err |]]; [done |].
      by injection Hconfig as <-.
    - destruct (GetCurrent caManager w) as [[certPool |] [err |]]; try done.
      destruct (Current certManager w); [| done]. by injection Hconfig as <-. }
  split; [done |]. by apply appliesPolicy_bounds.
Qed.

(** X13: the per-client callback of SetupTLSWithCertManager looks at the
    identity first: without a leaf it refuses with the "server is not yet
    ready" error whatever the trust accessor says. With a leaf, an error
    of the trust accessor is handed back and logged; otherwise the
    configuration serves that leaf, asks for client certificates as the
    builder was told, and takes the trust pool as it is, a missing pool
    included; it leaves built-in verification on and installs no custom
    verifier. *)
Theorem SetupTLSWithCertManager_per_client caManager certManager clientAuth
    clusterConfig :
  ∃ getConfigForClient,
    GetConfigForClient (SetupTLSWithCertManager caManager certManager clientAuth
                          clusterConfig) = Some getConfigForClient ∧
    ∀ info w,
      (Current certManager w = None →
         getConfigForClient info w = ((None, Some (Errorf noSrvCertMessage)), [])) ∧
      (∀ cert certPool err,
         Current certManager w = Some cert →
         GetCurrent caManager w = (certPool, Some err) →
         getConfigForClient info w
         = ((None, Some err),
            [log.mkEntry log.ErrorLevel (Some err)
               "Failed to get requestheader client CA"])) ∧
      (∀ cert certPool,
         Current certManager w = Some cert →
         GetCurrent caManager w = (certPool, None) →
         ∃ config,
           getConfigForClient info w = ((Some config, None), []) ∧
           Certificates config = [cert] ∧
           NameToCertificate config = Some (nameToCertificate [cert]) ∧
           ClientCAs config = certPool ∧
           ClientAuth config = clientAuth ∧
           InsecureSkipVerify config = false ∧
           VerifyPeerCertificate config = None ∧
           GetConfigForClient config = None).
Proof.
  eexists. split; [reflexivity |].
  intros info w. simpl. repeat split.
  - by intros ->.
  - by intros cert certPool err -> ->.
  - intros cert certPool -> ->. by eexists.
Qed.

(** X14: the per-client callback of SetupPromTLS refuses without a leaf,
    with an error of its own ("failed to get a certificate", also logged)
    that is not the one of the certificate-selection callback; with a leaf
    it yields a configuration that serves it, verifies a client
    certificate only if one is given, names no client CA pool, leaves
    built-in verification on and installs no custom verifier. *)
Theorem SetupPromTLS_per_client certManager clusterConfig :
  ∃ getConfigForClient,
    GetConfigForClient (SetupPromTLS certManager clusterConfig)
    = Some getConfigForClient ∧
    ∀ info w,
      (Current certManager w = None →
         getConfigForClient info w
         = ((None, Some (Errorf "failed to get a certificate")),
            [log.mkEntry log.ErrorLevel None "failed to get a certificate"]) ∧
         Errorf "failed to get a certificate" ≠ Errorf noSrvCertMessage) ∧
      (∀ cert,
         Current certManager w = Some cert →
         ∃ config,
           getConfigForClient info w = ((Some config, None), []) ∧
           Certificates config = [cert] ∧
           NameToCertificate config = Some (nameToCertificate [cert]) ∧
           ClientCAs config = None ∧
           ClientAuth config = tls.VerifyClientCertIfGiven ∧
           InsecureSkipVerify config = false ∧
           VerifyPeerCertificate config = None ∧
           GetConfigForClient config = None).
Proof.
  eexists. split; [reflexivity |].
  intros info w. simpl. split.
  - by intros ->.
  - intros cert ->. by eexists.
Qed.

End further_properties.

(** * The further properties on the small runtime *)

Lemma verifyPeerCert_unparsable_leaf_witness :
  @verifyPeerCert Fixture.runtime [Fixture.rawGarbage; Fixture.rawGarbage] true
    (Some [Fixture.rootCA]) x509.ExtKeyUsageClientAuth "client"
  = (Some (Errorf ("failed to parse peer certificate: "
                     +:+ "x509: malformed certificate")), []).
Proof.
  apply (@verifyPeerCert_unparsable_leaf Fixture.runtime Fixture.rawGarbage
           [Fixture.rawGarbage] true (Some [Fixture.rootCA])
           x509.ExtKeyUsageClientAuth "client"
           (errorString "x509: malformed certificate")).
  reflexivity.
Defined.

Lemma verifyPeerCert_accepts_iff_witness :
  fst (@verifyPeerCert Fixture.runtime [Fixture.rawHandlerClient] false
         (Some [Fixture.rootCA]) x509.ExtKeyUsageClientAuth "client") = None.
Proof.
  apply (@verifyPeerCert_accepts_iff Fixture.runtime).
  eexists _, _, _. split; [reflexivity |]. split; [reflexivity |].
  split; [reflexivity |]. right. reflexivity.
Defined.

Lemma verifyPeerCert_internal_one_role_witness :
  fst (@verifyPeerCert Fixture.runtime [Fixture.rawHandlerClient] false
         (Some [Fixture.rootCA]) x509.ExtKeyUsageClientAuth "client") = None ∧
  "client" = "client".
Proof.
  split; [reflexivity |].
  apply (@verifyPeerCert_internal_one_role Fixture.runtime
           [Fixture.rawHandlerClient] (Some [Fixture.rootCA]) (Some [Fixture.rootCA])
           x509.ExtKeyUsageClientAuth x509.ExtKeyUsageClientAuth "client" "client");
    reflexivity.
Defined.

Lemma createIntermediatePool_accounts_witness :
  fst (@createIntermediatePool Fixture.runtime true
         [Fixture.rawGarbage; Fixture.rawIntermediate])
  = Some [Fixture.mkCert "sub-ca" "I" "R" []] ∧
  length (snd (@createIntermediatePool Fixture.runtime true
                 [Fixture.rawGarbage; Fixture.rawIntermediate])) = 1%nat ∧
  snd (@createIntermediatePool Fixture.runtime true [Fixture.rawIntermediate]) = [].
Proof.
  split; [| split].
  - exact (proj1 (@createIntermediatePool_accounts Fixture.runtime
                    [Fixture.rawGarbage; Fixture.rawIntermediate])).
  - refine (proj1 (Nat.add_cancel_l _ 1%nat 1%nat) _).
    exact (proj1 (proj2 (@createIntermediatePool_accounts Fixture.runtime
                           [Fixture.rawGarbage; Fixture.rawIntermediate]))).
  - apply (@createIntermediatePool_accounts Fixture.runtime [Fixture.rawIntermediate]).
    intros raw Hin. apply list_elem_of_singleton in Hin as ->. by eexists.
Defined.

Lemma verifyPeerCert_log_witness :
  snd (@verifyPeerCert Fixture.runtime
         [Fixture.rawForeignLeaf; Fixture.rawGarbage; Fixture.rawIntermediate] false
         (Some [Fixture.rootCA]) x509.ExtKeyUsageClientAuth "client") = [].
Proof.
  apply (@verifyPeerCert_log Fixture.runtime). reflexivity.
Defined.

Lemma TlsVersion_floor_witness :
  TlsVersion "VersionTLS11" = tls.VersionTLS11 ∧
  "VersionTLS10" = v1.VersionTLS10.
Proof.
  split.
  - apply (TlsVersion_floor "VersionTLS11"). reflexivity.
  - apply (TlsVersion_floor "VersionTLS10"). reflexivity.
Defined.

Lemma CipherSuiteIds_within_catalog_witness :
  @CipherSuiteIds Fixture.runtime ["TLS_NOT_A_SUITE"; "tls_aes_128_gcm_sha256"] = [] ∧
  ∃ cs, cs ∈ @catalog Fixture.runtime ∧
        tls.Name cs ∈ v1.Ciphers Fixture.policy ∧ tls.ID cs = 0x0005.
Proof.
  split.
  - apply (@CipherSuiteIds_within_catalog Fixture.runtime).
    intros name Hin Hlisted. vm_compute in Hlisted.
    repeat (apply elem_of_cons in Hin as [-> | Hin];
            [ repeat (apply elem_of_cons in Hlisted as [Heq | Hlisted];
                      [discriminate Heq |]);
              by apply elem_of_nil in Hlisted |]).
    by apply elem_of_nil in Hin.
  - apply (@CipherSuiteIds_within_catalog Fixture.runtime (v1.Ciphers Fixture.policy)).
    vm_compute. right. left.
Defined.

Lemma virtHandlerClients_trust_unavailable_witness :
  ∃ callback,
    VerifyPeerCertificate (SetupTLSForVirtHandlerClients Fixture.caManager
                             Fixture.certManager false) = Some callback ∧
    callback [Fixture.rawHandlerNode] [] Fixture.trustError
    = (Some (errorString "informer not synced"),
       [log.mkEntry log.ErrorLevel (Some (errorString "informer not synced"))
          "Failed to get kubevirt CA"]) ∧
    callback [Fixture.rawHandlerNode] [] Fixture.noTrust
    = (Some (Errorf ("could not verify peer certificate: "
                       +:+ "x509: certificate signed by unknown authority")), []).
Proof.
  destruct (virtHandlerClients_trust_unavailable Fixture.caManager
              Fixture.certManager false) as (callback & Hinstalled & Hcalls).
  exists callback. split; [exact Hinstalled |]. split.
  - eapply (proj1 (Hcalls _ _ Fixture.trustError)). reflexivity.
  - rewrite (proj2 (Hcalls [Fixture.rawHandlerNode] [] Fixture.noTrust));
      reflexivity.
Defined.

Lemma virtHandlerClients_client_certificate_witness :
  ∃ getClientCertificate,
    GetClientCertificate (SetupTLSForVirtHandlerClients Fixture.caManager
                            Fixture.certManager false)
    = Some getClientCertificate ∧
    getClientCertificate (tls.mkCertificateRequestInfo tls.VersionTLS13)
      Fixture.noLeaf
    = ((None, Some (Errorf
         "No client certificate, client is not yet ready to talk to the server")),
       []) ∧
    getClientCertificate (tls.mkCertificateRequestInfo tls.VersionTLS13)
      Fixture.ready
    = ((Some "handler-leaf", None), []).
Proof.
  destruct (virtHandlerClients_client_certificate Fixture.caManager
              Fixture.certManager false)
    as (getClientCertificate & Hinstalled & Hselects).
  exists getClientCertificate. split; [exact Hinstalled |]. split.
  - apply (Hselects _ Fixture.noLeaf). reflexivity.
  - apply (Hselects _ Fixture.ready). reflexivity.
Defined.

Lemma virtHandlerServer_config_iff_ready_witness :
  ∃ getConfigForClient,
    GetConfigForClient (SetupTLSForVirtHandlerServer Fixture.caManager
                          Fixture.certManager false Fixture.clusterConfig)
    = Some getConfigForClient ∧
    (∃ config, fst (getConfigForClient Fixture.hello Fixture.ready)
               = (Some config, None)) ∧
    getConfigForClient Fixture.hello Fixture.noLeaf
    = ((None, Some (Errorf noSrvCertMessage)), []).
Proof.
  destruct (virtHandlerServer_config_iff_ready Fixture.caManager
              Fixture.certManager false Fixture.clusterConfig)
    as (getConfigForClient & Hinstalled & Hready).
  exists getConfigForClient. split; [exact Hinstalled |]. split.
  - apply (proj1 (Hready Fixture.hello Fixture.ready)).
    by exists [Fixture.rootCA], "handler-leaf".
  - eapply (proj2 (Hready Fixture.hello Fixture.noLeaf)); reflexivity.
Defined.

Lemma virtHandlerServer_nested_certificate_witness :
  ∃ getConfigForClient config getCertificate,
    GetConfigForClient (SetupTLSForVirtHandlerServer Fixture.caManager
                          Fixture.certManager false Fixture.clusterConfig)
    = Some getConfigForClient ∧
    fst (getConfigForClient Fixture.hello Fixture.ready) = (Some config, None) ∧
    GetCertificate config = Some getCertificate ∧
    getCertificate Fixture.hello Fixture.noLeaf = ((Some "handler-leaf", None), []).
Proof.
  destruct (virtHandlerServer_nested_certificate Fixture.caManager
              Fixture.certManager false Fixture.clusterConfig)
    as (getConfigForClient & Hinstalled & Hnested).
  pose proof Hinstalled as Hsame. simpl in Hsame. injection Hsame as <-.
  edestruct (Hnested Fixture.hello Fixture.ready)
    as (cert & getCertificate & Hleaf & Hcallback & Hconstant); [reflexivity |].
  injection Hleaf as <-.
  eexists _, _, getCertificate. split; [exact Hinstalled |].
  split; [reflexivity |]. split; [exact Hcallback |]. apply Hconstant.
Defined.

Lemma perClient_config_applies_policy_witness :
  ∃ getConfigForClient config,
    GetConfigForClient (SetupPromTLS Fixture.certManager Fixture.clusterConfig)
    = Some getConfigForClient ∧
    fst (getConfigForClient Fixture.hello Fixture.withPolicy) = (Some config, None) ∧
    MinVersion config = tls.VersionTLS13 ∧
    CipherSuites config = [0x1301; 0x0005] ∧
    tls.VersionTLS10 ≤ MinVersion config ≤ tls.VersionTLS13.
Proof.
  eexists _, _. split; [reflexivity |]. split; [reflexivity |].
  epose proof (perClient_config_applies_policy Fixture.caManager
                 Fixture.certManager tls.NoClientCert false Fixture.clusterConfig
                 (SetupPromTLS Fixture.certManager Fixture.clusterConfig)
                 _ Fixture.hello Fixture.withPolicy _
                 (list_elem_of_here _ _) eq_refl eq_refl)
    as ([Hversion Hciphers] & Hrange & _).
  split; [exact Hversion |]. split; [exact Hciphers |]. exact Hrange.
Defined.

Lemma SetupTLSWithCertManager_per_client_witness :
  ∃ getConfigForClient,
    GetConfigForClient (SetupTLSWithCertManager Fixture.caManager
                          Fixture.certManager tls.RequireAndVerifyClientCert
                          Fixture.clusterConfig) = Some getConfigForClient ∧
    getConfigForClient Fixture.hello
      (Fixture.mkState None (None, Some (errorString "informer not synced")) None)
    = ((None, Some (Errorf noSrvCertMessage)), []) ∧
    getConfigForClient Fixture.hello Fixture.trustError
    = ((None, Some (errorString "informer not synced")),
       [log.mkEntry log.ErrorLevel (Some (errorString "informer not synced"))
          "Failed to get requestheader client CA"]) ∧
    ∃ config,
      getConfigForClient Fixture.hello Fixture.noTrust = ((Some config, None), []) ∧
      ClientCAs config = None ∧
      ClientAuth config = tls.RequireAndVerifyClientCert.
Proof.
  destruct (SetupTLSWithCertManager_per_client Fixture.caManager
              Fixture.certManager tls.RequireAndVerifyClientCert
              Fixture.clusterConfig)
    as (getConfigForClient & Hinstalled & Hcases).
  exists getConfigForClient. split; [exact Hinstalled |]. split; [| split].
  - apply (Hcases Fixture.hello
             (Fixture.mkState None (None, Some (errorString "informer not synced"))
                None)).
    reflexivity.
  - eapply (Hcases Fixture.hello Fixture.trustError); reflexivity.
  - edestruct (Hcases Fixture.hello Fixture.noTrust) as (_ & _ & Hserves).
    edestruct Hserves as (config & Hconfig & _ & _ & Hpool & Hauth & _);
      [reflexivity | reflexivity |].
    exists config. split; [exact Hconfig |]. split; [exact Hpool | exact Hauth].
Defined.

Lemma SetupPromTLS_per_client_witness :
  ∃ getConfigForClient,
    GetConfigForClient (SetupPromTLS Fixture.certManager Fixture.clusterConfig)
    = Some getConfigForClient ∧
    getConfigForClient Fixture.hello Fixture.noLeaf
    = ((None, Some (Errorf "failed to get a certificate")),
       [log.mkEntry log.ErrorLevel None "failed to get a certificate"]) ∧
    ∃ config,
      getConfigForClient Fixture.hello Fixture.ready = ((Some config, None), []) ∧
      Certificates config = ["handler-leaf"] ∧
      ClientAuth config = tls.VerifyClientCertIfGiven.
Proof.
  destruct (SetupPromTLS_per_client Fixture.certManager Fixture.clusterConfig)
    as (getConfigForClient & Hinstalled & Hcases).
  exists getConfigForClient. split; [exact Hinstalled |]. split.
  - apply (Hcases Fixture.hello Fixture.noLeaf). reflexivity.
  - edestruct (Hcases Fixture.hello Fixture.ready) as (_ & Hserves).
    edestruct Hserves as (config & Hconfig & Hleaf & _ & _ & Hauth & _);
      [reflexivity |].
    exists config. split; [exact Hconfig |]. split; [exact Hleaf | exact Hauth].
Defined.

(** * Properties of the log-verbosity command *)

Section logverbosity_properties.

Import logverbosity logverbosity_wording.

Implicit Types (infos : list virtComponentInfo).
Implicit Types (componentInfo : list (option virtComponentInfo)).

Lemma deref_populated infos (component : nat) :
  deref (Some <$> infos) component = infos !! component.
Proof.
  unfold deref. rewrite list_lookup_fmap.
  destruct (infos !! component); reflexivity.
Qed.

Lemma drop_cons_inv {A} (l : list A) i x rest :
  drop i l = x :: rest → l !! i = Some x ∧ drop (S i) l = rest.
Proof.
  intros Hdrop. split.
  - pose proof (lookup_drop l i 0) as Hlookup.
    rewrite Nat.add_0_r, Hdrop in Hlookup. done.
  - pose proof (drop_drop l 1 i) as Hrest.
    rewrite Hdrop, Nat.add_1_r in Hrest. done.
Qed.

Lemma forEach_ext {A S} (body1 body2 : S → A → option S) xs : ∀ acc,
  (∀ acc' x, x ∈ xs → body1 acc' x = body2 acc' x) →
  forEach body1 acc xs = forEach body2 acc xs.
Proof.
  induction xs as [| x xs IH]; intros acc Hbody; [done |]. simpl.
  rewrite Hbody by left. destruct (body2 acc x) as [acc' |]; [| done]. simpl.
  apply IH. intros acc'' y Hin. apply Hbody. by right.
Qed.

(** ** hasTarget and findOperation *)

Lemma hasTarget_from_populated infos rest : ∀ i hasShowTarget hasSetTarget,
  exclusive rest →
  drop i infos = rest →
  hasTarget_from (Some <$> infos) (seq i (length rest)) hasShowTarget hasSetTarget
  = Some (hasShowTarget || existsb showFlag rest,
          hasSetTarget || existsb setFlag rest).
Proof.
  induction rest as [| info rest IH]; intros i hasShow hasSet Hexcl Hdrop; simpl.
  - by rewrite !orb_false_r.
  - apply drop_cons_inv in Hdrop as [Hinfo Hdrop].
    apply Forall_cons in Hexcl as [Hone Hexcl].
    rewrite deref_populated, Hinfo.
    destruct hasShow, hasSet, (showFlag info) eqn:Hshow, (setFlag info) eqn:Hset;
      simpl in *; try done;
      rewrite ?Hshow, ?Hset; simpl;
      try (rewrite (IH _ _ _ Hexcl Hdrop); simpl; by rewrite ?orb_true_r).
Qed.

(** X15: on a fully populated array in which no component is both a show
    and a set target, hasTarget reports whether some component is a show
    target and whether some is a set target, and findOperation decides
    from that: show with set, or show with reset, is an error with the
    dummy operation -1; a show target alone gives show; a set target or
    reset gives set; otherwise nop. Neither panics. *)
Theorem findOperation_classifies resetFlag infos :
  length infos = virtComponentNum →
  exclusive infos →
  let hasShowTarget := existsb showFlag infos in
  let hasSetTarget := existsb setFlag infos in
  hasTarget (Some <$> infos) = Some (hasShowTarget, hasSetTarget) ∧
  findOperation resetFlag (Some <$> infos)
  = Some (if hasShowTarget && hasSetTarget
          then (-1, Some (errorString "show and set cannot coexist"))
          else if hasShowTarget && resetFlag
          then (-1, Some (errorString "show and reset cannot coexist"))
          else if hasShowTarget then (show, None)
          else if hasSetTarget || resetFlag then (set, None)
          else (nop, None)).
Proof.
  intros Hlen Hexcl hasShowTarget hasSetTarget.
  assert (Htarget : hasTarget (Some <$> infos) = Some (hasShowTarget, hasSetTarget)).
  { unfold hasTarget, upTo. change (S all - virtAPI)%nat with virtComponentNum.
    rewrite <- Hlen. by rewrite (hasTarget_from_populated infos infos 0). }
  split; [done |].
  unfold findOperation. rewrite Htarget. simpl.
  by destruct hasShowTarget, hasSetTarget, resetFlag.
Qed.

(** ** setComponentInfo *)

Lemma setComponentInfo_from_app Changed entries pre : ∀ post componentInfo,
  setComponentInfo_from Changed entries (pre ++ post) componentInfo
  = match setComponentInfo_from Changed entries pre componentInfo with
    | Some (result, None) => setComponentInfo_from Changed entries post result
    | other => other
    end.
Proof.
  induction pre as [| c pre IH]; intros post componentInfo; [done |].
  simpl. destruct (entries !! c) as [entry |]; [| done]. simpl.
  destruct (_ && _ && _ && _); [done |].
  destruct (bool_decide _); [| done]. apply IH.
Qed.

(** The range check of the loop, for a [uint]. *)
Lemma outOfRange_check Changed entry :
  isUint (verbosity entry) →
  Changed (name entry) && bool_decide (verbosity entry ≠ noArg)
  && bool_decide (maxVerbosity < verbosity entry)
  && bool_decide (verbosity entry < noArg)
  = outOfRange Changed entry.
Proof.
  intros [_ Hmax]. unfold outOfRange.
  destruct (Changed (name entry)); [| done]. simpl.
  destruct (decide (verbosity entry = noArg)) as [Heq | Hne].
  - by rewrite (bool_decide_eq_false_2 (verbosity entry ≠ noArg)) by (by intros []).
  - rewrite (bool_decide_eq_true_2 (verbosity entry < noArg)); [by rewrite andb_true_r |].
    unfold noArg in *. lia.
Qed.

Lemma setComponentInfo_from_ok Changed entries components : ∀ componentInfo,
  (∀ c : nat, c ∈ components →
     (c < length componentInfo)%nat ∧
     ∃ entry, entries !! c = Some entry ∧
              showFlag entry = false ∧ setFlag entry = false ∧
              isUint (verbosity entry) ∧ outOfRange Changed entry = false) →
  ∃ result,
    setComponentInfo_from Changed entries components componentInfo
    = Some (result, None) ∧
    length result = length componentInfo ∧
    (∀ (c : nat) entry, c ∈ components → entries !! c = Some entry →
       result !! c = Some (Some (flagged Changed entry))) ∧
    (∀ j : nat, j ∉ components → result !! j = componentInfo !! j).
Proof.
  induction components as [| c components IH]; intros componentInfo Hfine.
  { exists componentInfo. split; [done |]. split; [done |]. split; [| done].
    intros c entry Hin. by apply elem_of_nil in Hin. }
  destruct (Hfine c) as (Hlt & entry & Hentry & Hshow & Hset & Huint & Hrange);
    [left |].
  simpl. unfold virtComponent in *. rewrite Hentry. simpl.
  rewrite (outOfRange_check _ _ Huint), Hrange.
  rewrite bool_decide_eq_true_2 by done.
  assert (Hflagged :
    (if Changed (name entry)
        && negb (Changed (name entry) && bool_decide (verbosity entry ≠ noArg))
     then mkInfo (name entry) (jsonName entry) (verbosity entry) true (setFlag entry)
     else if Changed (name entry)
             && (Changed (name entry) && bool_decide (verbosity entry ≠ noArg))
     then mkInfo (name entry) (jsonName entry) (verbosity entry) (showFlag entry) true
     else entry) = flagged Changed entry).
  { unfold flagged. destruct entry as [n j v sh se]. simpl in *. subst sh se.
    destruct (Changed n); simpl; [| done].
    repeat case_bool_decide; simpl; done. }
  rewrite Hflagged. clear Hflagged.
  destruct (IH (<[c := Some (flagged Changed entry)]> componentInfo))
    as (result & Hresult & Hlen & Hset' & Hkept).
  { intros c' Hin. rewrite length_insert. apply Hfine. by right. }
  exists result. split; [done |]. rewrite length_insert in Hlen.
  split; [done |]. split.
  - intros c' entry' Hin Hentry'.
    destruct (decide (c' ∈ components)) as [Hlater | Hnot]; [by apply Hset' |].
    apply elem_of_cons in Hin as [-> | Hin]; [| done].
    rewrite Hkept by done. rewrite Hentry in Hentry'. injection Hentry' as <-.
    by apply list_lookup_insert_eq.
  - intros j Hnot. apply not_elem_of_cons in Hnot as [Hne Hnot].
    rewrite Hkept by done. by apply list_lookup_insert_ne.
Qed.

Ltac component_arith :=
  unfold virtComponentNum, virtAPI, all in *; simpl in *; lia.

Lemma componentEntries_lookup vars (c : nat) entry :
  componentEntries vars !! c = Some entry →
  (c < 6)%nat ∧ showFlag entry = false ∧ setFlag entry = false.
Proof.
  intros Hentry.
  do 6 (destruct c as [| c];
        [injection Hentry as <-; split; [lia | by split] |]).
  done.
Qed.

Lemma setComponentInfo_populates Changed vars componentInfo :
  length componentInfo = virtComponentNum →
  Forall (λ entry, isUint (verbosity entry)) (componentEntries vars) →
  Forall (λ entry, outOfRange Changed entry = false) (componentEntries vars) →
  setComponentInfo Changed vars componentInfo
  = Some (Some <$> (flagged Changed <$> componentEntries vars), None).
Proof.
  intros Hlen Huint Hrange.
  rewrite Forall_forall in Huint. rewrite Forall_forall in Hrange.
  destruct (setComponentInfo_from_ok Changed (componentEntries vars)
              (upTo virtAPI (S all)) componentInfo)
    as (result & Hresult & Hlen' & Hset & _).
  { intros c Hin. apply elem_of_seq in Hin as [_ Hlt].
    split; [rewrite Hlen; exact Hlt |].
    destruct (componentEntries vars !! c) as [entry |] eqn:Hentry.
    - exists entry.
      pose proof (componentEntries_lookup _ _ _ Hentry) as (_ & Hshow & Hset).
      pose proof (list_elem_of_lookup_2 _ _ _ Hentry) as Hin.
      split; [done |]. split; [done |]. split; [done |]. split; auto.
    - apply lookup_ge_None in Hentry. component_arith. }
  unfold setComponentInfo. rewrite Hresult. do 2 f_equal.
  apply list_eq. intros c.
  destruct (decide (c < 6)%nat) as [Hlt | Hge].
  - destruct (lookup_lt_is_Some_2 (componentEntries vars) c) as [entry Hentry];
      [exact Hlt |].
    rewrite (Hset c entry); [| apply elem_of_seq; component_arith | done].
    by rewrite !list_lookup_fmap, Hentry.
  - rewrite !lookup_ge_None_2; [done | |].
    + rewrite !length_fmap. simpl. lia.
    + rewrite Hlen', Hlen. component_arith.
Qed.

Lemma flagged_exclusive Changed entries : exclusive (flagged Changed <$> entries).
Proof.
  unfold exclusive. apply Forall_fmap, Forall_forall.
  intros entry _. simpl. destruct (Changed (name entry)); [| done]. simpl.
  by repeat case_bool_decide.
Qed.

(** X16: when every flag that was given carries either no value or a
    verbosity from 0 to 9, setComponentInfo fills all six slots and
    returns no error. Each slot is the component's entry with its flags
    decided: a show target when its flag came without a value, a set
    target when it came with one, neither when it was not given. So no
    component is both, a set target has a verbosity from 0 to 9, and a
    show target has the "no argument" value. *)
Theorem setComponentInfo_fills Changed vars componentInfo :
  length componentInfo = virtComponentNum →
  Forall (λ entry, isUint (verbosity entry)) (componentEntries vars) →
  Forall (λ entry, outOfRange Changed entry = false) (componentEntries vars) →
  let infos := flagged Changed <$> componentEntries vars in
  setComponentInfo Changed vars componentInfo = Some (Some <$> infos, None) ∧
  exclusive infos ∧
  Forall (λ info, setFlag info = true → 0 ≤ verbosity info ≤ maxVerbosity) infos ∧
  Forall (λ info, showFlag info = true → verbosity info = noArg) infos.
Proof.
  intros Hlen Huint Hrange infos.
  split; [by apply setComponentInfo_populates |].
  split; [apply flagged_exclusive |].
  rewrite Forall_forall in Huint. rewrite Forall_forall in Hrange.
  split.
  - subst infos. apply Forall_fmap, Forall_forall.
    intros entry Hin. simpl. intros Hset.
    apply andb_prop in Hset as [Hchanged Hne].
    apply bool_decide_eq_true in Hne.
    pose proof (Hrange entry Hin) as Hfine. pose proof (Huint entry Hin) as [Hpos _].
    unfold outOfRange in Hfine. rewrite Hchanged in Hfine. simpl in Hfine.
    rewrite bool_decide_eq_true_2 in Hfine by done. simpl in Hfine.
    apply bool_decide_eq_false in Hfine. lia.
  - subst infos. apply Forall_fmap, Forall_forall.
    intros entry _. simpl. intros Hshow.
    apply andb_prop in Hshow as [_ Heq]. by apply bool_decide_eq_true in Heq.
Qed.

(** X17: when some flag was given with a value above 9 that is not the
    "no argument" value, setComponentInfo returns the error
    "<name>: log verbosity must be 0-9" for the first such component in
    the order virt-api, virt-controller, virt-handler, virt-launcher,
    virt-operator, all, and leaves the slots from that component on as
    they were. *)
Theorem setComponentInfo_rejects Changed vars componentInfo (k : nat) entry :
  length componentInfo = virtComponentNum →
  Forall (λ entry, isUint (verbosity entry)) (componentEntries vars) →
  componentEntries vars !! k = Some entry →
  outOfRange Changed entry = true →
  (∀ (j : nat) earlier, (j < k)%nat → componentEntries vars !! j = Some earlier →
     outOfRange Changed earlier = false) →
  ∃ result,
    setComponentInfo Changed vars componentInfo
    = Some (result, Some (Errorf (name entry +:+ ": log verbosity must be 0-9"))) ∧
    ∀ j : nat, (k ≤ j)%nat → result !! j = componentInfo !! j.
Proof.
  intros Hlen Huint Hentry Hout Hfirst.
  rewrite Forall_forall in Huint.
  pose proof (componentEntries_lookup _ _ _ Hentry) as (Hk & _ & _).
  unfold setComponentInfo, upTo.
  replace (seq virtAPI (S all - virtAPI))
    with (seq 0 k ++ k :: seq (S k) (5 - k)).
  2:{ change (S all - virtAPI)%nat with (6)%nat. change virtAPI with 0%nat.
      replace 6%nat with (k + S (5 - k))%nat by lia.
      rewrite seq_app. simpl. done. }
  rewrite setComponentInfo_from_app.
  destruct (setComponentInfo_from_ok Changed (componentEntries vars) (seq 0 k)
              componentInfo) as (result & Hresult & _ & _ & Hkept).
  { intros c Hin. apply elem_of_seq in Hin as [_ Hlt]. simpl in Hlt.
    split; [rewrite Hlen; component_arith |].
    destruct (lookup_lt_is_Some_2 (componentEntries vars) c) as [earlier Hearlier];
      [simpl; lia |].
    exists earlier.
    pose proof (componentEntries_lookup _ _ _ Hearlier) as (_ & Hshow & Hset).
    pose proof (list_elem_of_lookup_2 _ _ _ Hearlier) as Hin.
    split; [done |]. split; [done |]. split; [done |]. split; eauto. }
  rewrite Hresult. simpl. unfold virtComponent in *. rewrite Hentry. simpl.
  rewrite (outOfRange_check _ _ (Huint entry (list_elem_of_lookup_2 _ _ _ Hentry))).
  rewrite Hout.
  exists result. split; [done |].
  intros j Hle. apply Hkept. intros Hin. apply elem_of_seq in Hin. lia.
Qed.

(** ** setVerbosity *)

Lemma verbosityAfter_cons allInfo info infos m :
  verbosityAfter allInfo (info :: infos) m
  = verbosityAfter allInfo infos
      (from_option (λ v, <[jsonName info := v]> m) m (requested allInfo info)).
Proof. reflexivity. Qed.

Lemma verbosityAfter_other allInfo infos : ∀ m key,
  key ∉ jsonName <$> infos →
  verbosityAfter allInfo infos m !! key = m !! key.
Proof.
  induction infos as [| info infos IH]; intros m key Hnot; [done |].
  rewrite fmap_cons in Hnot. apply not_elem_of_cons in Hnot as [Hne Hnot].
  rewrite verbosityAfter_cons, IH by done.
  destruct (requested allInfo info); simpl; [| done].
  by rewrite lookup_insert_ne.
Qed.

Lemma verbosityAfter_at allInfo infos : ∀ m info,
  NoDup (jsonName <$> infos) →
  info ∈ infos →
  verbosityAfter allInfo infos m !! jsonName info
  = match requested allInfo info with
    | Some v => Some v
    | None => m !! jsonName info
    end.
Proof.
  induction infos as [| first infos IH]; intros m info Hnodup Hin.
  { by apply elem_of_nil in Hin. }
  rewrite fmap_cons in Hnodup. apply NoDup_cons in Hnodup as [Hfresh Hnodup].
  rewrite verbosityAfter_cons.
  apply elem_of_cons in Hin as [-> | Hin].
  - rewrite verbosityAfter_other by done.
    destruct (requested allInfo first); simpl; [| done].
    by rewrite lookup_insert_eq.
  - rewrite IH by done.
    destruct (requested allInfo info); [done |].
    destruct (requested allInfo first); simpl; [| done].
    rewrite lookup_insert_ne; [done |].
    intros Heq. apply Hfresh. rewrite Heq. by apply list_elem_of_fmap_2.
Qed.

(** One round of the loop of setVerbosity on a populated array. *)
Lemma setVerbosity_loop resetFlag infos allInfo (r : nat) rest :
  ∀ (i : nat) (σ : Store) m,
  infos !! 5%nat = Some allInfo →
  (∀ (idx : nat) info, rest !! idx = Some info → infos !! (i + idx)%nat = Some info) →
  (∀ info v, info ∈ rest → requested allInfo info = Some v → v ≠ MaxUint) →
  σ !! r = Some m →
  forEach (λ σ component,
             info ← deref (Some <$> infos) component;
             val ←
               (if setFlag info then Some (verbosity info)
                else
                  allInfo ← deref (Some <$> infos) all;
                  if negb (setFlag info) && setFlag allInfo
                  then Some (verbosity allInfo)
                  else if negb (setFlag info) && negb (setFlag allInfo)
                          && negb resetFlag
                  then
                    tempVal ← mapGet σ (Some r) (jsonName info);
                    Some (default MaxUint tempVal)
                  else Some MaxUint);
             if bool_decide (val ≠ MaxUint)
             then mapSet σ (Some r) (jsonName info) val
             else Some σ)
          σ (seq i (length rest))
  = Some (<[r := verbosityAfter allInfo rest m]> σ).
Proof.
  unfold Store, Ref.
  match goal with |- context [forEach ?b _ _] => set (body := b) end.
  induction rest as [| info rest IH]; intros i σ m Hall Hrest Hsentinel Hm.
  { cbn [length seq forEach]. unfold verbosityAfter. cbn [foldl].
    by rewrite list_insert_id. }
  pose proof (Hrest 0%nat info eq_refl) as Hinfo. rewrite Nat.add_0_r in Hinfo.
  assert (Hreq : ∀ v, requested allInfo info = Some v → v ≠ MaxUint).
  { intros v. apply Hsentinel. left. }
  assert (Hbody : body σ i
                  = Some (<[r := from_option (λ v, <[jsonName info := v]> m) m
                                   (requested allInfo info)]> σ)).
  { subst body. cbv beta. change all with 5%nat.
    rewrite !deref_populated, Hinfo, Hall. simpl.
    unfold requested in *. unfold mapGet, mapSet, Ref, Store. rewrite Hm. simpl.
    destruct (setFlag info) eqn:Hset; simpl.
    - by rewrite bool_decide_eq_true_2 by (by apply Hreq).
    - destruct (setFlag allInfo) eqn:Hsetall; simpl.
      + by rewrite bool_decide_eq_true_2 by (by apply Hreq).
      + destruct resetFlag; simpl.
        * by rewrite list_insert_id.
        * destruct (m !! jsonName info) as [existing |] eqn:Hexisting; simpl.
          -- case_bool_decide.
             ++ by rewrite insert_id.
             ++ by rewrite list_insert_id.
          -- by rewrite list_insert_id. }
  rewrite verbosityAfter_cons.
  cbn [length seq forEach]. rewrite Hbody. cbn [mbind option_bind].
  erewrite IH; [by rewrite list_insert_insert_eq | done | | |].
  - intros idx info' Hidx.
    replace (S i + idx)%nat with (i + S idx)%nat by lia. by apply Hrest.
  - intros info' v Hin. apply Hsentinel. by right.
  - apply list_lookup_insert_eq. by eapply lookup_lt_Some.
Qed.

Lemma setVerbosity_populated resetFlag components allInfo (r : nat)
    (σ : list (gmap string Z)) m :
  length components = 5%nat →
  (∀ info v, info ∈ components → requested allInfo info = Some v → v ≠ MaxUint) →
  σ !! r = Some m →
  setVerbosity resetFlag (Some r) (Some <$> (components ++ [allInfo])) σ
  = Some (<[r := verbosityAfter allInfo components m]> σ).
Proof.
  intros Hlen Hsentinel Hm. unfold setVerbosity, upTo.
  change (all - virtAPI)%nat with 5%nat. rewrite <- Hlen. change virtAPI with 0%nat.
  apply setVerbosity_loop; [| | done | done].
  - rewrite lookup_app_r by lia. by rewrite Hlen.
  - intros idx info Hidx. by apply lookup_app_l_Some.
Qed.

(** X18: on a populated array whose set targets carry no sentinel value,
    setVerbosity leaves in the map, for each of the five components, the
    verbosity requested for it: its own when it is a set target, otherwise
    the one of "all" when that is a set target; a component with neither
    keeps the entry it had, or stays absent. Entries under other keys and
    the other maps of the store are untouched, and the outcome does not
    depend on the reset flag. *)
Theorem setVerbosity_writes_requested resetFlag components allInfo (r : nat)
    (σ : list (gmap string Z)) m :
  length components = 5%nat →
  (∀ info v, info ∈ components → requested allInfo info = Some v → v ≠ MaxUint) →
  σ !! r = Some m →
  let after := verbosityAfter allInfo components m in
  setVerbosity resetFlag (Some r) (Some <$> (components ++ [allInfo])) σ
  = Some (<[r := after]> σ) ∧
  (∀ key, key ∉ jsonName <$> components → after !! key = m !! key) ∧
  (NoDup (jsonName <$> components) →
   ∀ info, info ∈ components →
     after !! jsonName info
     = match requested allInfo info with
       | Some v => Some v
       | None => m !! jsonName info
       end).
Proof.
  intros Hlen Hsentinel Hm after.
  split; [by apply setVerbosity_populated |].
  split.
  - intros key Hnot. by apply verbosityAfter_other.
  - intros Hnodup info Hin. by apply verbosityAfter_at.
Qed.

(** ** createPatch *)

(** hasVerbosityInKV panics on a nil resource and on one without a
    developerConfiguration, and only then. *)
Lemma hasVerbosityInKV_panics {KubeVirt DeveloperConfiguration LogVerbosity : Type}
    (DeveloperConfiguration_ : KubeVirt → option DeveloperConfiguration)
    (LogVerbosity_ : DeveloperConfiguration → option LogVerbosity)
    (marshalLogVerbosity : option LogVerbosity → list byte * option error)
    (unmarshalMap : list byte → option (gmap string Z) →
                    option (gmap string Z) * option error) kv :
  hasVerbosityInKV DeveloperConfiguration_ LogVerbosity_ marshalLogVerbosity
    unmarshalMap kv = None
  ↔ kv = None ∨ ∃ kv', kv = Some kv' ∧ DeveloperConfiguration_ kv' = None.
Proof.
  unfold hasVerbosityInKV. split.
  - destruct kv as [kv' |]; [| by left]. simpl.
    destruct (DeveloperConfiguration_ kv') as [developerConfiguration |] eqn:Hnil;
      simpl; [| intros _; right; by exists kv'].
    destruct (marshalLogVerbosity _) as [lvJSON [err |]]; [done |].
    by destruct (unmarshalMap _ _) as [verbosityMap [err |]].
  - intros [-> | (kv' & -> & Hnil)]; [done |]. simpl. by rewrite Hnil.
Qed.

(** X19: createPatch panics exactly when the resource is nil or has no
    developerConfiguration, which hasVerbosityInKV reads through. It
    hands an error of hasVerbosityInKV back with no bytes. Otherwise it
    marshals at most two operations, each an "add" of the whole
    logVerbosity object: one when a reset wipes a non-empty existing map,
    and one when the map after the set operation is not empty. Both carry
    the map as it is after the set operation, since the first holds the
    very map that setVerbosity then fills: a reset followed by a set is
    marshalled as the same object twice, not as an empty object followed
    by the new one. *)
Theorem createPatch_operations {KubeVirt DeveloperConfiguration LogVerbosity : Type}
    (DeveloperConfiguration_ : KubeVirt → option DeveloperConfiguration)
    (LogVerbosity_ : DeveloperConfiguration → option LogVerbosity)
    (marshalLogVerbosity : option LogVerbosity → list byte * option error)
    (unmarshalMap : list byte → option (gmap string Z) →
                    option (gmap string Z) * option error)
    (marshalPatch : list MarshalledOperation → list byte * option error)
    (PatchAddOp : string) resetFlag kv components allInfo :
  length components = 5%nat →
  (∀ info v, info ∈ components → requested allInfo info = Some v → v ≠ MaxUint) →
  (createPatch DeveloperConfiguration_ LogVerbosity_ marshalLogVerbosity
     unmarshalMap marshalPatch PatchAddOp resetFlag kv
     (Some <$> (components ++ [allInfo])) = None
   ↔ kv = None ∨ ∃ kv', kv = Some kv' ∧ DeveloperConfiguration_ kv' = None) ∧
  (∀ returned err,
     hasVerbosityInKV DeveloperConfiguration_ LogVerbosity_ marshalLogVerbosity
       unmarshalMap kv = Some (returned, Some err) →
     createPatch DeveloperConfiguration_ LogVerbosity_ marshalLogVerbosity
       unmarshalMap marshalPatch PatchAddOp resetFlag kv
       (Some <$> (components ++ [allInfo]))
     = Some ([], Some err)) ∧
  (∀ returned,
     hasVerbosityInKV DeveloperConfiguration_ LogVerbosity_ marshalLogVerbosity
       unmarshalMap kv = Some (returned, None) →
     let existing := default ∅ returned in
     let wiped := resetFlag && bool_decide (size existing ≠ 0%nat) in
     let final :=
       verbosityAfter allInfo components (if wiped then ∅ else existing) in
     let add :=
       mkMarshalledOperation PatchAddOp
         "/spec/configuration/developerConfiguration/logVerbosity" (Some final) in
     createPatch DeveloperConfiguration_ LogVerbosity_ marshalLogVerbosity
       unmarshalMap marshalPatch PatchAddOp resetFlag kv
       (Some <$> (components ++ [allInfo]))
     = Some (marshalPatch ((if wiped then [add] else [])
                           ++ (if bool_decide (size final ≠ 0%nat)
                               then [add] else [])))).
Proof.
  intros Hlen Hsentinel.
  assert (Herror : ∀ returned err,
    hasVerbosityInKV DeveloperConfiguration_ LogVerbosity_ marshalLogVerbosity
      unmarshalMap kv = Some (returned, Some err) →
    createPatch DeveloperConfiguration_ LogVerbosity_ marshalLogVerbosity
      unmarshalMap marshalPatch PatchAddOp resetFlag kv
      (Some <$> (components ++ [allInfo]))
    = Some ([], Some err)).
  { intros returned err Hhas. unfold createPatch. by rewrite Hhas. }
  assert (Hmarshals : ∀ returned,
    hasVerbosityInKV DeveloperConfiguration_ LogVerbosity_ marshalLogVerbosity
      unmarshalMap kv = Some (returned, None) →
    ∃ operations,
      createPatch DeveloperConfiguration_ LogVerbosity_ marshalLogVerbosity
        unmarshalMap marshalPatch PatchAddOp resetFlag kv
        (Some <$> (components ++ [allInfo]))
      = Some (marshalPatch operations) ∧
      operations
      = (if resetFlag && bool_decide (size (default ∅ returned) ≠ 0%nat)
         then [mkMarshalledOperation PatchAddOp
                 "/spec/configuration/developerConfiguration/logVerbosity"
                 (Some (verbosityAfter allInfo components
                          (if resetFlag
                              && bool_decide (size (default ∅ returned) ≠ 0%nat)
                           then ∅ else default ∅ returned)))]
         else [])
        ++ (if bool_decide
                 (size (verbosityAfter allInfo components
                          (if resetFlag
                              && bool_decide (size (default ∅ returned) ≠ 0%nat)
                           then ∅ else default ∅ returned)) ≠ 0%nat)
            then [mkMarshalledOperation PatchAddOp
                    "/spec/configuration/developerConfiguration/logVerbosity"
                    (Some (verbosityAfter allInfo components
                             (if resetFlag
                                 && bool_decide (size (default ∅ returned) ≠ 0%nat)
                              then ∅ else default ∅ returned)))]
            else [])).
  { intros returned Hhas. eexists. split; [| reflexivity].
    unfold createPatch. rewrite Hhas.
    destruct returned as [m0 |]; simpl.
    + destruct (resetFlag && bool_decide (size m0 ≠ 0%nat)); simpl.
      * rewrite (setVerbosity_populated _ _ _ 1%nat [m0; ∅] ∅) by done. simpl.
        destruct (bool_decide (size (verbosityAfter allInfo components ∅) ≠ _));
          reflexivity.
      * rewrite (setVerbosity_populated _ _ _ 0%nat [m0] m0) by done. simpl.
        destruct (bool_decide (size (verbosityAfter allInfo components m0) ≠ _));
          reflexivity.
    + rewrite (bool_decide_eq_false_2 (size (∅ : gmap string Z) ≠ 0%nat))
        by (rewrite map_size_empty; intros Hne; by apply Hne).
      rewrite andb_false_r. simpl.
      rewrite (setVerbosity_populated _ _ _ 0%nat [∅] ∅) by done. simpl.
      destruct (bool_decide (size (verbosityAfter allInfo components ∅) ≠ _));
        reflexivity. }
  split; [| split; [exact Herror |]].
  - rewrite <- (hasVerbosityInKV_panics DeveloperConfiguration_ LogVerbosity_
                  marshalLogVerbosity unmarshalMap kv).
    split.
    + intros Hrun.
      destruct (hasVerbosityInKV DeveloperConfiguration_ LogVerbosity_
                  marshalLogVerbosity unmarshalMap kv)
        as [[returned [err |]] |] eqn:Hhas; [| | done].
      * rewrite (Herror _ _ eq_refl) in Hrun. discriminate Hrun.
      * destruct (Hmarshals _ eq_refl) as (operations & Hsome & _).
        rewrite Hsome in Hrun. discriminate Hrun.
    + intros Hhas. unfold createPatch. by rewrite Hhas.
  - intros returned Hhas existing wiped final add.
    destruct (Hmarshals _ Hhas) as (operations & Hsome & ->). exact Hsome.
Qed.

(** ** getComponentByJSON and the show operation *)

Lemma getComponentByJSON_jsonNames (c : nat) key :
  jsonNames !! c = Some key → getComponentByJSON key = c.
Proof.
  intros Hkey.
  do 5 (destruct c as [| c]; [by injection Hkey as <- |]). done.
Qed.

(** X20: getComponentByJSON inverts the JSON names that setComponentInfo
    gives the five components, and sends every other key to virtAPI, the
    zero value of the map lookup: an unknown key cannot be told from
    "virtAPI". *)
Theorem getComponentByJSON_inverts vars :
  (∀ (c : nat) entry, (c < all)%nat → componentEntries vars !! c = Some entry →
     getComponentByJSON (jsonName entry) = c) ∧
  (∀ key, key ∉ jsonNames → getComponentByJSON key = virtAPI).
Proof.
  split.
  - intros c entry Hlt Hentry.
    do 5 (destruct c as [| c]; [by injection Hentry as <- |]).
    component_arith.
  - intros key Hnot. unfold getComponentByJSON.
    rewrite (not_elem_of_list_to_map_1 _ key); [reflexivity |]. exact Hnot.
Qed.

(** The conversion of a [uint] below the largest one to [int] is not the
    mark for a component that is not shown, and converts back. *)
Lemma toInt_uint v :
  0 ≤ v < MaxUint →
  bool_decide (proj1_sig (logverbosity_test.toInt v) = -1) = false ∧
  logverbosity_test.uint (logverbosity_test.toInt v) = v.
Proof.
  intros [Hpos Hmax]. unfold logverbosity_test.uint.
  change (proj1_sig (logverbosity_test.toInt v))
    with ((v + 2 ^ 63) mod 2 ^ 64 - 2 ^ 63).
  unfold MaxUint in Hmax.
  destruct (decide (v < 2 ^ 63)) as [Hlow | Hhigh].
  - rewrite (Z.mod_small (v + 2 ^ 63)) by lia.
    split; [apply bool_decide_eq_false; lia |].
    replace (v + 2 ^ 63 - 2 ^ 63) with v by lia.
    apply Z.mod_small. lia.
  - assert (Hwrap : (v + 2 ^ 63) mod 2 ^ 64 = v - 2 ^ 63).
    { symmetry. apply (Z.mod_unique _ _ 1); lia. }
    rewrite Hwrap. split; [apply bool_decide_eq_false; lia |].
    symmetry. apply (Z.mod_unique _ _ (-1)); lia.
Qed.

(** X21: for a show operation on a populated array whose five components
    carry the component names, and verbosities below the largest [uint]
    (which as an [int] is -1, the oracle's mark for a component that is
    not shown), createOutputMessage writes what the test oracle expects:
    a line "<name>=<verbosity>" for each component that is a show target,
    or for all five when "all" is a show target, in component order, and
    nothing for the others. *)
Theorem createOutputMessage_matches_oracle components allInfo verbosityVal :
  name <$> components = logverbosity_test.componentToName →
  length verbosityVal = 5%nat →
  Forall (λ v, 0 ≤ v < MaxUint) verbosityVal →
  createOutputMessage verbosityVal (Some <$> (components ++ [allInfo]))
  = logverbosity_test.createOutputMessage
      (expectedOutput components allInfo verbosityVal).
Proof.
  intros Hnames Hlen Huint.
  destruct components as [| c0 [| c1 [| c2 [| c3 [| c4 [| ? ?]]]]]]; try done.
  destruct verbosityVal as [| v0 [| v1 [| v2 [| v3 [| v4 [| ? ?]]]]]]; try done.
  injection Hnames as Hn0 Hn1 Hn2 Hn3 Hn4.
  assert (Hmark : bool_decide (proj1_sig (logverbosity_test.toInt (-1)) = -1) = true)
    by reflexivity.
  apply Forall_cons in Huint as [[Hb0 Hu0]%toInt_uint Huint].
  apply Forall_cons in Huint as [[Hb1 Hu1]%toInt_uint Huint].
  apply Forall_cons in Huint as [[Hb2 Hu2]%toInt_uint Huint].
  apply Forall_cons in Huint as [[Hb3 Hu3]%toInt_uint Huint].
  apply Forall_cons in Huint as [[Hb4 Hu4]%toInt_uint Huint].
  unfold createOutputMessage, logverbosity_test.createOutputMessage.
  apply forEach_ext. intros message c Hin.
  unfold upTo in Hin. change (all - virtAPI)%nat with 5%nat in Hin.
  change virtAPI with 0%nat in Hin. change all with 5%nat.
  unfold expectedOutput, logverbosity_test.componentToName.
  repeat (apply elem_of_cons in Hin as [-> | Hin]);
    [| | | | | by apply elem_of_nil in Hin];
    rewrite !deref_populated; cbn [lookup list_lookup app zip_with mbind option_bind
                                     fmap option_fmap option_map orElse];
    [destruct (showFlag c0) | destruct (showFlag c1) | destruct (showFlag c2)
     | destruct (showFlag c3) | destruct (showFlag c4)];
    destruct (showFlag allInfo); cbn [orb orElse mbind option_bind];
    rewrite ?Hn0, ?Hn1, ?Hn2, ?Hn3, ?Hn4, ?Hb0, ?Hb1, ?Hb2, ?Hb3, ?Hb4,
      ?Hu0, ?Hu1, ?Hu2, ?Hu3, ?Hu4, ?Hmark; reflexivity.
Qed.

Lemma jsonNames_NoDup : NoDup jsonNames.
Proof. apply (bool_decide_unpack _). by vm_compute. Qed.

(** The loop that overwrites the defaults, for keys that are JSON names
    of components and occur once. *)
Lemma overwrite_loop entries : ∀ verbosityVal : list Z,
  length verbosityVal = 5%nat →
  (∀ key value, (key, value) ∈ entries → key ∈ jsonNames) →
  NoDup (fst <$> entries) →
  ∃ verbosityVal',
    forEach (λ (verbosityVal : list Z) '(key, value),
               if bool_decide (getComponentByJSON key < length verbosityVal)%nat
               then Some (<[getComponentByJSON key := value]> verbosityVal)
               else None)
            verbosityVal entries
    = Some verbosityVal' ∧
    length verbosityVal' = 5%nat ∧
    ∀ (c : nat) key, jsonNames !! c = Some key →
      (∀ value, (key, value) ∈ entries → verbosityVal' !! c = Some value) ∧
      (key ∉ fst <$> entries → verbosityVal' !! c = verbosityVal !! c).
Proof.
  induction entries as [| [key value] entries IH]; intros verbosityVal Hlen Hkeys Hnodup.
  { exists verbosityVal. split; [done |]. split; [done |].
    intros c key Hkey. split; [| done]. intros value Hin. by apply elem_of_nil in Hin. }
  rewrite fmap_cons in Hnodup. apply NoDup_cons in Hnodup as [Hfresh Hnodup].
  simpl in Hfresh.
  destruct (list_elem_of_lookup_1 jsonNames key) as [ck Hck]; [eapply Hkeys; left |].
  pose proof (getComponentByJSON_jsonNames _ _ Hck) as Hindex.
  assert (Hlt : (ck < 5)%nat) by (by apply lookup_lt_Some in Hck).
  destruct (IH (<[ck := value]> verbosityVal))
    as (result & Hresult & Hlen' & Hfilled); [by rewrite length_insert | | done |].
  { intros key' value' Hin. eapply Hkeys. by right. }
  exists result. cbn [forEach]. rewrite Hindex.
  rewrite bool_decide_eq_true_2 by lia. cbn [mbind option_bind].
  split; [done |]. split; [done |].
  intros c key' Hkey'. destruct (Hfilled c key' Hkey') as [Hlater Hearlier]. split.
  - intros value' Hin. apply elem_of_cons in Hin as [[= -> ->] | Hin]; [| by apply Hlater].
    rewrite Hearlier by done.
    rewrite (NoDup_lookup _ _ _ _ jsonNames_NoDup Hkey' Hck).
    apply list_lookup_insert_eq. lia.
  - intros Hnot. rewrite fmap_cons in Hnot. apply not_elem_of_cons in Hnot as [Hne Hnot].
    rewrite Hearlier by done. apply list_lookup_insert_ne.
    intros <-. apply Hne. simpl. rewrite Hck in Hkey'. by injection Hkey'.
Qed.

(** X22: createShowMessage panics when the resource is nil or has no
    developerConfiguration, the only case in which hasVerbosityInKV gives
    no result. It hands an error of hasVerbosityInKV back with no
    message. Otherwise, when the keys of the map found in the resource
    are JSON names of components, the verbosities it shows are the ones
    of the map, with the default of the component where the map has none;
    the order in which the map is ranged over does not matter. A missing
    or empty map shows the five defaults. *)
Theorem createShowMessage_fills_defaults
    {KubeVirt DeveloperConfiguration LogVerbosity : Type}
    (DeveloperConfiguration_ : KubeVirt → option DeveloperConfiguration)
    (LogVerbosity_ : DeveloperConfiguration → option LogVerbosity)
    (marshalLogVerbosity : option LogVerbosity → list byte * option error)
    (unmarshalMap : list byte → option (gmap string Z) →
                    option (gmap string Z) * option error)
    (defaultAPI defaultController defaultHandler defaultLauncher defaultOperator : Z)
    (rangeOrder : gmap string Z → list (string * Z)) kv componentInfo :
  (∀ m, rangeOrder m ≡ₚ map_to_list m) →
  (hasVerbosityInKV DeveloperConfiguration_ LogVerbosity_ marshalLogVerbosity
     unmarshalMap kv = None
   ↔ kv = None ∨ ∃ kv', kv = Some kv' ∧ DeveloperConfiguration_ kv' = None) ∧
  (kv = None ∨ (∃ kv', kv = Some kv' ∧ DeveloperConfiguration_ kv' = None) →
   createShowMessage DeveloperConfiguration_ LogVerbosity_ marshalLogVerbosity
     unmarshalMap defaultAPI defaultController defaultHandler defaultLauncher
     defaultOperator rangeOrder kv componentInfo
   = None) ∧
  (∀ returned err,
     hasVerbosityInKV DeveloperConfiguration_ LogVerbosity_ marshalLogVerbosity
       unmarshalMap kv = Some (returned, Some err) →
     createShowMessage DeveloperConfiguration_ LogVerbosity_ marshalLogVerbosity
       unmarshalMap defaultAPI defaultController defaultHandler defaultLauncher
       defaultOperator rangeOrder kv componentInfo
     = Some (None, Some err)) ∧
  (∀ returned,
     hasVerbosityInKV DeveloperConfiguration_ LogVerbosity_ marshalLogVerbosity
       unmarshalMap kv = Some (returned, None) →
     let m := default ∅ returned in
     (∀ key, is_Some (m !! key) → key ∈ jsonNames) →
     createShowMessage DeveloperConfiguration_ LogVerbosity_ marshalLogVerbosity
       unmarshalMap defaultAPI defaultController defaultHandler defaultLauncher
       defaultOperator rangeOrder kv componentInfo
     = (message ← createOutputMessage
                    [ default defaultAPI (m !! "virtAPI");
                      default defaultController (m !! "virtController");
                      default defaultHandler (m !! "virtHandler");
                      default defaultLauncher (m !! "virtLauncher");
                      default defaultOperator (m !! "virtOperator") ]
                    componentInfo;
        Some (Some message, None))).
Proof.
  intros Horder. split; [apply hasVerbosityInKV_panics |]. split.
  { intros Hnil.
    apply (hasVerbosityInKV_panics DeveloperConfiguration_ LogVerbosity_
             marshalLogVerbosity unmarshalMap) in Hnil.
    unfold createShowMessage. by rewrite Hnil. }
  split.
  - intros returned err Hhas. unfold createShowMessage. by rewrite Hhas.
  - intros returned Hhas m Hkeys. unfold createShowMessage. rewrite Hhas.
    cbn [mbind option_bind].
    set (defaults := [defaultAPI; defaultController; defaultHandler; defaultLauncher;
                      defaultOperator]).
    set (entries := from_option rangeOrder [] returned).
    assert (Hentries : ∀ key value, (key, value) ∈ entries ↔ m !! key = Some value).
    { intros key value. subst entries m. destruct returned as [m0 |]; simpl.
      - by rewrite Horder, elem_of_map_to_list.
      - rewrite lookup_empty. split; [| done]. intros Hin. by apply elem_of_nil in Hin. }
    assert (Hnodup : NoDup (fst <$> entries)).
    { subst entries. destruct returned as [m0 |]; simpl; [| constructor].
      rewrite Horder. apply NoDup_fst_map_to_list. }
    destruct (overwrite_loop entries defaults) as (filled & Hloop & Hlen & Hfilled);
      [done | | done |].
    { intros key value Hin. apply Hkeys. exists value. by apply Hentries. }
    assert (Hvalues : ∀ (c : nat) key d, jsonNames !! c = Some key →
              defaults !! c = Some d → filled !! c = Some (default d (m !! key))).
    { intros c key d Hkey Hd. destruct (Hfilled c key Hkey) as [Hset Hkept].
      destruct (m !! key) as [value |] eqn:Hm; simpl.
      - apply Hset. by apply Hentries.
      - rewrite Hkept; [done |]. intros Hin.
        apply list_elem_of_fmap in Hin as ([key' value] & -> & Hin).
        apply Hentries in Hin. simpl in Hm. rewrite Hm in Hin. done. }
    assert (Hfilled' : filled = [ default defaultAPI (m !! "virtAPI");
                                  default defaultController (m !! "virtController");
                                  default defaultHandler (m !! "virtHandler");
                                  default defaultLauncher (m !! "virtLauncher");
                                  default defaultOperator (m !! "virtOperator") ]).
    { apply list_eq. intros c.
      do 5 (destruct c as [| c]; [by erewrite Hvalues |]).
      apply lookup_ge_None_2. lia. }
    case_bool_decide as Hsize.
    + fold entries. rewrite Hloop. cbn [mbind option_bind]. by rewrite Hfilled'.
    + assert (Hempty : entries = []).
      { subst entries. destruct returned as [m0 |]; [| done]. simpl in *.
        assert (m0 = ∅) as -> by (apply map_size_empty_iff; lia).
        apply Permutation_nil_r. by rewrite Horder, map_to_list_empty. }
      rewrite Hempty in Hloop. injection Hloop as <-.
      cbn [mbind option_bind]. by rewrite Hfilled'.
Qed.

(** ** From the command line to the operation *)

(** X23: setComponentInfo and findOperation fit together. For a command
    line whose given flags carry no value or a verbosity from 0 to 9, the
    operation found on the array that setComponentInfo fills is decided by
    the flags alone: let "show" say that some given flag carries no value
    and "set" that some given flag carries one; then show with set, or
    show with reset, is an error, show alone is the show operation, set or
    reset is the set operation, and nothing given is nop. No step
    panics. *)
Theorem findOperation_of_flags Changed vars componentInfo :
  length componentInfo = virtComponentNum →
  Forall (λ entry, isUint (verbosity entry)) (componentEntries vars) →
  Forall (λ entry, outOfRange Changed entry = false) (componentEntries vars) →
  let isShow :=
    existsb (λ entry, Changed (name entry) && bool_decide (verbosity entry = noArg))
            (componentEntries vars) in
  let isSet :=
    existsb (λ entry, Changed (name entry) && bool_decide (verbosity entry ≠ noArg))
            (componentEntries vars) in
  (filled ← setComponentInfo Changed vars componentInfo;
   findOperation (resetFlag vars) (fst filled))
  = Some (if isShow && isSet
          then (-1, Some (errorString "show and set cannot coexist"))
          else if isShow && resetFlag vars
          then (-1, Some (errorString "show and reset cannot coexist"))
          else if isShow then (show, None)
          else if isSet || resetFlag vars then (set, None)
          else (nop, None)).
Proof.
  intros Hlen Huint Hrange isShow isSet.
  rewrite setComponentInfo_populates by done. cbn [mbind option_bind fst].
  unfold findOperation, hasTarget, upTo.
  change (S all - virtAPI)%nat
    with (length (flagged Changed <$> componentEntries vars)).
  rewrite (hasTarget_from_populated _ (flagged Changed <$> componentEntries vars) 0)
    by (apply flagged_exclusive || done).
  cbn [mbind option_bind orb].
  assert (existsb showFlag (flagged Changed <$> componentEntries vars) = isShow)
    as -> by done.
  assert (existsb setFlag (flagged Changed <$> componentEntries vars) = isSet)
    as -> by done.
  by destruct isShow, isSet, (resetFlag vars).
Qed.

End logverbosity_properties.

(** * The log-verbosity properties on command lines of the tests *)

Lemma findOperation_classifies_witness :
  logverbosity.findOperation false
    (Some <$> (logverbosity_wording.flagged LogFixture.setTwoChanged
                 <$> logverbosity.componentEntries LogFixture.setTwo))
  = Some (logverbosity.set, None) ∧
  logverbosity.findOperation true
    (Some <$> (logverbosity_wording.flagged LogFixture.setTwoChanged
                 <$> logverbosity.componentEntries LogFixture.showTwo))
  = Some (-1, Some (errorString "show and reset cannot coexist")).
Proof.
  split.
  - edestruct (findOperation_classifies false
                 (logverbosity_wording.flagged LogFixture.setTwoChanged
                    <$> logverbosity.componentEntries LogFixture.setTwo))
      as [_ Hoperation]; [reflexivity | repeat constructor |].
    exact Hoperation.
  - edestruct (findOperation_classifies true
                 (logverbosity_wording.flagged LogFixture.setTwoChanged
                    <$> logverbosity.componentEntries LogFixture.showTwo))
      as [_ Hoperation]; [reflexivity | repeat constructor |].
    exact Hoperation.
Defined.

Lemma setComponentInfo_fills_witness :
  logverbosity.setComponentInfo LogFixture.setTwoChanged LogFixture.setTwo
    LogFixture.unset
  = Some (Some <$> [ logverbosity.mkInfo "virt-api" "virtAPI" logverbosity.noFlag
                       false false;
                     logverbosity.mkInfo "virt-controller" "virtController" 0
                       false true;
                     logverbosity.mkInfo "virt-handler" "virtHandler" 9 false true;
                     logverbosity.mkInfo "virt-launcher" "virtLauncher"
                       logverbosity.noFlag false false;
                     logverbosity.mkInfo "virt-operator" "virtOperator"
                       logverbosity.noFlag false false;
                     logverbosity.mkInfo "all" "" logverbosity.noFlag false false ],
          None).
Proof.
  apply (setComponentInfo_fills LogFixture.setTwoChanged LogFixture.setTwo
           LogFixture.unset).
  - reflexivity.
  - repeat constructor; by vm_compute.
  - repeat constructor.
Defined.

Lemma setComponentInfo_rejects_witness :
  ∃ result,
    logverbosity.setComponentInfo LogFixture.tooHighChanged LogFixture.tooHigh
      LogFixture.unset
    = Some (result, Some (Errorf "virt-handler: log verbosity must be 0-9")) ∧
    result !! 2%nat = Some None ∧ result !! 5%nat = Some None.
Proof.
  destruct (setComponentInfo_rejects LogFixture.tooHighChanged LogFixture.tooHigh
              LogFixture.unset 2
              (logverbosity.mkInfo "virt-handler" "virtHandler" 10 false false))
    as (result & Hresult & Hkept).
  - reflexivity.
  - repeat constructor; by vm_compute.
  - reflexivity.
  - reflexivity.
  - intros j earlier Hlt Hearlier.
    destruct j as [| [| j]]; [| | lia]; by injection Hearlier as <-.
  - exists result. split; [exact Hresult |].
    split; rewrite Hkept by lia; reflexivity.
Defined.

Lemma setVerbosity_writes_requested_witness :
  ∃ after,
    logverbosity.setVerbosity false (Some 0%nat)
      (Some <$> (take 5 (logverbosity_wording.flagged LogFixture.setTwoChanged
                           <$> logverbosity.componentEntries LogFixture.setTwo)
                 ++ [logverbosity.mkInfo "all" "" logverbosity.noFlag false false]))
      [LogFixture.existing]
    = Some [after] ∧
    after !! "virtAPI" = Some 5 ∧ after !! "virtController" = Some 0 ∧
    after !! "virtHandler" = Some 9 ∧ after !! "nodeVerbosity" = None.
Proof.
  edestruct (setVerbosity_writes_requested false
               (take 5 (logverbosity_wording.flagged LogFixture.setTwoChanged
                          <$> logverbosity.componentEntries LogFixture.setTwo))
               (logverbosity.mkInfo "all" "" logverbosity.noFlag false false)
               0 [LogFixture.existing] LogFixture.existing)
    as (Hstore & Hother & Hcomponent).
  - reflexivity.
  - intros info v Hin Hrequested.
    repeat (apply elem_of_cons in Hin as [-> | Hin];
            [by injection Hrequested as <- || discriminate Hrequested |]).
    by apply elem_of_nil in Hin.
  - reflexivity.
  - eexists. split; [exact Hstore |].
    assert (Hnodup : NoDup (logverbosity.jsonName <$>
              take 5 (logverbosity_wording.flagged LogFixture.setTwoChanged
                        <$> logverbosity.componentEntries LogFixture.setTwo)))
      by (apply (bool_decide_unpack _); by vm_compute).
    split; [| split; [| split]].
    + apply (Hcomponent Hnodup
               (logverbosity.mkInfo "virt-api" "virtAPI" logverbosity.noFlag
                  false false)). left.
    + apply (Hcomponent Hnodup
               (logverbosity.mkInfo "virt-controller" "virtController" 0
                  false true)). right. left.
    + apply (Hcomponent Hnodup
               (logverbosity.mkInfo "virt-handler" "virtHandler" 9 false true)).
      right. right. left.
    + rewrite Hother; [reflexivity |].
      apply (bool_decide_unpack _). by vm_compute.
Defined.

Lemma createPatch_operations_witness :
  logverbosity.createPatch LogFixture.developerConfiguration LogFixture.logVerbosity
    LogFixture.marshal LogFixture.unmarshal
    LogFixture.marshalPatch "add" true (Some LogFixture.withVerbosity)
    (Some <$> (take 5 (logverbosity_wording.flagged LogFixture.resetThenSetChanged
                         <$> logverbosity.componentEntries LogFixture.resetThenSet)
               ++ [logverbosity.mkInfo "all" "" logverbosity.noFlag false false]))
  = Some ([x02; x02], None) ∧
  logverbosity.createPatch LogFixture.developerConfiguration LogFixture.logVerbosity
    (λ _, LogFixture.broken) LogFixture.unmarshal
    LogFixture.marshalPatch "add" true (Some LogFixture.withVerbosity)
    (Some <$> (take 5 (logverbosity_wording.flagged LogFixture.resetThenSetChanged
                         <$> logverbosity.componentEntries LogFixture.resetThenSet)
               ++ [logverbosity.mkInfo "all" "" logverbosity.noFlag false false]))
  = Some ([], Some (errorString "json: unsupported value")) ∧
  logverbosity.createPatch LogFixture.developerConfiguration LogFixture.logVerbosity
    LogFixture.marshal LogFixture.unmarshal
    LogFixture.marshalPatch "add" true
    (Some LogFixture.withoutDeveloperConfiguration)
    (Some <$> (take 5 (logverbosity_wording.flagged LogFixture.resetThenSetChanged
                         <$> logverbosity.componentEntries LogFixture.resetThenSet)
               ++ [logverbosity.mkInfo "all" "" logverbosity.noFlag false false]))
  = None.
Proof.
  assert (Hsentinel : ∀ info v,
            info ∈ take 5 (logverbosity_wording.flagged
                             LogFixture.resetThenSetChanged
                             <$> logverbosity.componentEntries
                                   LogFixture.resetThenSet) →
            logverbosity_wording.requested
              (logverbosity.mkInfo "all" "" logverbosity.noFlag false false) info
            = Some v →
            v ≠ logverbosity.MaxUint).
  { intros info v Hin Hrequested.
    repeat (apply elem_of_cons in Hin as [-> | Hin];
            [by injection Hrequested as <- || discriminate Hrequested |]).
    by apply elem_of_nil in Hin. }
  split; [| split].
  - edestruct (createPatch_operations LogFixture.developerConfiguration
                 LogFixture.logVerbosity LogFixture.marshal LogFixture.unmarshal
                 LogFixture.marshalPatch "add" true (Some LogFixture.withVerbosity))
      as (_ & _ & Hpatch); [| exact Hsentinel |]; [reflexivity |].
    rewrite (Hpatch (Some LogFixture.existing)); [by vm_compute |].
    by vm_compute.
  - edestruct (createPatch_operations LogFixture.developerConfiguration
                 LogFixture.logVerbosity
                 (λ _ : option LogFixture.LogVerbosity, LogFixture.broken)
                 LogFixture.unmarshal LogFixture.marshalPatch "add" true
                 (Some LogFixture.withVerbosity))
      as (_ & Herror & _); [| exact Hsentinel |]; [reflexivity |].
    by apply (Herror None).
  - edestruct (createPatch_operations LogFixture.developerConfiguration
                 LogFixture.logVerbosity LogFixture.marshal LogFixture.unmarshal
                 LogFixture.marshalPatch "add" true
                 (Some LogFixture.withoutDeveloperConfiguration))
      as (Hpanics & _ & _); [| exact Hsentinel |]; [reflexivity |].
    apply Hpanics. right. by exists LogFixture.withoutDeveloperConfiguration.
Defined.

Lemma getComponentByJSON_inverts_witness :
  logverbosity.getComponentByJSON "virtLauncher" = logverbosity.virtLauncher ∧
  logverbosity.getComponentByJSON "nodeVerbosity" = logverbosity.virtAPI.
Proof.
  destruct (getComponentByJSON_inverts LogFixture.setTwo) as [Hknown Hunknown].
  split.
  - apply (Hknown 3%nat
             (logverbosity.mkInfo "virt-launcher" "virtLauncher"
                logverbosity.noFlag false false)); [| reflexivity].
    unfold logverbosity.all. lia.
  - apply Hunknown. apply (bool_decide_unpack _). by vm_compute.
Defined.

Lemma createOutputMessage_matches_oracle_witness :
  logverbosity.createOutputMessage [5; 6; 2; 3; 4]
    (Some <$> (take 5 (logverbosity_wording.flagged LogFixture.setTwoChanged
                         <$> logverbosity.componentEntries LogFixture.showTwo)
               ++ [logverbosity.mkInfo "all" "" logverbosity.noFlag false false]))
  = logverbosity_test.createOutputMessage
      (logverbosity_test.toInt <$> [-1; 6; 2; -1; -1]).
Proof.
  rewrite (createOutputMessage_matches_oracle
             (take 5 (logverbosity_wording.flagged LogFixture.setTwoChanged
                        <$> logverbosity.componentEntries LogFixture.showTwo))
             (logverbosity.mkInfo "all" "" logverbosity.noFlag false false)
             [5; 6; 2; 3; 4]).
  - reflexivity.
  - reflexivity.
  - reflexivity.
  - repeat constructor; by vm_compute.
Defined.

Lemma createShowMessage_fills_defaults_witness :
  logverbosity.createShowMessage LogFixture.developerConfiguration
    LogFixture.logVerbosity LogFixture.marshal LogFixture.unmarshal 2 2 2 2 2
    LogFixture.backwards (Some LogFixture.withVerbosity)
    (Some <$> (logverbosity_wording.flagged LogFixture.setTwoChanged
                 <$> logverbosity.componentEntries LogFixture.showTwo))
  = Some (Some ("virt-controller=6" +:+ logverbosity.newline
                +:+ "virt-handler=2" +:+ logverbosity.newline), None) ∧
  logverbosity.createShowMessage LogFixture.developerConfiguration
    LogFixture.logVerbosity LogFixture.marshal LogFixture.unmarshal 2 2 2 2 2
    LogFixture.backwards (Some LogFixture.withoutDeveloperConfiguration)
    (Some <$> (logverbosity_wording.flagged LogFixture.setTwoChanged
                 <$> logverbosity.componentEntries LogFixture.showTwo))
  = None.
Proof.
  split.
  - edestruct (createShowMessage_fills_defaults LogFixture.developerConfiguration
                 LogFixture.logVerbosity LogFixture.marshal LogFixture.unmarshal
                 2 2 2 2 2 LogFixture.backwards (Some LogFixture.withVerbosity)
                 (Some <$> (logverbosity_wording.flagged LogFixture.setTwoChanged
                              <$> logverbosity.componentEntries LogFixture.showTwo)))
      as (_ & _ & _ & Hshown).
    { intros m. unfold LogFixture.backwards. apply reverse_Permutation. }
    rewrite (Hshown (Some LogFixture.existing)); [by vm_compute | by vm_compute |].
    intros key [value Hvalue]. simpl in Hvalue.
    destruct (decide (key ∈ logverbosity_wording.jsonNames)) as [| Hnot]; [done |].
    exfalso. unfold LogFixture.existing in Hvalue.
    rewrite (not_elem_of_list_to_map_1 _ key) in Hvalue; [done |].
    intros Hin. apply Hnot. simpl in Hin.
    repeat (apply elem_of_cons in Hin as [-> | Hin];
            [apply (bool_decide_unpack _); by vm_compute |]).
    by apply elem_of_nil in Hin.
  - edestruct (createShowMessage_fills_defaults LogFixture.developerConfiguration
                 LogFixture.logVerbosity LogFixture.marshal LogFixture.unmarshal
                 2 2 2 2 2 LogFixture.backwards
                 (Some LogFixture.withoutDeveloperConfiguration)
                 (Some <$> (logverbosity_wording.flagged LogFixture.setTwoChanged
                              <$> logverbosity.componentEntries LogFixture.showTwo)))
      as (_ & Hpanics & _).
    { intros m. unfold LogFixture.backwards. apply reverse_Permutation. }
    apply Hpanics. right. by exists LogFixture.withoutDeveloperConfiguration.
Defined.

Lemma findOperation_of_flags_witness :
  (filled ← logverbosity.setComponentInfo LogFixture.resetThenSetChanged
              LogFixture.resetThenSet LogFixture.unset;
   logverbosity.findOperation true (fst filled))
  = Some (logverbosity.set, None) ∧
  (filled ← logverbosity.setComponentInfo (λ flag, bool_decide (flag = "virt-launcher"))
              (logverbosity.mkFlagVars logverbosity.noFlag logverbosity.noFlag
                 logverbosity.noFlag logverbosity.noArg logverbosity.noFlag
                 logverbosity.noFlag true)
              LogFixture.unset;
   logverbosity.findOperation true (fst filled))
  = Some (-1, Some (errorString "show and reset cannot coexist")).
Proof.
  split.
  - refine (findOperation_of_flags LogFixture.resetThenSetChanged
              LogFixture.resetThenSet LogFixture.unset eq_refl _ _);
      [repeat constructor; by vm_compute | repeat constructor].
  - refine (findOperation_of_flags (λ flag, bool_decide (flag = "virt-launcher"))
              (logverbosity.mkFlagVars logverbosity.noFlag logverbosity.noFlag
                 logverbosity.noFlag logverbosity.noArg logverbosity.noFlag
                 logverbosity.noFlag true)
              LogFixture.unset eq_refl _ _);
      [repeat constructor; by vm_compute | repeat constructor].
Defined.

(** * Properties of the options-map revision of the log-verbosity command *)

Section logverbosity_options_properties.

Import logverbosity logverbosity_wording logverbosity_options
  logverbosity_options_wording.

(** X24: the three name tables agree: the JSON name found for the name of
    a component is the JSON name of the component, for all six; a name
    that is no flag name has the empty JSON name, and so has a component
    out of range. *)
Theorem name_tables_agree :
  (∀ component : nat, (component ≤ all)%nat →
     getJSONNameByComponentName (getComponentNameByVirtComponent component)
     = getJSONNameByVirtComponent component) ∧
  (∀ componentName, componentName ∉ componentNames →
     getJSONNameByComponentName componentName = "") ∧
  (∀ component : nat, (all < component)%nat →
     getComponentNameByVirtComponent component = "" ∧
     getJSONNameByVirtComponent component = "").
Proof.
  split; [| split].
  - intros component Hle.
    do 6 (destruct component as [| component]; [reflexivity |]).
    unfold all in Hle. lia.
  - intros componentName Hnot. unfold getJSONNameByComponentName.
    rewrite (not_elem_of_list_to_map_1 _ componentName); [reflexivity |].
    exact Hnot.
  - intros component Hlt.
    do 6 (destruct component as [| component]; [unfold all in Hlt; lia |]).
    unfold getComponentNameByVirtComponent, getJSONNameByVirtComponent.
    rewrite !(not_elem_of_list_to_map_1 _ (S (S (S (S (S (S component)))))));
      [done | |];
      intros Hin; simpl in Hin;
      repeat (apply elem_of_cons in Hin as [Heq | Hin]; [discriminate Heq |]);
      by apply elem_of_nil in Hin.
Qed.

Lemma componentNames_NoDup :
  NoDup (getComponentNameByVirtComponent <$> upTo virtAPI (S all)).
Proof. apply (bool_decide_unpack _). by vm_compute. Qed.

Lemma componentNames_table :
  getComponentNameByVirtComponent <$> upTo virtAPI (S all) = componentNames.
Proof. reflexivity. Qed.

(** The loop of findOperation on flags that are in range. *)
Lemma findOperation_from_ok Changed verbosities components :
  ∀ options isShow isSet,
  NoDup (getComponentNameByVirtComponent <$> components) →
  (∀ c : nat, c ∈ components →
     ∃ v, verbosities !! c = Some v ∧
          (Changed (getComponentNameByVirtComponent c) = true →
           v = noArg ∨ v ≤ maxVerbosity)) →
  ∃ options',
    findOperation_from Changed verbosities components (options, isShow, isSet)
    = Some (options',
            isShow || existsb (λ c, Changed (getComponentNameByVirtComponent c)
                                    && bool_decide (default 0 (verbosities !! c) = noArg))
                              components,
            isSet || existsb (λ c, Changed (getComponentNameByVirtComponent c)
                                   && bool_decide (default 0 (verbosities !! c) ≠ noArg))
                             components,
            None) ∧
    (∀ c : nat, c ∈ components →
       options' !! getComponentNameByVirtComponent c
       = if Changed (getComponentNameByVirtComponent c)
         then verbosities !! c
         else options !! getComponentNameByVirtComponent c) ∧
    (∀ key, key ∉ getComponentNameByVirtComponent <$> components →
       options' !! key = options !! key).
Proof.
  induction components as [| c components IH]; intros options isShow isSet Hnodup Hfine.
  { exists options. simpl. rewrite !orb_false_r. split; [done |].
    split; [| done]. intros c Hin. by apply elem_of_nil in Hin. }
  rewrite fmap_cons in Hnodup. apply NoDup_cons in Hnodup as [Hfresh Hnodup].
  destruct (Hfine c) as (v & Hv & Hrange); [left |].
  cbn [findOperation_from existsb].
  destruct (Changed (getComponentNameByVirtComponent c)) eqn:Hchanged; cbn [negb andb].
  - unfold virtComponent in *. rewrite Hv. cbn [mbind option_bind default].
    assert (Hok : bool_decide (v ≠ noArg) && bool_decide (maxVerbosity < v) = false).
    { destruct (Hrange eq_refl) as [-> | Hle].
      - by rewrite bool_decide_eq_false_2 by (by intros []).
      - rewrite (bool_decide_eq_false_2 (maxVerbosity < v)) by lia.
        apply andb_false_r. }
    rewrite Hok.
    destruct (IH (<[getComponentNameByVirtComponent c := v]> options)
                 (isShow || bool_decide (v = noArg))
                 (isSet || bool_decide (v ≠ noArg)) Hnodup)
      as (options' & Hrun & Hgiven & Hkept).
    { intros c' Hin. apply Hfine. by right. }
    exists options'. rewrite Hrun, !orb_assoc. split; [done |]. split.
    + intros c' [-> | Hin]%elem_of_cons.
      * rewrite Hchanged, Hkept by done. by rewrite lookup_insert_eq.
      * rewrite (Hgiven c' Hin).
        destruct (Changed (getComponentNameByVirtComponent c')); [done |].
        rewrite lookup_insert_ne; [done |].
        intros Heq. apply Hfresh. rewrite Heq. by apply list_elem_of_fmap_2.
    + intros key Hnot. rewrite fmap_cons, not_elem_of_cons in Hnot.
      destruct Hnot as [Hne Hnot]. rewrite (Hkept key Hnot).
      by rewrite lookup_insert_ne.
  - destruct (IH options isShow isSet Hnodup) as (options' & Hrun & Hgiven & Hkept).
    { intros c' Hin. apply Hfine. by right. }
    exists options'. rewrite Hrun. split; [done |]. split.
    + intros c' [-> | Hin]%elem_of_cons.
      * rewrite Hchanged. by apply Hkept.
      * by apply Hgiven.
    + intros key Hnot. rewrite fmap_cons, not_elem_of_cons in Hnot.
      destruct Hnot as [_ Hnot]. by apply Hkept.
Qed.

Lemma showAsked_components Changed (v0 v1 v2 v3 v4 v5 : Z) :
  existsb (λ c : nat, Changed (getComponentNameByVirtComponent c)
                && bool_decide (default 0 ([v0; v1; v2; v3; v4; v5] !! c) = noArg))
          (upTo virtAPI (S all))
  = showAsked Changed [v0; v1; v2; v3; v4; v5].
Proof. reflexivity. Qed.

Lemma setAsked_components Changed (v0 v1 v2 v3 v4 v5 : Z) :
  existsb (λ c : nat, Changed (getComponentNameByVirtComponent c)
                && bool_decide (default 0 ([v0; v1; v2; v3; v4; v5] !! c) ≠ noArg))
          (upTo virtAPI (S all))
  = setAsked Changed [v0; v1; v2; v3; v4; v5].
Proof. reflexivity. Qed.

Lemma six_elements {A} (l : list A) :
  length l = 6%nat → ∃ a b c d e f, l = [a; b; c; d; e; f].
Proof.
  intros Hlen. do 6 (destruct l as [| ? l]; [discriminate Hlen |]).
  destruct l; [| discriminate Hlen]. by repeat eexists.
Qed.

(** X25: when every flag that was given carries no value or a verbosity
    of at most 9, findOperation records exactly the given flags in the
    options, each with its value, and leaves the other entries alone. The
    operation is show when some flag came without a value and none with
    one, set when some flag came with a value or a reset was asked and
    none came without, nop when nothing was asked, and the error "only
    show or set is allowed" when both were. *)
Theorem findOperation_options Changed verbosities isReset options :
  length verbosities = virtComponentNum →
  (∀ name v, (name, v) ∈ zip componentNames verbosities →
     Changed name = true → v = noArg ∨ v ≤ maxVerbosity) →
  ∃ options',
    findOperation Changed verbosities isReset options
    = Some (options',
            if showAsked Changed verbosities
               && (setAsked Changed verbosities || isReset)
            then (nop, Some (errorString "only show or set is allowed"))
            else if showAsked Changed verbosities then (show, None)
            else if setAsked Changed verbosities || isReset then (set, None)
            else (nop, None)) ∧
    (∀ c : nat, (c ≤ all)%nat →
       options' !! getComponentNameByVirtComponent c
       = if Changed (getComponentNameByVirtComponent c)
         then verbosities !! c
         else options !! getComponentNameByVirtComponent c) ∧
    (∀ key, key ∉ componentNames → options' !! key = options !! key).
Proof.
  intros Hlen Hrange.
  destruct (six_elements verbosities Hlen) as (v0 & v1 & v2 & v3 & v4 & v5 & ->).
  destruct (findOperation_from_ok Changed [v0; v1; v2; v3; v4; v5]
              (upTo virtAPI (S all)) options false false componentNames_NoDup)
    as (options' & Hrun & Hgiven & Hkept).
  { intros c Hin.
    assert (Hzip : ∀ v, [v0; v1; v2; v3; v4; v5] !! c = Some v →
              (getComponentNameByVirtComponent c, v)
              ∈ zip componentNames [v0; v1; v2; v3; v4; v5]).
    { intros v Hv.
      do 6 (destruct c as [| c];
            [injection Hv as <-; simpl; repeat constructor |]).
      discriminate Hv. }
    do 6 (destruct c as [| c]; [eexists; split; [reflexivity |];
                                 intros Hc; eapply Hrange; [by apply Hzip | done] |]).
    exfalso. unfold upTo, virtAPI, all in Hin. apply elem_of_seq in Hin. lia. }
  exists options'. unfold findOperation. rewrite Hrun.
  rewrite showAsked_components, setAsked_components. cbn [orb mbind option_bind].
  split; [| split].
  - destruct (showAsked _ _), (setAsked _ _), isReset; reflexivity.
  - intros c Hle. apply Hgiven. unfold upTo, virtAPI, all in *.
    apply elem_of_seq. lia.
  - intros key Hnot. apply Hkept. by rewrite componentNames_table.
Qed.

Lemma componentName_inj (c1 c2 : nat) :
  (c1 ≤ all)%nat → (c2 ≤ all)%nat →
  getComponentNameByVirtComponent c1 = getComponentNameByVirtComponent c2 →
  c1 = c2.
Proof.
  unfold all. intros H1 H2 Heq.
  do 6 (destruct c1 as [| c1]; [do 6 (destruct c2 as [| c2]; [done |]); lia |]).
  lia.
Qed.

Lemma findOperation_from_app Changed verbosities before : ∀ rest state state',
  findOperation_from Changed verbosities before state = Some (state', None) →
  findOperation_from Changed verbosities (before ++ rest) state
  = findOperation_from Changed verbosities rest state'.
Proof.
  induction before as [| c before IH]; intros rest [[options isShow] isSet] state' Hrun.
  { simpl in Hrun. by injection Hrun as <-. }
  cbn [findOperation_from app] in *.
  destruct (negb (Changed (getComponentNameByVirtComponent c))); [by apply IH |].
  destruct (verbosities !! c) as [v |]; [| discriminate Hrun].
  cbn [mbind option_bind] in *.
  destruct (bool_decide (v ≠ noArg) && bool_decide (maxVerbosity < v));
    [discriminate Hrun | by apply IH].
Qed.

(** X26: the first given flag, in the order of the components, whose
    value is above 9 and is not the "no argument" value makes
    findOperation return nop with the error that names that flag. The flags before it are already recorded in the
    options; the offending flag and those after it are not. *)
Theorem findOperation_rejects Changed verbosities isReset options (c : nat) v :
  (c ≤ all)%nat →
  verbosities !! c = Some v →
  Changed (getComponentNameByVirtComponent c) = true →
  v ≠ noArg → maxVerbosity < v →
  (∀ (c' : nat) v', (c' < c)%nat → verbosities !! c' = Some v' →
     Changed (getComponentNameByVirtComponent c') = true →
     v' = noArg ∨ v' ≤ maxVerbosity) →
  ∃ options',
    findOperation Changed verbosities isReset options
    = Some (options',
            (nop, Some (errorString (getComponentNameByVirtComponent c
                                       +:+ ": log verbosity must be 0-9")))) ∧
    (∀ c' : nat, (c' < c)%nat →
       options' !! getComponentNameByVirtComponent c'
       = if Changed (getComponentNameByVirtComponent c')
         then verbosities !! c'
         else options !! getComponentNameByVirtComponent c') ∧
    (∀ c' : nat, (c ≤ c' ≤ all)%nat →
       options' !! getComponentNameByVirtComponent c'
       = options !! getComponentNameByVirtComponent c').
Proof.
  intros Hle Hv Hchanged Hne Hhigh Hbefore.
  assert (Hsplit : upTo virtAPI (S all) = seq 0 c ++ c :: seq (S c) (all - c)).
  { unfold upTo, virtAPI, all in *.
    replace (6 - 0)%nat with (c + S (5 - c))%nat by (clear -Hle; lia).
    by rewrite seq_app. }
  destruct (findOperation_from_ok Changed verbosities (seq 0 c) options false false)
    as (options' & Hrun & Hgiven & Hkept).
  { apply (NoDup_fmap_2_strong _).
    - intros c1 c2 [_ H1]%elem_of_seq [_ H2]%elem_of_seq.
      apply componentName_inj; unfold all in *; lia.
    - apply NoDup_seq. }
  { intros c' [_ Hlt]%elem_of_seq.
    destruct (lookup_lt_is_Some_2 verbosities c') as [v' Hv'].
    { apply lookup_lt_Some in Hv. lia. }
    exists v'. split; [done |]. intros Hc'. by apply (Hbefore c' v'). }
  exists options'. unfold findOperation. rewrite Hsplit.
  rewrite (findOperation_from_app _ _ _ _ _ _ Hrun).
  cbn [findOperation_from]. rewrite Hchanged. cbn [negb].
  unfold virtComponent in *. rewrite Hv. cbn [mbind option_bind].
  rewrite !bool_decide_eq_true_2 by done. cbn [andb].
  split; [reflexivity |]. split.
  - intros c' Hlt. apply Hgiven, elem_of_seq. lia.
  - intros c' [Hge Hle']. apply Hkept.
    intros (c1 & Heq & [_ Hlt]%elem_of_seq)%list_elem_of_fmap.
    apply componentName_inj in Heq; unfold all in *; lia.
Qed.

(** A loop of assignments into the map at [r]. *)
Lemma mapSet_loop {A} (f : A → option (string * Z)) (r : nat) l :
  ∀ (σ : list (gmap string Z)) m,
  σ !! r = Some m →
  forEach (λ σ a, match f a with
                  | None => Some σ
                  | Some (key, v) => mapSet σ (Some r) key v
                  end) σ l
  = Some (<[r := foldl (λ m a, match f a with
                               | None => m
                               | Some (key, v) => <[key := v]> m
                               end) m l]> σ).
Proof.
  induction l as [| a l IH]; intros σ m Hm.
  { cbn [forEach foldl]. by rewrite list_insert_id. }
  cbn [forEach foldl]. destruct (f a) as [[key v] |].
  - unfold mapSet. unfold Store, Ref in *. rewrite Hm. cbn [mbind option_bind].
    rewrite (IH _ (<[key := v]> m)).
    + by rewrite list_insert_insert_eq.
    + apply list_lookup_insert_eq. by apply lookup_lt_Some in Hm.
  - cbn [mbind option_bind]. by apply IH.
Qed.

Lemma jsonName_tables (c : nat) :
  (c ≤ all)%nat →
  getJSONNameByComponentName (getComponentNameByVirtComponent c)
  = getJSONNameByVirtComponent c.
Proof.
  intros Hle. do 6 (destruct c as [| c]; [reflexivity |]). unfold all in Hle. lia.
Qed.

Lemma componentNames_cases name :
  name ∈ componentNames →
  name = "all" ∨
  ∃ c : nat, (c < all)%nat ∧ name = getComponentNameByVirtComponent c.
Proof.
  intros Hin. unfold componentNames in Hin.
  repeat (apply elem_of_cons in Hin as [-> | Hin]);
    [right; exists 0%nat | right; exists 1%nat | right; exists 2%nat
     | right; exists 3%nat | right; exists 4%nat | by left
     | by apply elem_of_nil in Hin];
    (split; [unfold all; lia | reflexivity]).
Qed.

Lemma jsonNames_cases key :
  key ∈ jsonNames →
  ∃ c : nat, (c < all)%nat ∧ key = getJSONNameByVirtComponent c.
Proof.
  intros Hin. unfold jsonNames in Hin.
  repeat (apply elem_of_cons in Hin as [-> | Hin]);
    [exists 0%nat | exists 1%nat | exists 2%nat | exists 3%nat | exists 4%nat
     | by apply elem_of_nil in Hin];
    (split; [unfold all; lia | reflexivity]).
Qed.

Lemma jsonName_in (c : nat) :
  (c < all)%nat → getJSONNameByVirtComponent c ∈ jsonNames.
Proof.
  intros Hlt. do 5 (destruct c as [| c]; [simpl; repeat constructor |]).
  unfold all in Hlt. lia.
Qed.

Lemma jsonName_inj (c1 c2 : nat) :
  (c1 ≤ all)%nat → (c2 ≤ all)%nat →
  getJSONNameByVirtComponent c1 = getJSONNameByVirtComponent c2 → c1 = c2.
Proof.
  unfold all. intros H1 H2 Heq.
  do 6 (destruct c1 as [| c1]; [do 6 (destruct c2 as [| c2]; [done |]); lia |]).
  lia.
Qed.

Lemma componentName_not_all (c : nat) :
  (c < all)%nat → getComponentNameByVirtComponent c ≠ "all".
Proof.
  intros Hlt. do 5 (destruct c as [| c]; [done |]). unfold all in Hlt. lia.
Qed.

(** Requests written over a map, component by component. *)
Lemma fold_requests (req : nat → option Z) (cs : list nat) : ∀ m : gmap string Z,
  NoDup cs → (∀ c, c ∈ cs → (c ≤ all)%nat) →
  let m' := foldl (λ m c, from_option (λ v, <[getJSONNameByVirtComponent c := v]> m)
                            m (req c)) m cs in
  (∀ c, c ∈ cs → m' !! getJSONNameByVirtComponent c
                 = match req c with
                   | Some v => Some v
                   | None => m !! getJSONNameByVirtComponent c
                   end) ∧
  (∀ key, key ∉ getJSONNameByVirtComponent <$> cs → m' !! key = m !! key).
Proof.
  induction cs as [| c cs IH]; intros m Hnodup Hle; cbn zeta.
  { split; [| done]. intros c Hin. by apply elem_of_nil in Hin. }
  apply NoDup_cons in Hnodup as [Hfresh Hnodup]. cbn [foldl].
  destruct (IH (from_option (λ v, <[getJSONNameByVirtComponent c := v]> m) m (req c))
              Hnodup) as [Hset Hkept].
  { intros c' Hin. apply Hle. by right. }
  assert (Hother : ∀ c', c' ∈ cs →
            getJSONNameByVirtComponent c' ≠ getJSONNameByVirtComponent c).
  { intros c' Hin Heq. apply jsonName_inj in Heq.
    - by subst c'.
    - apply Hle. by right.
    - apply Hle. by left. }
  split.
  - intros c' [-> | Hin]%elem_of_cons.
    + rewrite Hkept.
      * destruct (req c); cbn [from_option]; [by rewrite lookup_insert_eq | done].
      * intros (c' & Heq & Hin)%list_elem_of_fmap. by apply (Hother c' Hin).
    + rewrite (Hset c' Hin). destruct (req c'); [done |].
      destruct (req c); [| done]. cbn [from_option].
      rewrite lookup_insert_ne; [done |]. intros Heq. by apply (Hother c' Hin).
  - intros key Hnot. rewrite fmap_cons, not_elem_of_cons in Hnot.
    destruct Hnot as [Hne Hnot]. rewrite (Hkept key Hnot).
    destruct (req c); [| done]. cbn [from_option]. by rewrite lookup_insert_ne.
Qed.

(** The entries of the options written over a map, whatever their order. *)
Lemma fold_options (entries : list (string * Z)) : ∀ m : gmap string Z,
  NoDup entries.*1 →
  (∀ name v, (name, v) ∈ entries → name ∈ componentNames) →
  let m' := foldl (λ m entry,
                     match (if bool_decide (entry.1 = "all") then None
                            else Some (getJSONNameByComponentName entry.1, entry.2))
                     with
                     | None => m
                     | Some (key, v) => <[key := v]> m
                     end) m entries in
  (∀ c : nat, (c < all)%nat →
     m' !! getJSONNameByVirtComponent c
     = match (list_to_map entries : gmap string Z)
             !! getComponentNameByVirtComponent c with
       | Some v => Some v
       | None => m !! getJSONNameByVirtComponent c
       end) ∧
  (∀ key, key ∉ jsonNames → m' !! key = m !! key).
Proof.
  induction entries as [| [name v] entries IH]; intros m Hnodup Hnames; cbn zeta.
  { split; [| done]. intros c Hlt. cbn [foldl list_to_map foldr].
    by rewrite lookup_empty. }
  rewrite fmap_cons in Hnodup. apply NoDup_cons in Hnodup as [Hfresh Hnodup].
  cbn [foldl fst snd].
  set (m1 := match (if bool_decide (name = "all") then None
                    else Some (getJSONNameByComponentName name, v)) with
             | None => m
             | Some (key, v0) => <[key := v0]> m
             end).
  destruct (IH m1 Hnodup) as [Hset Hkept].
  { intros name' v' Hin. apply (Hnames name' v'). by right. }
  split.
  - intros c Hlt. rewrite (Hset c Hlt). cbn [list_to_map foldr uncurry].
    cbn [fst snd Datatypes.uncurry].
    destruct (decide (name = getComponentNameByVirtComponent c)) as [-> | Hne].
    + rewrite lookup_insert_eq.
      rewrite (not_elem_of_list_to_map_1 _ _ Hfresh).
      subst m1. rewrite bool_decide_eq_false_2 by by apply componentName_not_all.
      rewrite jsonName_tables by lia. by rewrite lookup_insert_eq.
    + rewrite lookup_insert_ne by done.
      destruct (list_to_map entries !! getComponentNameByVirtComponent c); [done |].
      subst m1. case_bool_decide; [done |].
      rewrite lookup_insert_ne; [done |].
      destruct (componentNames_cases name) as [-> | (c' & Hlt' & ->)];
        [apply (Hnames name v); by left | done |].
      rewrite jsonName_tables by lia. intros Heq. apply Hne. f_equal.
      apply jsonName_inj in Heq; lia.
  - intros key Hnot. rewrite (Hkept key Hnot). subst m1.
    case_bool_decide; [done |].
    rewrite lookup_insert_ne; [done |].
    destruct (componentNames_cases name) as [-> | (c' & Hlt' & ->)];
      [apply (Hnames name v); by left | done |].
    rewrite jsonName_tables by lia. intros <-. by apply Hnot, jsonName_in.
Qed.

Lemma setVerbosity_options_run (rangeOrder : gmap string Z → list (string * Z))
    (r : nat) options patchData op path (σ : list (gmap string Z)) m :
  σ !! r = Some m →
  rangeOrder options ≡ₚ map_to_list options →
  (∀ name, is_Some (options !! name) → name ∈ componentNames) →
  logverbosity_options.setVerbosity rangeOrder (Some r) options patchData op path σ
  = Some (if bool_decide (size (optionsAfter options m) ≠ 0%nat)
          then logverbosity_options.addPatch patchData op path (Some r)
          else patchData,
          <[r := optionsAfter options m]> σ).
Proof.
  intros Hm Hperm Hnames. unfold logverbosity_options.setVerbosity.
  set (m1 := match options !! "all" with
             | Some v =>
                 foldl (λ m c, from_option
                                 (λ v, <[getJSONNameByVirtComponent c := v]> m) m
                                 (Some v)) m (upTo virtAPI all)
             | None => m
             end).
  assert (Hfirst :
    match options !! "all" with
    | Some verbosity =>
        forEach (λ σ component,
                   mapSet σ (Some r) (getJSONNameByVirtComponent component) verbosity)
                σ (upTo virtAPI all)
    | None => Some σ
    end = Some (<[r := m1]> σ)).
  { subst m1. destruct (options !! "all") as [v |].
    - exact (mapSet_loop (λ c, Some (getJSONNameByVirtComponent c, v)) r _ σ m Hm).
    - by rewrite list_insert_id. }
  unfold Store, Ref, virtComponent in *.
  rewrite Hfirst. clear Hfirst. cbn [mbind option_bind].
  set (f := λ entry : string * Z,
              if bool_decide (entry.1 = "all") then None
              else Some (getJSONNameByComponentName entry.1, entry.2)).
  rewrite (forEach_ext _ (λ σ a, match f a with
                                 | None => Some σ
                                 | Some (key, v) => mapSet σ (Some r) key v
                                 end)).
  2: { intros acc [name v] _. subst f. cbn [fst snd]. by case_bool_decide. }
  assert (Hr : (r < length σ)%nat) by by apply lookup_lt_Some in Hm.
  rewrite (mapSet_loop f r _ _ m1) by by apply list_lookup_insert_eq.
  cbn [mbind option_bind]. rewrite list_insert_insert_eq.
  unfold mapLen. unfold Store, Ref in *.
  rewrite list_lookup_insert_eq by done. cbn [mbind option_bind].
  set (m2 := foldl _ m1 (rangeOrder options)).
  assert (Hfinal : m2 = optionsAfter options m); [| by rewrite Hfinal].
  assert (Hnodup : NoDup (rangeOrder options).*1).
  { rewrite Hperm. apply NoDup_fst_map_to_list. }
  assert (Hlist : (list_to_map (rangeOrder options) : gmap string Z) = options).
  { rewrite (list_to_map_proper _ (map_to_list options)) by done.
    apply list_to_map_to_list. }
  destruct (fold_options (rangeOrder options) m1 Hnodup) as [Hset2 Hkept2].
  { intros name v Hin. apply Hnames. exists v.
    apply elem_of_map_to_list. by rewrite <- Hperm. }
  change (foldl _ m1 (rangeOrder options)) with m2 in Hset2, Hkept2.
  rewrite Hlist in Hset2.
  assert (Hfive : NoDup (upTo virtAPI all)) by apply NoDup_seq.
  assert (Hle : ∀ c, c ∈ upTo virtAPI all → (c ≤ all)%nat).
  { intros c [_ Hlt]%elem_of_seq. unfold virtAPI, all in *. lia. }
  assert (Hm1 : ∀ c : nat, (c < all)%nat →
            m1 !! getJSONNameByVirtComponent c
            = match options !! "all" with
              | Some v => Some v
              | None => m !! getJSONNameByVirtComponent c
              end).
  { intros c Hlt. subst m1. destruct (options !! "all") as [v |]; [| done].
    destruct (fold_requests (λ _, Some v) _ m Hfive Hle) as [Hset1 _].
    apply Hset1, elem_of_seq. unfold virtAPI, all in *. lia. }
  assert (Hm1' : ∀ key, key ∉ jsonNames → m1 !! key = m !! key).
  { intros key Hnot. subst m1. destruct (options !! "all") as [v |]; [| done].
    destruct (fold_requests (λ _, Some v) _ m Hfive Hle) as [_ Hkept1].
    by apply Hkept1. }
  destruct (fold_requests (requestedFor options) _ m Hfive Hle) as [Hset Hkept].
  fold (optionsAfter options m) in Hset, Hkept.
  apply map_eq. intros key.
  destruct (decide (key ∈ jsonNames)) as [Hin | Hnot].
  - apply jsonNames_cases in Hin as (c & Hlt & ->).
    rewrite (Hset2 c Hlt), Hset, (Hm1 c Hlt)
      by (apply elem_of_seq; unfold virtAPI, all in *; lia).
    unfold requestedFor.
    by destruct (options !! getComponentNameByVirtComponent c), (options !! "all").
  - by rewrite (Hkept2 key Hnot), (Hm1' key Hnot), (Hkept key Hnot).
Qed.

(** X27: for options whose keys are flag names, and whatever order the
    range over them takes, setVerbosity leaves in the map, for each of the five components, the verbosity
    given for the component, otherwise the one given for "all", otherwise
    what the map held; other keys keep their value. One operation that
    holds the map is appended to the patch when the map is not empty. *)
Theorem setVerbosity_options_order (rangeOrder : gmap string Z → list (string * Z))
    (r : nat) options patchData op path (σ : list (gmap string Z)) m :
  σ !! r = Some m →
  rangeOrder options ≡ₚ map_to_list options →
  (∀ name, is_Some (options !! name) → name ∈ componentNames) →
  ∃ final,
    logverbosity_options.setVerbosity rangeOrder (Some r) options patchData op path σ
    = Some (if bool_decide (size final ≠ 0%nat)
            then patchData ++ [mkPatchOperation op path (Some r)]
            else patchData,
            <[r := final]> σ) ∧
    (∀ c : nat, (c < all)%nat →
       final !! getJSONNameByVirtComponent c
       = match options !! getComponentNameByVirtComponent c with
         | Some v => Some v
         | None => match options !! "all" with
                   | Some v => Some v
                   | None => m !! getJSONNameByVirtComponent c
                   end
         end) ∧
    (∀ key, key ∉ jsonNames → final !! key = m !! key).
Proof.
  intros Hm Hperm Hnames. exists (optionsAfter options m).
  split; [by apply setVerbosity_options_run |].
  destruct (fold_requests (requestedFor options) (upTo virtAPI all) m)
    as [Hset Hkept].
  { apply NoDup_seq. }
  { intros c [_ Hlt]%elem_of_seq. unfold virtAPI, all in *. lia. }
  fold (optionsAfter options m) in Hset, Hkept. split.
  - intros c Hlt. rewrite Hset by (apply elem_of_seq; unfold virtAPI, all in *; lia).
    unfold requestedFor.
    by destruct (options !! getComponentNameByVirtComponent c), (options !! "all").
  - intros key Hnot. by apply Hkept.
Qed.

(** X28: createPatch panics exactly when the resource is nil or has no
    developerConfiguration, which hasVerbosityInKV reads through. It
    hands an error of hasVerbosityInKV back with no bytes. Otherwise, for
    options whose keys are flag names, it marshals at most two "add"
    operations: on a reset of a non-empty existing map, one that carries
    an empty object, and, when the map after the set operation is not
    empty, one that carries that map; after a reset the existing
    verbosities are not part of it. The empty object of the reset is a
    map of its own, which the set operation does not fill. *)
Theorem createPatch_options {KubeVirt DeveloperConfiguration LogVerbosity : Type}
    (rangeOrder : gmap string Z → list (string * Z))
    (DeveloperConfiguration_ : KubeVirt → option DeveloperConfiguration)
    (LogVerbosity_ : DeveloperConfiguration → option LogVerbosity)
    (marshalLogVerbosity : option LogVerbosity → list byte * option error)
    (unmarshalMap : list byte → option (gmap string Z) →
                    option (gmap string Z) * option error)
    (marshalPatch : list MarshalledOperation → list byte * option error)
    (PatchAddOp : string) isReset kv options :
  rangeOrder options ≡ₚ map_to_list options →
  (∀ name, is_Some (options !! name) → name ∈ componentNames) →
  (logverbosity_options.createPatch rangeOrder DeveloperConfiguration_
     LogVerbosity_ marshalLogVerbosity unmarshalMap marshalPatch PatchAddOp
     isReset kv options = None
   ↔ kv = None ∨ ∃ kv', kv = Some kv' ∧ DeveloperConfiguration_ kv' = None) ∧
  (∀ returned err,
     hasVerbosityInKV DeveloperConfiguration_ LogVerbosity_ marshalLogVerbosity
       unmarshalMap kv = Some (returned, Some err) →
     logverbosity_options.createPatch rangeOrder DeveloperConfiguration_
       LogVerbosity_ marshalLogVerbosity unmarshalMap marshalPatch PatchAddOp
       isReset kv options
     = Some ([], Some err)) ∧
  (∀ returned,
     hasVerbosityInKV DeveloperConfiguration_ LogVerbosity_ marshalLogVerbosity
       unmarshalMap kv = Some (returned, None) →
     let existing := default ∅ returned in
     let final := optionsAfter options (if isReset then ∅ else existing) in
     let add value :=
       mkMarshalledOperation PatchAddOp
         "/spec/configuration/developerConfiguration/logVerbosity" (Some value) in
     logverbosity_options.createPatch rangeOrder DeveloperConfiguration_
       LogVerbosity_ marshalLogVerbosity unmarshalMap marshalPatch PatchAddOp
       isReset kv options
     = Some (marshalPatch
               ((if isReset && bool_decide (size existing ≠ 0%nat)
                 then [add ∅] else [])
                ++ (if bool_decide (size final ≠ 0%nat) then [add final] else [])))).
Proof.
  intros Hperm Hnames.
  assert (Herror : ∀ returned err,
    hasVerbosityInKV DeveloperConfiguration_ LogVerbosity_ marshalLogVerbosity
      unmarshalMap kv = Some (returned, Some err) →
    logverbosity_options.createPatch rangeOrder DeveloperConfiguration_
      LogVerbosity_ marshalLogVerbosity unmarshalMap marshalPatch PatchAddOp
      isReset kv options
    = Some ([], Some err)).
  { intros returned err Hhas. unfold logverbosity_options.createPatch.
    by rewrite Hhas. }
  assert (Hmarshals : ∀ returned,
    hasVerbosityInKV DeveloperConfiguration_ LogVerbosity_ marshalLogVerbosity
      unmarshalMap kv = Some (returned, None) →
    logverbosity_options.createPatch rangeOrder DeveloperConfiguration_
      LogVerbosity_ marshalLogVerbosity unmarshalMap marshalPatch PatchAddOp
      isReset kv options
    = Some (marshalPatch
              ((if isReset && bool_decide (size (default ∅ returned) ≠ 0%nat)
                then [mkMarshalledOperation PatchAddOp
                        "/spec/configuration/developerConfiguration/logVerbosity"
                        (Some ∅)]
                else [])
               ++ (if bool_decide
                        (size (optionsAfter options
                                 (if isReset then ∅ else default ∅ returned))
                         ≠ 0%nat)
                   then [mkMarshalledOperation PatchAddOp
                           "/spec/configuration/developerConfiguration/logVerbosity"
                           (Some (optionsAfter options
                                    (if isReset then ∅ else default ∅ returned)))]
                   else [])))).
  { intros returned Hhas.
    unfold logverbosity_options.createPatch. rewrite Hhas.
    assert (Hempty : bool_decide (size (∅ : gmap string Z) ≠ 0%nat) = false).
    { apply bool_decide_eq_false_2. rewrite map_size_empty.
      intros Hne. by apply Hne. }
    destruct returned as [m0 |], isReset; unfold resetVerbosity; simpl.
    + destruct (bool_decide (size m0 ≠ 0%nat)); simpl.
      * rewrite (setVerbosity_options_run _ 2%nat _ _ _ _ [m0; ∅; ∅] ∅) by done.
        simpl.
        destruct (bool_decide (size (optionsAfter options ∅) ≠ 0%nat)); reflexivity.
      * rewrite (setVerbosity_options_run _ 1%nat _ _ _ _ [m0; ∅] ∅) by done.
        simpl.
        destruct (bool_decide (size (optionsAfter options ∅) ≠ 0%nat)); reflexivity.
    + rewrite (setVerbosity_options_run _ 0%nat _ _ _ _ [m0] m0) by done.
      simpl.
      destruct (bool_decide (size (optionsAfter options m0) ≠ 0%nat)); reflexivity.
    + rewrite Hempty. simpl.
      rewrite (setVerbosity_options_run _ 1%nat _ _ _ _ [∅; ∅] ∅) by done.
      simpl.
      destruct (bool_decide (size (optionsAfter options ∅) ≠ 0%nat)); reflexivity.
    + rewrite (setVerbosity_options_run _ 0%nat _ _ _ _ [∅] ∅) by done.
      simpl.
      destruct (bool_decide (size (optionsAfter options ∅) ≠ 0%nat)); reflexivity. }
  split; [| split; [exact Herror |]].
  - rewrite <- (hasVerbosityInKV_panics DeveloperConfiguration_ LogVerbosity_
                  marshalLogVerbosity unmarshalMap kv).
    split.
    + intros Hrun.
      destruct (hasVerbosityInKV DeveloperConfiguration_ LogVerbosity_
                  marshalLogVerbosity unmarshalMap kv)
        as [[returned [err |]] |] eqn:Hhas; [| | done].
      * rewrite (Herror _ _ eq_refl) in Hrun. discriminate Hrun.
      * rewrite (Hmarshals _ eq_refl) in Hrun. discriminate Hrun.
    + intros Hhas. unfold logverbosity_options.createPatch. by rewrite Hhas.
  - intros returned Hhas existing final add. exact (Hmarshals _ Hhas).
Qed.

Lemma append_loop {A B} (cond : A → bool) (f : A → B) (l : list A) : ∀ acc,
  foldl (λ acc a, if cond a then acc ++ [f a] else acc) acc l
  = acc ++ omap (λ a, if cond a then Some (f a) else None) l.
Proof.
  induction l as [| a l IH]; intros acc.
  { by rewrite app_nil_r. }
  cbn [foldl]. rewrite IH. csimpl. destruct (cond a); [| done].
  by rewrite <- app_assoc.
Qed.

Lemma foldl_pointwise {A B} (f g : B → A → B) (l : list A) : ∀ acc,
  (∀ acc a, f acc a = g acc a) → foldl f acc l = foldl g acc l.
Proof.
  induction l as [| a l IH]; intros acc Hext; [done |].
  cbn [foldl]. rewrite Hext. by apply IH.
Qed.

Lemma omap_ext_in {A B} (f g : A → option B) (l : list A) :
  (∀ a, a ∈ l → f a = g a) → omap f l = omap g l.
Proof.
  induction l as [| a l IH]; intros Hext; [done |]. csimpl.
  rewrite (Hext a) by left. rewrite IH; [done |].
  intros a' Hin. apply Hext. by right.
Qed.

Lemma createOutputMessage_omap verbosityVal options :
  logverbosity_options.createOutputMessage verbosityVal options
  = omap (λ c, if shownFor options c
               then Some (getComponentNameByVirtComponent c +:+ "=" +:+
                          pretty (default 0 (verbosityVal
                                             !! getJSONNameByVirtComponent c)))
               else None)
         (upTo virtAPI all).
Proof.
  unfold logverbosity_options.createOutputMessage.
  rewrite <- (app_nil_l (omap _ _)).
  rewrite <- (append_loop (shownFor options)
                (λ c, getComponentNameByVirtComponent c +:+ "=" +:+
                      pretty (default 0 (verbosityVal
                                         !! getJSONNameByVirtComponent c)))).
  apply foldl_pointwise. intros messages c. unfold shownFor.
  destruct (bool_decide (is_Some (options !! "all"))); [done |]. done.
Qed.

Lemma overwrite_entries (entries : list (string * Z)) : ∀ m : gmap string Z,
  NoDup entries.*1 →
  ∀ key, foldl (λ m '(key, value), <[key := value]> m) m entries !! key
         = match (list_to_map entries : gmap string Z) !! key with
           | Some v => Some v
           | None => m !! key
           end.
Proof.
  induction entries as [| [k v] entries IH]; intros m Hnodup key.
  { cbn [foldl list_to_map foldr]. by rewrite lookup_empty. }
  rewrite fmap_cons in Hnodup. apply NoDup_cons in Hnodup as [Hfresh Hnodup].
  cbn [foldl]. rewrite (IH _ Hnodup). cbn [list_to_map foldr]. cbn [uncurry fst snd].
  change (foldr (λ p, <[p.1 := p.2]>) ∅ entries)
    with (list_to_map entries : gmap string Z).
  destruct (decide (k = key)) as [-> | Hne].
  - rewrite !lookup_insert_eq.
    by rewrite (not_elem_of_list_to_map_1 _ _ Hfresh).
  - by rewrite !lookup_insert_ne by done.
Qed.

(** X29: createShowMessage panics exactly when the resource is nil or
    has no developerConfiguration, which hasVerbosityInKV reads through.
    It hands an error of hasVerbosityInKV back with no messages. Otherwise
    it gives one message "name=verbosity" for each of the five components
    the options ask for, all of them when "all" is among the options, in
    the order of the components; the verbosity is the one of the resource
    when it has one for the component and the default otherwise, whatever
    order the range over the map of the resource takes. *)
Theorem createShowMessage_options {KubeVirt DeveloperConfiguration LogVerbosity : Type}
    (rangeOrder : gmap string Z → list (string * Z))
    (DeveloperConfiguration_ : KubeVirt → option DeveloperConfiguration)
    (LogVerbosity_ : DeveloperConfiguration → option LogVerbosity)
    (marshalLogVerbosity : option LogVerbosity → list byte * option error)
    (unmarshalMap : list byte → option (gmap string Z) →
                    option (gmap string Z) * option error)
    (defaultAPI defaultController defaultHandler defaultLauncher defaultOperator : Z)
    kv options :
  (createShowMessage rangeOrder DeveloperConfiguration_ LogVerbosity_
     marshalLogVerbosity unmarshalMap
     defaultAPI defaultController defaultHandler defaultLauncher defaultOperator
     kv options = None
   ↔ kv = None ∨ ∃ kv', kv = Some kv' ∧ DeveloperConfiguration_ kv' = None) ∧
  (∀ returned err,
     hasVerbosityInKV DeveloperConfiguration_ LogVerbosity_ marshalLogVerbosity
       unmarshalMap kv = Some (returned, Some err) →
     createShowMessage rangeOrder DeveloperConfiguration_ LogVerbosity_
       marshalLogVerbosity unmarshalMap
       defaultAPI defaultController defaultHandler defaultLauncher defaultOperator
       kv options
     = Some ([], Some err)) ∧
  (∀ returned,
     hasVerbosityInKV DeveloperConfiguration_ LogVerbosity_ marshalLogVerbosity
       unmarshalMap kv = Some (returned, None) →
     rangeOrder (default ∅ returned) ≡ₚ map_to_list (default ∅ returned) →
     createShowMessage rangeOrder DeveloperConfiguration_ LogVerbosity_
       marshalLogVerbosity unmarshalMap
       defaultAPI defaultController defaultHandler defaultLauncher defaultOperator
       kv options
     = Some (omap (λ c : nat,
                     if shownFor options c
                     then Some (getComponentNameByVirtComponent c +:+ "=" +:+
                                pretty (default
                                          (default 0
                                             ([defaultAPI; defaultController;
                                               defaultHandler; defaultLauncher;
                                               defaultOperator] !! c))
                                          (default ∅ returned
                                           !! getJSONNameByVirtComponent c)))
                     else None)
                  (upTo virtAPI all),
             None)).
Proof.
  split; [| split].
  - rewrite <- (hasVerbosityInKV_panics DeveloperConfiguration_ LogVerbosity_
                  marshalLogVerbosity unmarshalMap kv).
    unfold createShowMessage.
    destruct (hasVerbosityInKV DeveloperConfiguration_ LogVerbosity_
                marshalLogVerbosity unmarshalMap kv)
      as [[returned [err |]] |]; simpl; done.
  - intros returned err Hhas. unfold createShowMessage. by rewrite Hhas.
  - intros returned Hhas Hperm. unfold createShowMessage. rewrite Hhas.
    cbn [mbind option_bind]. f_equal.
    set (defaults := list_to_map _ : gmap string Z).
    set (verbosityVal := if bool_decide _ then _ else _).
    assert (Hval : ∀ key, verbosityVal !! key
                          = match default ∅ returned !! key with
                            | Some v => Some v
                            | None => defaults !! key
                            end).
    { intros key. subst verbosityVal. case_bool_decide as Hsize.
      - destruct returned as [lv |]; [| simpl in Hsize; lia].
        cbn [from_option default] in *. unfold id in *.
        rewrite overwrite_entries.
        + rewrite (list_to_map_proper _ (map_to_list lv)), list_to_map_to_list;
            [done | | done].
          rewrite Hperm. apply NoDup_fst_map_to_list.
        + rewrite Hperm. apply NoDup_fst_map_to_list.
      - destruct returned as [lv |]; cbn [from_option default] in *;
          unfold id in *.
        + assert (lv = ∅) as -> by (apply map_size_empty_inv; lia).
          by rewrite lookup_empty.
        + by rewrite lookup_empty. }
    rewrite createOutputMessage_omap. f_equal. apply omap_ext_in.
    intros c [_ Hlt]%elem_of_seq. destruct (shownFor options c); [| done].
    do 3 f_equal. rewrite Hval.
    destruct (default ∅ returned !! getJSONNameByVirtComponent c); [done |].
    do 5 (destruct c as [| c]; [reflexivity |]).
    unfold virtAPI, all in Hlt. lia.
Qed.

End logverbosity_options_properties.

Lemma name_tables_agree_witness :
  logverbosity_options.getJSONNameByComponentName
    (logverbosity_options.getComponentNameByVirtComponent logverbosity.virtHandler)
  = "virtHandler" ∧
  logverbosity_options.getJSONNameByComponentName "virt-exportproxy" = "".
Proof.
  destruct name_tables_agree as (Hagree & Hunknown & _). split.
  - rewrite (Hagree logverbosity.virtHandler); [reflexivity |].
    unfold logverbosity.virtHandler, logverbosity.all. lia.
  - apply Hunknown. intros Hin.
    repeat (apply elem_of_cons in Hin as [Heq | Hin]; [discriminate Heq |]).
    by apply elem_of_nil in Hin.
Defined.

Lemma findOperation_options_witness :
  ∃ options',
    logverbosity_options.findOperation LogFixture.allThenHandlerChanged
      LogFixture.allThenHandlerVerbosities false ∅
    = Some (options', (logverbosity.set, None)) ∧
    options' !! "virt-handler" = Some 7 ∧
    options' !! "all" = Some 3 ∧
    options' !! "virt-api" = None.
Proof.
  destruct (findOperation_options LogFixture.allThenHandlerChanged
              LogFixture.allThenHandlerVerbosities false ∅)
    as (options' & Hrun & Hgiven & _).
  - reflexivity.
  - intros name v Hin Hchanged.
    repeat (apply elem_of_cons in Hin as [Heq | Hin];
            [injection Heq as -> ->;
             first [discriminate Hchanged | right; by vm_compute] |]).
    by apply elem_of_nil in Hin.
  - exists options'. split; [exact Hrun |].
    split; [exact (Hgiven 2%nat ltac:(unfold logverbosity.all; lia)) |].
    split; [exact (Hgiven 5%nat ltac:(unfold logverbosity.all; lia)) |].
    exact (Hgiven 0%nat ltac:(unfold logverbosity.all; lia)).
Defined.

Lemma findOperation_rejects_witness :
  ∃ options',
    logverbosity_options.findOperation LogFixture.tooHighChanged
      LogFixture.tooHighVerbosities false ∅
    = Some (options',
            (logverbosity.nop,
             Some (errorString "virt-handler: log verbosity must be 0-9"))) ∧
    options' !! "virt-api" = Some 3 ∧
    options' !! "all" = None.
Proof.
  destruct (findOperation_rejects LogFixture.tooHighChanged
              LogFixture.tooHighVerbosities false ∅ 2%nat 10)
    as (options' & Hrun & Hgiven & Hkept).
  - unfold logverbosity.all. lia.
  - reflexivity.
  - reflexivity.
  - discriminate.
  - reflexivity.
  - intros c' v' Hlt Hv' Hchanged.
    destruct c' as [| [| c']]; [| discriminate Hchanged | lia].
    injection Hv' as <-. right. by vm_compute.
  - exists options'. split; [exact Hrun |].
    split; [exact (Hgiven 0%nat ltac:(lia)) |].
    exact (Hkept 5%nat ltac:(unfold logverbosity.all; lia)).
Defined.

Lemma allThenHandler_names name :
  is_Some (LogFixture.allThenHandler !! name) →
  name ∈ logverbosity_options_wording.componentNames.
Proof.
  intros [v Hv]. apply elem_of_list_to_map_2 in Hv.
  repeat (apply elem_of_cons in Hv as [Heq | Hv];
          [injection Heq as -> _; repeat constructor |]).
  by apply elem_of_nil in Hv.
Qed.

Lemma setVerbosity_options_order_witness :
  ∃ final,
    logverbosity_options.setVerbosity LogFixture.backwards (Some 0%nat)
      LogFixture.allThenHandler [] "add" "/path" [LogFixture.existing]
    = Some ([logverbosity.mkPatchOperation "add" "/path" (Some 0%nat)],
            [final]) ∧
    final !! "virtHandler" = Some 7 ∧
    final !! "virtAPI" = Some 3.
Proof.
  destruct (setVerbosity_options_order LogFixture.backwards 0%nat
              LogFixture.allThenHandler [] "add" "/path" [LogFixture.existing]
              LogFixture.existing)
    as (final & Hrun & Hset & _).
  - reflexivity.
  - apply reverse_Permutation.
  - apply allThenHandler_names.
  - exists final.
    pose proof (Hset 2%nat ltac:(unfold logverbosity.all; lia)) as Hhandler.
    pose proof (Hset 0%nat ltac:(unfold logverbosity.all; lia)) as Hapi.
    split; [| split; [exact Hhandler | exact Hapi]].
    rewrite Hrun. rewrite bool_decide_eq_true_2; [reflexivity |].
    intros Hsize. apply map_size_empty_inv in Hsize. subst final.
    discriminate Hapi.
Defined.

Lemma createPatch_options_witness :
  logverbosity_options.createPatch LogFixture.backwards
    LogFixture.developerConfiguration LogFixture.logVerbosity LogFixture.marshal
    LogFixture.unmarshal LogFixture.marshalPatch "add" true
    (Some LogFixture.withVerbosity) LogFixture.allThenHandler
  = Some ([x00; x05], None) ∧
  logverbosity_options.createPatch LogFixture.backwards
    LogFixture.developerConfiguration LogFixture.logVerbosity
    (λ _, LogFixture.broken)
    LogFixture.unmarshal LogFixture.marshalPatch "add" true
    (Some LogFixture.withVerbosity) LogFixture.allThenHandler
  = Some ([], Some (errorString "json: unsupported value")) ∧
  logverbosity_options.createPatch LogFixture.backwards
    LogFixture.developerConfiguration LogFixture.logVerbosity LogFixture.marshal
    LogFixture.unmarshal LogFixture.marshalPatch "add" true
    (Some LogFixture.withoutDeveloperConfiguration) LogFixture.allThenHandler
  = None.
Proof.
  split; [| split].
  - edestruct (createPatch_options LogFixture.backwards
                 LogFixture.developerConfiguration LogFixture.logVerbosity
                 LogFixture.marshal
                 LogFixture.unmarshal LogFixture.marshalPatch "add" true
                 (Some LogFixture.withVerbosity) LogFixture.allThenHandler)
      as (_ & _ & Hpatch);
      [apply reverse_Permutation | apply allThenHandler_names |].
    rewrite (Hpatch _ eq_refl). by vm_compute.
  - edestruct (createPatch_options LogFixture.backwards
                 LogFixture.developerConfiguration LogFixture.logVerbosity
                 (λ _ : option LogFixture.LogVerbosity, LogFixture.broken)
                 LogFixture.unmarshal LogFixture.marshalPatch "add" true
                 (Some LogFixture.withVerbosity) LogFixture.allThenHandler)
      as (_ & Herror & _);
      [apply reverse_Permutation | apply allThenHandler_names |].
    exact (Herror None _ eq_refl).
  - edestruct (createPatch_options LogFixture.backwards
                 LogFixture.developerConfiguration LogFixture.logVerbosity
                 LogFixture.marshal
                 LogFixture.unmarshal LogFixture.marshalPatch "add" true
                 (Some LogFixture.withoutDeveloperConfiguration)
                 LogFixture.allThenHandler)
      as (Hpanics & _ & _);
      [apply reverse_Permutation | apply allThenHandler_names |].
    apply Hpanics. right. by exists LogFixture.withoutDeveloperConfiguration.
Defined.

Lemma createShowMessage_options_witness :
  logverbosity_options.createShowMessage LogFixture.backwards
    LogFixture.developerConfiguration LogFixture.logVerbosity LogFixture.marshal
    LogFixture.unmarshal 2 2 2 2 2 (Some LogFixture.withVerbosity)
    LogFixture.showTwoOptions
  = Some (["virt-handler=2"; "virt-launcher=3"], None) ∧
  logverbosity_options.createShowMessage LogFixture.backwards
    LogFixture.developerConfiguration LogFixture.logVerbosity
    (λ _, LogFixture.broken) LogFixture.unmarshal 2 2 2 2 2
    (Some LogFixture.withVerbosity) LogFixture.showTwoOptions
  = Some ([], Some (errorString "json: unsupported value")) ∧
  logverbosity_options.createShowMessage LogFixture.backwards
    LogFixture.developerConfiguration LogFixture.logVerbosity LogFixture.marshal
    LogFixture.unmarshal 2 2 2 2 2 (Some LogFixture.withoutDeveloperConfiguration)
    LogFixture.showTwoOptions
  = None.
Proof.
  split; [| split].
  - edestruct (createShowMessage_options LogFixture.backwards
                 LogFixture.developerConfiguration LogFixture.logVerbosity
                 LogFixture.marshal
                 LogFixture.unmarshal 2 2 2 2 2 (Some LogFixture.withVerbosity))
      as (_ & _ & Hshow).
    rewrite (Hshow _ eq_refl (reverse_Permutation _)). by vm_compute.
  - edestruct (createShowMessage_options LogFixture.backwards
                 LogFixture.developerConfiguration LogFixture.logVerbosity
                 (λ _ : option LogFixture.LogVerbosity, LogFixture.broken)
                 LogFixture.unmarshal 2 2 2 2 2
                 (Some LogFixture.withVerbosity))
      as (_ & Herror & _).
    exact (Herror None _ eq_refl).
  - edestruct (createShowMessage_options LogFixture.backwards
                 LogFixture.developerConfiguration LogFixture.logVerbosity
                 LogFixture.marshal
                 LogFixture.unmarshal 2 2 2 2 2
                 (Some LogFixture.withoutDeveloperConfiguration))
      as (Hpanics & _ & _).
    apply Hpanics. right. by exists LogFixture.withoutDeveloperConfiguration.
Defined.
